(** * kpl-backend: teams, players and global players

    A shallow embedding of the Team and Player repositories
    (src/models/Team.js, src/models/Player.js), of the controllers in
    front of them (teamController.js, playerController.js) and of the
    relational schema they run against (config/database.js,
    [initializeDatabase]).

    - JavaScript values are the inductive [jsval]; [a || b], [!a] and
      [.trim()] are [js_or], [truthy] and [js_trim].
    - A table is a finite map from its SERIAL primary key to the other
      columns; the database is a record of the three tables and the two
      sequences.
    - A query is a state-and-exception computation [Query]; a controller is
      a [Query response] that never throws (its [try]/[catch] answers 500).
    - What the source leaves to PostgreSQL and to the pg driver (collation
      of ORDER BY, case folding of ILIKE, the integer input syntax, the
      printing of numbers) is the interface [Platform].
    - A SERIAL sequence has the values up to [serial_max]; nextval past
      the last one is an error, and no row is written.
    - ORDER BY is a merge sort of the rows that were selected. Rows the
      ordering does not tell apart come in an order PostgreSQL leaves
      open: of two listings the statements say that each is sorted and
      that one is a permutation of the other, not where equals stand.
    - The users table, the User repository (src/models/User.js), login
      and token verification (authController.js), the middleware
      [authenticateToken] and [initializeApp] of server.js are embedded
      over a store of their own, [accounts]; what bcryptjs and
      jsonwebtoken do is the interface [Credentials]. *)

From Stdlib Require Import ZArith NArith Ascii String.
From stdpp Require Import base tactics option list sorting gmap pretty.

Local Open Scope Z_scope.

(** ** Text *)

(** A string is the list of its code points. *)
Abbreviation text := (list N).

(** The text of an ASCII literal of the source. *)
Fixpoint lit (s : string) : text :=
  match s with
  | EmptyString => []
  | String a r => N_of_ascii a :: lit r
  end.

(** WhiteSpace and LineTerminator of ECMAScript, the characters
    [String.prototype.trim] removes. *)
Definition isWhiteSpace (c : N) : bool :=
  ((9 <=? c) && (c <=? 13) || (c =? 32) || (c =? 160) || (c =? 0x1680)
   || (0x2000 <=? c) && (c <=? 0x200A) || (c =? 0x2028) || (c =? 0x2029)
   || (c =? 0x202F) || (c =? 0x205F) || (c =? 0x3000) || (c =? 0xFEFF))%N.

Fixpoint trimStart (s : text) : text :=
  match s with
  | c :: r => if isWhiteSpace c then trimStart r else s
  | [] => []
  end.

Definition trimEnd (s : text) : text := reverse (trimStart (reverse s)).

Definition trim (s : text) : text := trimEnd (trimStart s).

(** ** JavaScript values *)

(** The values a JSON body, a query string or a route parameter can hold.
    [JNum] is an integral number; [JOther] is any other value that is truthy
    and has no string methods (a non-integral number, an array, an object),
    carrying the text the pg driver sends for it, which is never an integer
    literal. *)
Inductive jsval :=
  | JUndefined
  | JNull
  | JBool (b : bool)
  | JNum (z : Z)
  | JStr (s : text)
  | JOther (wire : text).

Definition truthy (v : jsval) : bool :=
  match v with
  | JUndefined | JNull => false
  | JBool b => b
  | JNum z => negb (z =? 0)
  | JStr s => match s with [] => false | _ => true end
  | JOther _ => true
  end.

(** [a || b] *)
Definition js_or (a b : jsval) : jsval := if truthy a then a else b.

(** The result of an expression that may throw. *)
Inductive outcome (A : Type) :=
  | Ok (a : A)
  | Throw.
Arguments Ok {A} a.
Arguments Throw {A}.

(** [v.trim()]: a TypeError on anything but a string. *)
Definition js_trim (v : jsval) : outcome text :=
  match v with
  | JStr s => Ok (trim s)
  | _ => Throw
  end.

(** ** The platform under the repositories *)

Class Platform := {
  (** the collation ORDER BY compares text with: a total preorder *)
  collate : relation text;
  collate_dec :: ∀ x y, Decision (collate x y);
  collate_total :: Total collate;
  collate_trans :: Transitive collate;
  (** the case folding ILIKE compares characters under *)
  lower : N → N;
  (** the input function of INTEGER: the value of a text parameter bound to
      an integer column, [None] when the text is not an integer *)
  int4_in : text → option Z;
  (** the text the driver sends for a number *)
  num_text : Z → text;
}.

(** ** Schema (initializeDatabase) *)

(** teams: id SERIAL PRIMARY KEY is the key of the table. *)
Record team := {
  team_name : text;                (* VARCHAR(255) NOT NULL *)
  team_logo : option text;         (* VARCHAR(50) *)
  team_color : option text;        (* VARCHAR(7) DEFAULT '#0ea5e9' *)
  description : option text;       (* TEXT *)
  team_user_id : Z;                (* INTEGER NOT NULL REFERENCES users *)
  team_created_at : Z;
  team_updated_at : Z;
}.

(** players: id SERIAL PRIMARY KEY is the key of the table. *)
Record player := {
  player_name : text;              (* VARCHAR(255) NOT NULL *)
  position : option text;          (* VARCHAR(100) *)
  jersey_number : option Z;        (* INTEGER *)
  team_id : option Z;              (* INTEGER REFERENCES teams ON DELETE SET NULL *)
  player_user_id : Z;              (* INTEGER NOT NULL REFERENCES users *)
  player_created_at : Z;
  player_updated_at : Z;
}.

(** The users table is only ever referenced through its key. *)
Record database := {
  users : gset Z;
  teams : gmap Z team;
  players : gmap Z player;
  teams_id_seq : Z;
  players_id_seq : Z;
}.

Global Instance team_eq_dec : EqDecision team.
Proof. solve_decision. Defined.
Global Instance player_eq_dec : EqDecision player.
Proof. solve_decision. Defined.

(** ** Queries *)

(** A computation over the database that may throw; the database it leaves
    behind is kept in both cases. *)
Definition Query (A : Type) : Type := database → outcome A * database.

Global Instance Query_ret : MRet Query := λ A a db, (Ok a, db).
Global Instance Query_bind : MBind Query := λ A B f m db,
  match m db with
  | (Ok a, db') => f a db'
  | (Throw, db') => (Throw, db')
  end.

Definition throw {A} : Query A := λ db, (Throw, db).
Definition lift {A} (o : outcome A) : Query A := λ db, (o, db).
Definition get_db : Query database := λ db, (Ok db, db).
Definition put_db (db' : database) : Query () := λ _, (Ok (), db').

(** [try { m } catch (error) { h }] *)
Definition try_catch {A} (m h : Query A) : Query A := λ db,
  match m db with
  | (Ok a, db') => (Ok a, db')
  | (Throw, db') => h db'
  end.

(** *** Binding parameters to column types *)

Definition int4_range (z : Z) : bool := (-2147483648 <=? z) && (z <=? 2147483647).

(** A parameter bound where an INTEGER is expected. [null] and [undefined]
    are sent as NULL. *)
Definition bind_int4 `{Platform} (v : jsval) : outcome (option Z) :=
  match v with
  | JUndefined | JNull => Ok None
  | JNum z => if int4_range z then Ok (Some z) else Throw
  | JStr s => match int4_in s with Some z => Ok (Some z) | None => Throw end
  | JBool _ | JOther _ => Throw
  end.

(** A parameter bound where text is expected. The store refuses text that
    holds the code point 0. *)
Definition bind_text `{Platform} (v : jsval) : outcome (option text) :=
  let sent :=
    match v with
    | JUndefined | JNull => None
    | JStr s => Some s
    | JNum z => Some (num_text z)
    | JBool b => Some (lit (if b then "true" else "false"))
    | JOther wire => Some wire
    end in
  match sent with
  | None => Ok None
  | Some s => if bool_decide (0%N ∈ s) then Throw else Ok (Some s)
  end.

(** Assignment to VARCHAR(n): text longer than [n] characters is an error
    unless the excess is all spaces, which are cut off. *)
Definition varchar (n : nat) (s : option text) : outcome (option text) :=
  match s with
  | None => Ok None
  | Some s =>
      if bool_decide (length s ≤ n)%nat then Ok (Some s)
      else if bool_decide (Forall (λ c, c = 32%N) (drop n s)) then Ok (Some (take n s))
      else Throw
  end.

(** A NOT NULL column. *)
Definition not_null {A} (v : option A) : outcome A :=
  match v with
  | Some a => Ok a
  | None => Throw
  end.

Definition outcome_bind {A B} (o : outcome A) (f : A → outcome B) : outcome B :=
  match o with
  | Ok a => f a
  | Throw => Throw
  end.

Global Instance outcome_ret : MRet outcome := λ A a, Ok a.
Global Instance outcome_mbind : MBind outcome := λ A B f o, outcome_bind o f.

(** *** Statements *)

(** SELECT ... FROM tbl WHERE cond, in the order the store scans the table *)
Definition select_where {A} (tbl : gmap Z A) (cond : Z * A → Prop)
    `{∀ r, Decision (cond r)} : list (Z * A) :=
  filter cond (map_to_list tbl).

(** The rows of a statement one after the other, up to the first that
    violates a constraint. *)
Fixpoint each_row {A B} (f : A → outcome B) (rows : list A) : outcome (list B) :=
  match rows with
  | [] => Ok []
  | r :: rows =>
      match f r with
      | Ok b => match each_row f rows with Ok bs => Ok (b :: bs) | Throw => Throw end
      | Throw => Throw
      end
  end.

(** UPDATE tbl SET ... WHERE cond: the new table and rowCount. [set] builds
    the new version of a row or fails on a constraint of the table, which
    fails the statement. *)
Definition update_where {A} (tbl : gmap Z A) (cond : Z * A → Prop)
    `{∀ r, Decision (cond r)} (set : A → outcome A) : outcome (gmap Z A * nat) :=
  let rows := select_where tbl cond in
  match each_row (λ r, match set r.2 with Ok a => Ok (r.1, a) | Throw => Throw end) rows with
  | Ok news => Ok (list_to_map news ∪ tbl, length rows)
  | Throw => Throw
  end.

(** DELETE FROM tbl WHERE cond: the new table and the deleted rows *)
Definition delete_where {A} (tbl : gmap Z A) (cond : Z * A → Prop)
    `{∀ r, Decision (cond r)} : gmap Z A * list (Z * A) :=
  (filter (λ r, ¬ cond r) tbl, select_where tbl cond).

(** *** ORDER BY *)

(** ORDER BY k1, k2: compare by [R1], and by [R2] where [R1] ties. *)
Definition lex {A} (R1 R2 : relation A) : relation A :=
  λ a b, R1 a b ∧ (R1 b a → R2 a b).

(** The comparison of a sort key [f]. *)
Definition on {A B} (f : A → B) (R : relation B) : relation A :=
  λ a b, R (f a) (f b).

(** ASC NULLS FIRST *)
Definition nulls_first {A} (R : relation A) : relation (option A) :=
  λ a b,
    match a, b with
    | None, _ => True
    | Some _, None => False
    | Some x, Some y => R x y
    end.

(** ASC, which is NULLS LAST *)
Definition nulls_last {A} (R : relation A) : relation (option A) :=
  λ a b,
    match a, b with
    | _, None => True
    | None, Some _ => False
    | Some x, Some y => R x y
    end.

Global Typeclasses Opaque lex on nulls_first nulls_last.

Global Instance lex_dec {A} (R1 R2 : relation A)
  `{∀ a b, Decision (R1 a b)} `{∀ a b, Decision (R2 a b)} a b :
  Decision (lex R1 R2 a b).
Proof. unfold lex. apply _. Defined.

Global Instance on_dec {A B} (f : A → B) (R : relation B)
  `{∀ a b, Decision (R a b)} a b : Decision (on f R a b).
Proof. unfold on. apply _. Defined.

Global Instance nulls_first_dec {A} (R : relation A)
  `{∀ a b, Decision (R a b)} a b : Decision (nulls_first R a b).
Proof. destruct a, b; simpl; apply _. Defined.

Global Instance nulls_last_dec {A} (R : relation A)
  `{∀ a b, Decision (R a b)} a b : Decision (nulls_last R a b).
Proof. destruct a, b; simpl; apply _. Defined.

(** *** Rows in and out of the tables *)

Definition set_teams (f : gmap Z team → gmap Z team) (db : database) : database :=
  {| users := users db; teams := f (teams db); players := players db;
     teams_id_seq := teams_id_seq db; players_id_seq := players_id_seq db |}.

Definition set_players (f : gmap Z player → gmap Z player) (db : database) : database :=
  {| users := users db; teams := teams db; players := f (players db);
     teams_id_seq := teams_id_seq db; players_id_seq := players_id_seq db |}.

(** The last value of the sequence behind a SERIAL column, the largest
    INTEGER. *)
Definition serial_max : Z := 2147483647.

(** The database with the sequence behind teams.id advanced. *)
Definition next_teams_id (db : database) : database :=
  {| users := users db; teams := teams db; players := players db;
     teams_id_seq := teams_id_seq db + 1; players_id_seq := players_id_seq db |}.

(** The database with the sequence behind players.id advanced. *)
Definition next_players_id (db : database) : database :=
  {| users := users db; teams := teams db; players := players db;
     teams_id_seq := teams_id_seq db; players_id_seq := players_id_seq db + 1 |}.

(** nextval of the sequence behind teams.id: past the last value it is an
    error, and the sequence stays where it is. *)
Definition nextval_teams : Query Z := λ db,
  if bool_decide (teams_id_seq db ≤ serial_max)
  then (Ok (teams_id_seq db), next_teams_id db)
  else (Throw, db).

(** nextval of the sequence behind players.id *)
Definition nextval_players : Query Z := λ db,
  if bool_decide (players_id_seq db ≤ serial_max)
  then (Ok (players_id_seq db), next_players_id db)
  else (Throw, db).

(** The constraints of a teams row: its primary key is unused and its user
    exists. *)
Definition team_row_ok (db : database) (id : Z) (t : team) : Prop :=
  teams db !! id = None ∧ team_user_id t ∈ users db.

(** A foreign key into teams(id): NULL, or the key of a row. *)
Definition team_fk_ok (db : database) (ref : option Z) : Prop :=
  match ref with
  | None => True
  | Some t => is_Some (teams db !! t)
  end.

(** The constraints of a players row: its primary key is unused, its team
    exists when it has one, and its user exists. *)
Definition player_row_ok (db : database) (id : Z) (p : player) : Prop :=
  players db !! id = None ∧ team_fk_ok db (team_id p) ∧ player_user_id p ∈ users db.

Global Instance team_fk_ok_dec db ref : Decision (team_fk_ok db ref).
Proof. destruct ref; simpl; apply _. Defined.

Definition insert_team (id : Z) (t : team) : Query (Z * team) := λ db,
  if decide (team_row_ok db id t)
  then (Ok (id, t), set_teams (insert id t) db)
  else (Throw, db).

Definition insert_player (id : Z) (p : player) : Query (Z * player) := λ db,
  if decide (player_row_ok db id p)
  then (Ok (id, p), set_players (insert id p) db)
  else (Throw, db).

Definition set_team_id (ref : option Z) (p : player) : player :=
  {| player_name := player_name p; position := position p;
     jersey_number := jersey_number p; team_id := ref;
     player_user_id := player_user_id p;
     player_created_at := player_created_at p;
     player_updated_at := player_updated_at p |}.

(** FOREIGN KEY (team_id) REFERENCES teams(id) ON DELETE SET NULL: what
    deleting the teams [gone] does to a players row. *)
Definition on_delete_set_null (gone : list Z) (p : player) : player :=
  match team_id p with
  | Some t => if decide (t ∈ gone) then set_team_id None p else p
  | None => p
  end.

(** rows[0] || null *)
Definition first_row {A} (rows : list A) : option A := head rows.

(** ** Team (src/models/Team.js) *)

(** The columns id, team_name, team_logo, team_color, description,
    created_at, updated_at that the reads of Team select. *)
Record team_info := {
  ti_id : Z;
  ti_team_name : text;
  ti_team_logo : option text;
  ti_team_color : option text;
  ti_description : option text;
  ti_created_at : Z;
  ti_updated_at : Z;
}.

Definition team_columns (r : Z * team) : team_info :=
  {| ti_id := r.1; ti_team_name := team_name r.2; ti_team_logo := team_logo r.2;
     ti_team_color := team_color r.2; ti_description := description r.2;
     ti_created_at := team_created_at r.2; ti_updated_at := team_updated_at r.2 |}.

(** The columns id, player_name, position, jersey_number, created_at,
    updated_at of a roster. *)
Record player_info := {
  pi_id : Z;
  pi_player_name : text;
  pi_position : option text;
  pi_jersey_number : option Z;
  pi_created_at : Z;
  pi_updated_at : Z;
}.

Definition player_columns (r : Z * player) : player_info :=
  {| pi_id := r.1; pi_player_name := player_name r.2; pi_position := position r.2;
     pi_jersey_number := jersey_number r.2;
     pi_created_at := player_created_at r.2; pi_updated_at := player_updated_at r.2 |}.

(** ORDER BY CASE WHEN position IS NULL THEN 1 ELSE 0 END, position ASC,
    player_name ASC *)
Definition roster_order `{Platform} : relation (Z * player) :=
  lex (on (λ r, if position r.2 is None then 1 else 0) Z.le)
      (lex (on (λ r, position r.2) (nulls_last collate))
           (on (λ r, player_name r.2) collate)).

Global Instance roster_order_dec `{Platform} a b : Decision (roster_order a b).
Proof. unfold roster_order. apply _. Defined.

Module Team.
Section Team.
Context `{Platform}.

(** INSERT INTO teams (team_name, team_logo, team_color, description,
    user_id) VALUES ($1, $2, $3, $4, $5) RETURNING * *)
Definition create (now : Z) (teamName teamLogo teamColor description : jsval)
    (userId : Z) : Query (Z * team) :=
  name ← lift (bind_text teamName ≫= varchar 255);
  logo ← lift (bind_text teamLogo ≫= varchar 50);
  color ← lift (bind_text teamColor ≫= varchar 7);
  descr ← lift (bind_text description);
  id ← nextval_teams;
  name ← lift (not_null name);
  insert_team id
    {| team_name := name; team_logo := logo; team_color := color;
       description := descr; team_user_id := userId;
       team_created_at := now; team_updated_at := now |}.

(** SELECT ... FROM teams WHERE user_id = $1 ORDER BY team_name ASC *)
Definition findAllByUserId (userId : Z) : Query (list team_info) :=
  db ← get_db;
  mret (team_columns <$>
    merge_sort (on (λ r, team_name r.2) collate)
      (select_where (teams db) (λ r, team_user_id r.2 = userId))).

(** SELECT ... FROM teams WHERE id = $1 AND user_id = $2 *)
Definition findById (id : jsval) (userId : Z) : Query (option team_info) :=
  id ← lift (bind_int4 id);
  db ← get_db;
  mret (first_row (team_columns <$>
    select_where (teams db) (λ r, id = Some r.1 ∧ team_user_id r.2 = userId))).

(** COUNT(p.id) over teams t LEFT JOIN players p ON t.id = p.team_id
    GROUP BY t.id, for the group of the team [i] *)
Definition player_count (db : database) (i : Z) : nat :=
  length (select_where (players db) (λ r, team_id r.2 = Some i)).

Definition findByIdWithPlayerCount (id : jsval) (userId : Z)
    : Query (option (team_info * nat)) :=
  id ← lift (bind_int4 id);
  db ← get_db;
  mret (first_row ((λ r, (team_columns r, player_count db r.1)) <$>
    select_where (teams db) (λ r, id = Some r.1 ∧ team_user_id r.2 = userId))).

Definition findAllWithPlayerCounts (userId : Z) : Query (list (team_info * nat)) :=
  db ← get_db;
  mret ((λ r, (team_columns r, player_count db r.1)) <$>
    merge_sort (on (λ r, team_name r.2) collate)
      (select_where (teams db) (λ r, team_user_id r.2 = userId))).

(** UPDATE teams SET team_name = $1, team_logo = $2, team_color = $3,
    description = $4, updated_at = CURRENT_TIMESTAMP
    WHERE id = $5 AND user_id = $6 *)
Definition update (now : Z) (id teamName teamLogo teamColor description : jsval)
    (userId : Z) : Query bool :=
  name ← lift (bind_text teamName ≫= varchar 255);
  logo ← lift (bind_text teamLogo ≫= varchar 50);
  color ← lift (bind_text teamColor ≫= varchar 7);
  descr ← lift (bind_text description);
  id ← lift (bind_int4 id);
  db ← get_db;
  '(tbl, rowCount) ← lift (
    update_where (teams db) (λ r, id = Some r.1 ∧ team_user_id r.2 = userId) (λ t,
      name ← not_null name;
      Ok {| team_name := name; team_logo := logo; team_color := color;
            description := descr; team_user_id := team_user_id t;
            team_created_at := team_created_at t; team_updated_at := now |}));
  put_db (set_teams (λ _, tbl) db);;
  mret (bool_decide (0 < rowCount)%nat).

(** DELETE FROM teams WHERE id = $1 AND user_id = $2, with the players
    that referenced a deleted team set to no team. *)
Definition delete (id : jsval) (userId : Z) : Query bool :=
  id ← lift (bind_int4 id);
  db ← get_db;
  let '(kept, gone) :=
    delete_where (teams db) (λ r, id = Some r.1 ∧ team_user_id r.2 = userId) in
  put_db (set_players (fmap (on_delete_set_null gone.*1)) (set_teams (λ _, kept) db));;
  mret (bool_decide (0 < length gone)%nat).

(** SELECT COUNT( * ) as count FROM teams WHERE user_id = $1 *)
Definition countByUserId (userId : Z) : Query nat :=
  db ← get_db;
  mret (length (select_where (teams db) (λ r, team_user_id r.2 = userId))).

Definition getTeamHierarchy (teamId : jsval) (userId : Z)
    : Query (option (team_info * list player_info)) :=
  team ← findById teamId userId;
  match team with
  | None => mret None
  | Some team =>
      id ← lift (bind_int4 teamId);
      db ← get_db;
      mret (Some (team, player_columns <$>
        merge_sort roster_order
          (select_where (players db)
             (λ r, is_Some id ∧ team_id r.2 = id ∧ player_user_id r.2 = userId))))
  end.
End Team.
End Team.

(** ** Player (src/models/Player.js) *)

(** *** ILIKE *)

Inductive like_token :=
  | AnyString            (* % *)
  | AnyChar              (* _ *)
  | Literal (c : N).     (* a character, or an escaped one *)

(** A LIKE pattern read with the default escape character, the backslash.
    A pattern that ends inside an escape is refused. *)
Fixpoint like_pattern (p : text) : option (list like_token) :=
  match p with
  | [] => Some []
  | c :: r =>
      if (c =? 37)%N then (AnyString ::.) <$> like_pattern r
      else if (c =? 95)%N then (AnyChar ::.) <$> like_pattern r
      else if (c =? 92)%N then
        match r with
        | [] => None
        | e :: r' => (Literal e ::.) <$> like_pattern r'
        end
      else (Literal c ::.) <$> like_pattern r
  end.

(** Does the whole of [s] match the pattern, characters compared after
    [fold]? *)
Fixpoint like_match (fold : N → N) (p : list like_token) (s : text) : bool :=
  match p with
  | [] => bool_decide (s = [])
  | AnyString :: p' =>
      (fix skip (s : text) : bool :=
         like_match fold p' s || match s with [] => false | _ :: s' => skip s' end) s
  | AnyChar :: p' =>
      match s with
      | [] => false
      | _ :: s' => like_match fold p' s'
      end
  | Literal c :: p' =>
      match s with
      | [] => false
      | c' :: s' => bool_decide (fold c = fold c') && like_match fold p' s'
      end
  end.

(** [s ILIKE p] *)
Definition ilike `{Platform} (p : list like_token) (s : text) : Prop :=
  like_match lower p s = true.

Global Instance ilike_dec `{Platform} p s : Decision (ilike p s).
Proof. unfold ilike. apply _. Defined.

(** *** Joins *)

(** A players row with the teams row joined to it. *)
Abbreviation joined := (Z * player * option (Z * team))%type.

(** players p LEFT JOIN teams t ON p.team_id = t.id *)
Definition left_join_teams (db : database) : list joined :=
  p ← map_to_list (players db);
  match select_where (teams db) (λ t, team_id p.2 = Some t.1) with
  | [] => [(p, None)]
  | ts => (λ t, (p, Some t)) <$> ts
  end.

(** players p JOIN teams t ON p.team_id = t.id *)
Definition join_teams (db : database) : list (Z * player * (Z * team)) :=
  p ← map_to_list (players db);
  (λ t, (p, t)) <$> select_where (teams db) (λ t, team_id p.2 = Some t.1).

(** [t.team_name ILIKE p] is true: a team is joined and its name matches.
    Where no team is joined the comparison is NULL. *)
Definition team_name_ilike `{Platform} (p : list like_token) (t : option (Z * team)) : Prop :=
  match t with
  | Some t => ilike p (team_name t.2)
  | None => False
  end.

Global Instance team_name_ilike_dec `{Platform} p t : Decision (team_name_ilike p t).
Proof. destruct t; simpl; apply _. Defined.

(** ORDER BY CASE WHEN p.team_id IS NULL THEN 0 ELSE 1 END,
    t.team_name ASC NULLS FIRST, p.player_name ASC *)
Definition listing_order `{Platform} : relation joined :=
  lex (on (λ r : joined, if team_id r.1.2 is None then 0 else 1) Z.le)
      (lex (on (λ r : joined, (λ t : Z * team, team_name t.2) <$> r.2) (nulls_first collate))
           (on (λ r : joined, player_name r.1.2) collate)).

Global Instance listing_order_dec `{Platform} a b : Decision (listing_order a b).
Proof. unfold listing_order. apply _. Defined.

(** The columns p.id, p.player_name, p.position, p.jersey_number, p.team_id,
    t.team_name, t.team_color, t.team_logo, p.created_at, p.updated_at. *)
Record player_listed := {
  pl_id : Z;
  pl_player_name : text;
  pl_position : option text;
  pl_jersey_number : option Z;
  pl_team_id : option Z;
  pl_team_name : option text;
  pl_team_color : option text;
  pl_team_logo : option text;
  pl_created_at : Z;
  pl_updated_at : Z;
}.

Definition listed_columns (r : joined) : player_listed :=
  {| pl_id := r.1.1; pl_player_name := player_name r.1.2;
     pl_position := position r.1.2; pl_jersey_number := jersey_number r.1.2;
     pl_team_id := team_id r.1.2;
     pl_team_name := (λ t : Z * team, team_name t.2) <$> r.2;
     pl_team_color := r.2 ≫= (λ t : Z * team, team_color t.2);
     pl_team_logo := r.2 ≫= (λ t : Z * team, team_logo t.2);
     pl_created_at := player_created_at r.1.2;
     pl_updated_at := player_updated_at r.1.2 |}.

(** The columns p.id, p.player_name, p.position, p.jersey_number, p.team_id,
    t.team_name, t.team_color, p.created_at, p.updated_at. *)
Record player_found := {
  pf_id : Z;
  pf_player_name : text;
  pf_position : option text;
  pf_jersey_number : option Z;
  pf_team_id : option Z;
  pf_team_name : text;
  pf_team_color : option text;
  pf_created_at : Z;
  pf_updated_at : Z;
}.

Definition found_columns (r : Z * player * (Z * team)) : player_found :=
  {| pf_id := r.1.1; pf_player_name := player_name r.1.2;
     pf_position := position r.1.2; pf_jersey_number := jersey_number r.1.2;
     pf_team_id := team_id r.1.2;
     pf_team_name := team_name r.2.2; pf_team_color := team_color r.2.2;
     pf_created_at := player_created_at r.1.2;
     pf_updated_at := player_updated_at r.1.2 |}.

Module Player.
Section Player.
Context `{Platform}.

(** INSERT INTO players (player_name, position, jersey_number, team_id,
    user_id) VALUES ($1, $2, $3, $4, $5) RETURNING *, with
    [teamId || null] for $4 *)
Definition create (now : Z) (playerName position jerseyNumber teamId : jsval)
    (userId : Z) : Query (Z * player) :=
  name ← lift (bind_text playerName ≫= varchar 255);
  pos ← lift (bind_text position ≫= varchar 100);
  number ← lift (bind_int4 jerseyNumber);
  ref ← lift (bind_int4 (js_or teamId JNull));
  id ← nextval_players;
  name ← lift (not_null name);
  insert_player id
    {| player_name := name; position := pos; jersey_number := number;
       team_id := ref; player_user_id := userId;
       player_created_at := now; player_updated_at := now |}.

Definition findAllByUserId (userId : Z) : Query (list player_listed) :=
  db ← get_db;
  mret (listed_columns <$>
    merge_sort listing_order
      (filter (λ r : joined, player_user_id r.1.2 = userId) (left_join_teams db))).

(** SELECT ... FROM players WHERE user_id = $1 AND team_id IS NULL
    ORDER BY player_name ASC *)
Definition findGlobalPlayers (userId : Z) : Query (list player_info) :=
  db ← get_db;
  mret (player_columns <$>
    merge_sort (on (λ r, player_name r.2) collate)
      (select_where (players db)
         (λ r, player_user_id r.2 = userId ∧ team_id r.2 = None))).

(** SELECT ... FROM players WHERE team_id = $1 AND user_id = $2 ORDER BY
    the roster order *)
Definition findAllByTeamId (teamId : jsval) (userId : Z) : Query (list player_info) :=
  ref ← lift (bind_int4 teamId);
  db ← get_db;
  mret (player_columns <$>
    merge_sort roster_order
      (select_where (players db)
         (λ r, is_Some ref ∧ team_id r.2 = ref ∧ player_user_id r.2 = userId))).

(** SELECT ... FROM players p JOIN teams t ON p.team_id = t.id
    WHERE p.id = $1 AND p.user_id = $2 *)
Definition findById (id : jsval) (userId : Z) : Query (option player_found) :=
  id ← lift (bind_int4 id);
  db ← get_db;
  mret (first_row (found_columns <$>
    filter (λ r : Z * player * (Z * team),
              id = Some r.1.1 ∧ player_user_id r.1.2 = userId)
           (join_teams db))).

(** UPDATE players SET player_name = $1, position = $2, jersey_number = $3,
    team_id = $4, updated_at = CURRENT_TIMESTAMP
    WHERE id = $5 AND user_id = $6, with [teamId || null] for $4 *)
Definition update (now : Z) (id playerName position jerseyNumber teamId : jsval)
    (userId : Z) : Query bool :=
  name ← lift (bind_text playerName ≫= varchar 255);
  pos ← lift (bind_text position ≫= varchar 100);
  number ← lift (bind_int4 jerseyNumber);
  ref ← lift (bind_int4 (js_or teamId JNull));
  id ← lift (bind_int4 id);
  db ← get_db;
  '(tbl, rowCount) ← lift (
    update_where (players db) (λ r, id = Some r.1 ∧ player_user_id r.2 = userId) (λ p,
      name ← not_null name;
      if decide (team_fk_ok db ref) then
        Ok {| player_name := name; position := pos; jersey_number := number;
              team_id := ref; player_user_id := player_user_id p;
              player_created_at := player_created_at p; player_updated_at := now |}
      else Throw));
  put_db (set_players (λ _, tbl) db);;
  mret (bool_decide (0 < rowCount)%nat).

(** UPDATE players SET team_id = $1, updated_at = CURRENT_TIMESTAMP
    WHERE id = $2 AND user_id = $3 *)
Definition set_team (now : Z) (ref : option Z) (p : player) : player :=
  {| player_name := player_name p; position := position p;
     jersey_number := jersey_number p; team_id := ref;
     player_user_id := player_user_id p;
     player_created_at := player_created_at p; player_updated_at := now |}.

Definition assignToTeam (now : Z) (playerId teamId : jsval) (userId : Z) : Query bool :=
  ref ← lift (bind_int4 teamId);
  id ← lift (bind_int4 playerId);
  db ← get_db;
  '(tbl, rowCount) ← lift (
    update_where (players db) (λ r, id = Some r.1 ∧ player_user_id r.2 = userId) (λ p,
      if decide (team_fk_ok db ref) then Ok (set_team now ref p) else Throw));
  put_db (set_players (λ _, tbl) db);;
  mret (bool_decide (0 < rowCount)%nat).

(** UPDATE players SET team_id = NULL, updated_at = CURRENT_TIMESTAMP
    WHERE id = $1 AND user_id = $2 *)
Definition unassignFromTeam (now : Z) (playerId : jsval) (userId : Z) : Query bool :=
  id ← lift (bind_int4 playerId);
  db ← get_db;
  '(tbl, rowCount) ← lift (
    update_where (players db) (λ r, id = Some r.1 ∧ player_user_id r.2 = userId) (λ p,
      Ok (set_team now None p)));
  put_db (set_players (λ _, tbl) db);;
  mret (bool_decide (0 < rowCount)%nat).

(** DELETE FROM players WHERE id = $1 AND user_id = $2 *)
Definition delete (id : jsval) (userId : Z) : Query bool :=
  id ← lift (bind_int4 id);
  db ← get_db;
  let '(kept, gone) :=
    delete_where (players db) (λ r, id = Some r.1 ∧ player_user_id r.2 = userId) in
  put_db (set_players (λ _, kept) db);;
  mret (bool_decide (0 < length gone)%nat).

Definition countByUserId (userId : Z) : Query nat :=
  db ← get_db;
  mret (length (select_where (players db) (λ r, player_user_id r.2 = userId))).

Definition countByTeamId (teamId : jsval) (userId : Z) : Query nat :=
  ref ← lift (bind_int4 teamId);
  db ← get_db;
  mret (length (select_where (players db)
    (λ r, is_Some ref ∧ team_id r.2 = ref ∧ player_user_id r.2 = userId))).

(** The parameter [`%${searchQuery}%`] *)
Definition search_pattern (searchQuery : text) : text :=
  lit "%" ++ searchQuery ++ lit "%".

(** ... WHERE p.user_id = $1 AND (p.player_name ILIKE $2 OR
    t.team_name ILIKE $2). Where no team is joined the second ILIKE is
    NULL, and the row is kept only if the first one holds. *)
Definition search (searchQuery : text) (userId : Z) : Query (list player_listed) :=
  pattern ← lift (bind_text (JStr (search_pattern searchQuery)) ≫= not_null);
  match like_pattern pattern with
  | None => throw
  | Some pat =>
      db ← get_db;
      mret (listed_columns <$>
        merge_sort listing_order
          (filter (λ r : joined,
                     player_user_id r.1.2 = userId ∧
                     (ilike pat (player_name r.1.2) ∨ team_name_ilike pat r.2))
                  (left_join_teams db)))
  end.
End Player.
End Player.

(** ** Controllers *)

(** [res.status(status).json({ success, message, count, data })]; a field
    that the controller does not send is [None]. *)
Record response (D : Type) := {
  status : Z;
  success : bool;
  message : option string;
  count : option nat;
  data : option D;
}.
Arguments status {D} _.
Arguments success {D} _.
Arguments message {D} _.
Arguments count {D} _.
Arguments data {D} _.

(** [res.status(status).json({ success: false, message })] *)
Definition failure {D} (code : Z) (msg : string) : response D :=
  {| status := code; success := false; message := Some msg; count := None; data := None |}.

(** [res.json({ success: true, count: rows.length, data: rows })] *)
Definition listing {A} (rows : list A) : response (list A) :=
  {| status := 200; success := true; message := None;
     count := Some (length rows); data := Some rows |}.

(** The fields a team controller reads from [req.body]. *)
Record team_body := {
  body_team_name : jsval;
  body_team_logo : jsval;
  body_team_color : jsval;
  body_description : jsval;
}.

(** The fields a player controller reads from [req.body]. *)
Record player_body := {
  body_player_name : jsval;
  body_position : jsval;
  body_jersey_number : jsval;
  body_team_id : jsval;
}.

(** The default logo, U+26BD. *)
Definition default_logo : text := [0x26BD%N].

Definition default_color : text := lit "#0ea5e9".

(** [v ? v.trim() : fallback] *)
Definition trim_or (v : jsval) (fallback : jsval) : outcome jsval :=
  if truthy v then s ← js_trim v; Ok (JStr s) else Ok fallback.

Module teamController.
Section teamController.
Context `{Platform}.

Definition getAllTeams (user : Z) : Query (response (list (team_info * nat))) :=
  try_catch
    (teams ← Team.findAllWithPlayerCounts user;
     mret (listing teams))
    (mret (failure 500 "Server error while fetching teams.")).

Definition getTeamById (id : text) (user : Z) : Query (response (team_info * nat)) :=
  try_catch
    (team ← Team.findByIdWithPlayerCount (JStr id) user;
     match team with
     | None => mret (failure 404 "Team not found.")
     | Some team =>
         mret {| status := 200; success := true; message := None;
                 count := None; data := Some team |}
     end)
    (mret (failure 500 "Server error while fetching team.")).

Definition getTeamHierarchy (id : text) (user : Z)
    : Query (response (team_info * list player_info)) :=
  try_catch
    (teamHierarchy ← Team.getTeamHierarchy (JStr id) user;
     match teamHierarchy with
     | None => mret (failure 404 "Team not found.")
     | Some teamHierarchy =>
         mret {| status := 200; success := true; message := None;
                 count := None; data := Some teamHierarchy |}
     end)
    (mret (failure 500 "Server error while fetching team hierarchy.")).

Definition createTeam (now : Z) (body : team_body) (user : Z)
    : Query (response (Z * team)) :=
  try_catch
    (if negb (truthy (body_team_name body))
     then mret (failure 400 "Team name is required.")
     else
       cleanTeamName ← lift (js_trim (body_team_name body));
       cleanDescription ← lift (trim_or (body_description body) (JStr []));
       cleanTeamLogo ← lift (trim_or (body_team_logo body) (JStr default_logo));
       let cleanTeamColor := js_or (body_team_color body) (JStr default_color) in
       if decide (length cleanTeamName = 0)%nat
       then mret (failure 400 "Team name cannot be empty.")
       else
         team ← Team.create now (JStr cleanTeamName) cleanTeamLogo cleanTeamColor
                            cleanDescription user;
         mret {| status := 201; success := true;
                 message := Some "Team created successfully."%string;
                 count := None; data := Some team |})
    (mret (failure 500 "Server error while creating team.")).

Definition updateTeam (now : Z) (id : text) (body : team_body) (user : Z)
    : Query (response (option team_info)) :=
  try_catch
    (if negb (truthy (body_team_name body))
     then mret (failure 400 "Team name is required.")
     else
       cleanTeamName ← lift (js_trim (body_team_name body));
       cleanDescription ← lift (trim_or (body_description body) (JStr []));
       cleanTeamLogo ← lift (trim_or (body_team_logo body) (JStr default_logo));
       let cleanTeamColor := js_or (body_team_color body) (JStr default_color) in
       if decide (length cleanTeamName = 0)%nat
       then mret (failure 400 "Team name cannot be empty.")
       else
         success ← Team.update now (JStr id) (JStr cleanTeamName) cleanTeamLogo
                               cleanTeamColor cleanDescription user;
         if negb success
         then mret (failure 404 "Team not found or update failed.")
         else
           updatedTeam ← Team.findById (JStr id) user;
           mret {| status := 200; success := true;
                   message := Some "Team updated successfully."%string;
                   count := None; data := Some updatedTeam |})
    (mret (failure 500 "Server error while updating team.")).

Definition deleteTeam (id : text) (user : Z) : Query (response ()) :=
  try_catch
    (success ← Team.delete (JStr id) user;
     if negb success
     then mret (failure 404 "Team not found or deletion failed.")
     else
       mret {| status := 200; success := true;
               message := Some "Team and all associated players deleted successfully."%string;
               count := None; data := None |})
    (mret (failure 500 "Server error while deleting team.")).
End teamController.
End teamController.

Module playerController.
Section playerController.
Context `{Platform}.

Definition getAllPlayers (user : Z) : Query (response (list player_listed)) :=
  try_catch
    (players ← Player.findAllByUserId user;
     mret (listing players))
    (mret (failure 500 "Server error while fetching players.")).

Definition getGlobalPlayers (user : Z) : Query (response (list player_info)) :=
  try_catch
    (players ← Player.findGlobalPlayers user;
     mret (listing players))
    (mret (failure 500 "Server error while fetching global players.")).

Definition getPlayerById (id : text) (user : Z) : Query (response player_found) :=
  try_catch
    (player ← Player.findById (JStr id) user;
     match player with
     | None => mret (failure 404 "Player not found.")
     | Some player =>
         mret {| status := 200; success := true; message := None;
                 count := None; data := Some player |}
     end)
    (mret (failure 500 "Server error while fetching player.")).

Definition createPlayer (now : Z) (body : player_body) (user : Z)
    : Query (response (Z * player)) :=
  try_catch
    (if negb (truthy (body_player_name body))
     then mret (failure 400 "Player name is required.")
     else
       cleanPlayerName ← lift (js_trim (body_player_name body));
       cleanPosition ← lift (trim_or (body_position body) JNull);
       let cleanJerseyNumber := js_or (body_jersey_number body) JNull in
       if decide (length cleanPlayerName = 0)%nat
       then mret (failure 400 "Player name cannot be empty.")
       else
         player ← Player.create now (JStr cleanPlayerName) cleanPosition
                                cleanJerseyNumber (js_or (body_team_id body) JNull) user;
         mret {| status := 201; success := true;
                 message := Some (if truthy (body_team_id body)
                                  then "Player created successfully."
                                  else "Global player created successfully.")%string;
                 count := None; data := Some player |})
    (mret (failure 500 "Server error while creating player.")).

Definition updatePlayer (now : Z) (id : text) (body : player_body) (user : Z)
    : Query (response (option player_found)) :=
  try_catch
    (if negb (truthy (body_player_name body))
     then mret (failure 400 "Player name is required.")
     else
       cleanPlayerName ← lift (js_trim (body_player_name body));
       cleanPosition ← lift (trim_or (body_position body) JNull);
       let cleanJerseyNumber := js_or (body_jersey_number body) JNull in
       if decide (length cleanPlayerName = 0)%nat
       then mret (failure 400 "Player name cannot be empty.")
       else
         success ← Player.update now (JStr id) (JStr cleanPlayerName) cleanPosition
                                 cleanJerseyNumber (js_or (body_team_id body) JNull) user;
         if negb success
         then mret (failure 404 "Player not found or update failed.")
         else
           updatedPlayer ← Player.findById (JStr id) user;
           mret {| status := 200; success := true;
                   message := Some "Player updated successfully."%string;
                   count := None; data := Some updatedPlayer |})
    (mret (failure 500 "Server error while updating player.")).

Definition assignPlayerToTeam (now : Z) (playerId : text) (team_id : jsval) (user : Z)
    : Query (response (option player_found)) :=
  try_catch
    (if negb (truthy team_id)
     then mret (failure 400 "Team ID is required.")
     else
       success ← Player.assignToTeam now (JStr playerId) team_id user;
       if negb success
       then mret (failure 404 "Player not found or assignment failed.")
       else
         updatedPlayer ← Player.findById (JStr playerId) user;
         mret {| status := 200; success := true;
                 message := Some "Player assigned to team successfully."%string;
                 count := None; data := Some updatedPlayer |})
    (mret (failure 500 "Server error while assigning player.")).

Definition unassignPlayerFromTeam (now : Z) (playerId : text) (user : Z)
    : Query (response ()) :=
  try_catch
    (success ← Player.unassignFromTeam now (JStr playerId) user;
     if negb success
     then mret (failure 404 "Player not found or unassignment failed.")
     else
       mret {| status := 200; success := true;
               message := Some "Player removed from team successfully."%string;
               count := None; data := None |})
    (mret (failure 500 "Server error while unassigning player.")).

Definition deletePlayer (id : text) (user : Z) : Query (response ()) :=
  try_catch
    (success ← Player.delete (JStr id) user;
     if negb success
     then mret (failure 404 "Player not found or deletion failed.")
     else
       mret {| status := 200; success := true;
               message := Some "Player deleted successfully."%string;
               count := None; data := None |})
    (mret (failure 500 "Server error while deleting player.")).

(** [!q || q.trim().length === 0] answers 400 before any query. *)
Definition searchPlayers (q : jsval) (user : Z) : Query (response (list player_listed)) :=
  try_catch
    (if negb (truthy q)
     then mret (failure 400 "Search query is required.")
     else
       trimmed ← lift (js_trim q);
       if decide (length trimmed = 0)%nat
       then mret (failure 400 "Search query is required.")
       else
         players ← Player.search trimmed user;
         mret (listing players))
    (mret (failure 500 "Server error while searching players.")).
End playerController.
End playerController.

(** ** A reference platform

    One store the repositories can run against: text compared code point by
    code point, ASCII case folding, plain decimal integer literals. The
    examples below are evaluated on it. *)

Fixpoint code_point_leb (a b : text) : bool :=
  match a, b with
  | [], _ => true
  | _ :: _, [] => false
  | x :: a', y :: b' => (x <? y)%N || ((x =? y)%N && code_point_leb a' b')
  end.

Definition ascii_lower (c : N) : N :=
  if ((65 <=? c) && (c <=? 90))%N then (c + 32)%N else c.

Fixpoint decimal_digits (acc : Z) (s : text) : option Z :=
  match s with
  | [] => Some acc
  | c :: r =>
      if ((48 <=? c) && (c <=? 57))%N
      then decimal_digits (10 * acc + (Z.of_N c - 48)) r
      else None
  end.

Definition decimal_in (s : text) : option Z :=
  z ← match s with
      | [] => None
      | c :: r =>
          if (c =? 45)%N
          then match r with [] => None | _ => Z.opp <$> decimal_digits 0 r end
          else decimal_digits 0 s
      end;
  if int4_range z then Some z else None.

Definition decimal_text (z : Z) : text := lit (pretty z).

Lemma code_point_leb_total a b : code_point_leb a b = true ∨ code_point_leb b a = true.
Proof.
  revert b. induction a as [|x a IH]; intros [|y b]; simpl; auto.
  destruct (N.ltb_spec x y), (N.ltb_spec y x), (N.eqb_spec x y), (N.eqb_spec y x);
    simpl; auto; lia.
Qed.

Lemma code_point_leb_trans a b c :
  code_point_leb a b = true → code_point_leb b c = true → code_point_leb a c = true.
Proof.
  revert b c. induction a as [|x a IH]; intros [|y b] [|z c]; simpl; auto; try done.
  destruct (N.ltb_spec x y), (N.ltb_spec y z), (N.ltb_spec x z),
    (N.eqb_spec x y), (N.eqb_spec y z), (N.eqb_spec x z);
    simpl; auto; try lia; try done.
  apply IH.
Qed.

Global Instance reference_platform : Platform := {|
  collate a b := code_point_leb a b = true;
  collate_dec a b := decide (code_point_leb a b = true);
  collate_total := code_point_leb_total;
  collate_trans := code_point_leb_trans;
  lower := ascii_lower;
  int4_in := decimal_in;
  num_text := decimal_text;
|}.

(** ** Notions the statements are written with *)

(** The row of [teams] the caller [u] reaches with the key [id]. *)
Definition owned_team (db : database) (u : Z) (id : option Z) : option (Z * team) :=
  i ← id; t ← teams db !! i;
  if decide (team_user_id t = u) then Some (i, t) else None.

Definition owned_player (db : database) (u : Z) (id : option Z) : option (Z * player) :=
  i ← id; p ← players db !! i;
  if decide (player_user_id p = u) then Some (i, p) else None.

(** The teams row joined to a players row. *)
Definition team_of (db : database) (p : player) : option (Z * team) :=
  ref ← team_id p; t ← teams db !! ref; Some (ref, t).

(** The row Player.findById answers with for the key [id]. *)
Definition found_player (db : database) (u : Z) (id : option Z) : option player_found :=
  r ← owned_player db u id; t ← team_of db r.2; Some (found_columns (r, t)).

(** The parameters $1 to $4 of Team.create and Team.update as the columns
    take them. *)
Definition team_params `{Platform} (teamName teamLogo teamColor description : jsval)
    : outcome (option text * option text * option text * option text) :=
  name ← bind_text teamName ≫= varchar 255;
  logo ← bind_text teamLogo ≫= varchar 50;
  color ← bind_text teamColor ≫= varchar 7;
  descr ← bind_text description;
  Ok (name, logo, color, descr).

(** The parameters $1 to $4 of Player.create and Player.update as the
    columns take them. *)
Definition player_params `{Platform} (playerName position jerseyNumber teamId : jsval)
    : outcome (option text * option text * option Z * option Z) :=
  name ← bind_text playerName ≫= varchar 255;
  pos ← bind_text position ≫= varchar 100;
  number ← bind_int4 jerseyNumber;
  ref ← bind_int4 (js_or teamId JNull);
  Ok (name, pos, number, ref).



(** The foreign key of players.team_id holds of every row. *)
Definition references_exist (db : database) : Prop :=
  map_Forall (λ _ p, team_fk_ok db (team_id p)) (players db).

Global Instance references_exist_dec db : Decision (references_exist db).
Proof. unfold references_exist. apply _. Defined.

(** Every player that has a team has one of its own user. *)
Definition same_owner_ref (db : database) (p : player) : Prop :=
  match team_id p with
  | Some ref =>
      match teams db !! ref with
      | Some t => team_user_id t = player_user_id p
      | None => False
      end
  | None => True
  end.

Global Instance same_owner_ref_dec db p : Decision (same_owner_ref db p).
Proof.
  unfold same_owner_ref. destruct (team_id p); [|apply _].
  destruct (teams db !! _); apply _.
Defined.

Definition same_owner (db : database) : Prop :=
  map_Forall (λ _ p, same_owner_ref db p) (players db).

Global Instance same_owner_dec db : Decision (same_owner db).
Proof. unfold same_owner. apply _. Defined.

Inductive call :=
  | TeamCreate (now : Z) (teamName teamLogo teamColor description : jsval) (userId : Z)
  | TeamUpdate (now : Z) (id teamName teamLogo teamColor description : jsval) (userId : Z)
  | TeamDelete (id : jsval) (userId : Z)
  | PlayerCreate (now : Z) (playerName position jerseyNumber teamId : jsval) (userId : Z)
  | PlayerUpdate (now : Z) (id playerName position jerseyNumber teamId : jsval) (userId : Z)
  | PlayerAssignToTeam (now : Z) (playerId teamId : jsval) (userId : Z)
  | PlayerUnassignFromTeam (now : Z) (playerId : jsval) (userId : Z)
  | PlayerDelete (id : jsval) (userId : Z).

(** The database a write leaves behind, whether it succeeds or throws. *)
Definition run `{Platform} (c : call) (db : database) : database :=
  match c with
  | TeamCreate now n l c d u => (Team.create now n l c d u db).2
  | TeamUpdate now id n l c d u => (Team.update now id n l c d u db).2
  | TeamDelete id u => (Team.delete id u db).2
  | PlayerCreate now n ps j tid u => (Player.create now n ps j tid u db).2
  | PlayerUpdate now id n ps j tid u => (Player.update now id n ps j tid u db).2
  | PlayerAssignToTeam now id tid u => (Player.assignToTeam now id tid u db).2
  | PlayerUnassignFromTeam now id u => (Player.unassignFromTeam now id u db).2
  | PlayerDelete id u => (Player.delete id u db).2
  end.

(** The team id a write stores in players.team_id, as it is bound, and the
    caller. *)
Definition team_argument (c : call) : option (jsval * Z) :=
  match c with
  | PlayerCreate _ _ _ _ teamId u => Some (js_or teamId JNull, u)
  | PlayerUpdate _ _ _ _ _ teamId u => Some (js_or teamId JNull, u)
  | PlayerAssignToTeam _ _ teamId u => Some (teamId, u)
  | _ => None
  end.

(** The caller of the write names no team but its own. *)
Definition names_own_team `{Platform} (db : database) (c : call) : Prop :=
  ∀ v u ref, team_argument c = Some (v, u) → bind_int4 v = Ok (Some ref) →
    ∃ t, teams db !! ref = Some t ∧ team_user_id t = u.

(** What a write does to the two tables. *)
Inductive effect (Q : player → Prop) (db db' : database) : Prop :=
  | NoRow : teams db' = teams db → players db' = players db → effect Q db db'
  | TeamInserted id t :
      teams db !! id = None → teams db' = <[id:=t]> (teams db) →
      players db' = players db → effect Q db db'
  | TeamUpdated id t t' :
      teams db !! id = Some t → team_user_id t' = team_user_id t →
      teams db' = <[id:=t']> (teams db) → players db' = players db → effect Q db db'
  | TeamDeleted id :
      teams db' = delete id (teams db) →
      players db' = on_delete_set_null [id] <$> players db → effect Q db db'
  | PlayerInserted id p :
      players db !! id = None → team_fk_ok db (team_id p) → Q p →
      teams db' = teams db → players db' = <[id:=p]> (players db) → effect Q db db'
  | PlayerUpdated id p p' :
      players db !! id = Some p → player_user_id p' = player_user_id p →
      team_fk_ok db (team_id p') → Q p' →
      teams db' = teams db → players db' = <[id:=p']> (players db) → effect Q db db'
  | PlayerDeleted id :
      teams db' = teams db → players db' = delete id (players db) → effect Q db db'.

(** The listing order, read on the rows the listing answers with. *)
Definition listed_order `{Platform} : relation player_listed :=
  lex (on (λ r, if pl_team_id r is None then 0 else 1) Z.le)
      (lex (on pl_team_name (nulls_first collate))
           (on pl_player_name collate)).

(** The rows of the caller's players, each with its team joined, that
    satisfy [P]: the rows a listing sorts. *)
Definition joined_rows (db : database) (P : joined → Prop) `{∀ r, Decision (P r)}
    : list joined :=
  (λ r, (r, team_of db r.2)) <$>
    select_where (players db) (λ r, P (r, team_of db r.2)).

(** What [listed_order] says of two rows of a listing, the first before
    the second. *)
Definition in_listing_order `{Platform} (a b : player_listed) : Prop :=
  (pl_team_id b = None → pl_team_id a = None) ∧
  (pl_team_id a = None → pl_team_id b = None →
     pl_team_name a = None ∧ pl_team_name b = None →
     collate (pl_player_name a) (pl_player_name b)) ∧
  (∀ x y, pl_team_id a ≠ None → pl_team_id b ≠ None →
     pl_team_name a = Some x → pl_team_name b = Some y →
     collate x y ∧ (collate y x → collate (pl_player_name a) (pl_player_name b))).

(** [s] contains [q] as a substring, characters compared after [fold]. *)
Definition contains_folded (fold : N → N) (q s : text) : Prop :=
  ∃ pre mid post, s = pre ++ mid ++ post ∧ fold <$> mid = fold <$> q.

Fixpoint starts_with_folded (fold : N → N) (q s : text) : bool :=
  match q, s with
  | [], _ => true
  | _ :: _, [] => false
  | c :: q', c' :: s' => bool_decide (fold c = fold c') && starts_with_folded fold q' s'
  end.

Fixpoint contains_foldedb (fold : N → N) (q s : text) : bool :=
  starts_with_folded fold q s ||
  match s with
  | [] => false
  | _ :: s' => contains_foldedb fold q s'
  end.

(** The characters LIKE reads as wildcards or as the escape, and the code
    point 0, which no text parameter may hold. *)
Definition special (c : N) : Prop := c = 37%N ∨ c = 95%N ∨ c = 92%N ∨ c = 0%N.

Global Instance special_dec c : Decision (special c).
Proof. unfold special. apply _. Defined.

(** A string, or a value the controllers read as missing. *)
Definition text_or_missing (v : jsval) : Prop :=
  truthy v = false ∨ ∃ s, v = JStr s.

(** Empty after trimming: missing, or a string of white space only. *)
Definition blank (v : jsval) : Prop :=
  truthy v = false ∨ ∃ s, v = JStr s ∧ trim s = [].

Definition example_player (name : string) (ref : option Z) (user : Z) : player :=
  {| player_name := lit name; position := None; jersey_number := None; team_id := ref;
     player_user_id := user; player_created_at := 0; player_updated_at := 0 |}.

Definition example_team (name : string) (user : Z) : team :=
  {| team_name := lit name; team_logo := Some default_logo;
     team_color := Some default_color; description := Some [];
     team_user_id := user; team_created_at := 0; team_updated_at := 0 |}.

(** Two users; user 1 has the team Lions (10) with Amy on it, and the global
    players Zed and Bob; user 2 has nothing. *)
Definition example_db : database :=
  {| users := {[ 1; 2 ]};
     teams := {[ 10 := example_team "Lions" 1 ]};
     players := {[ 1 := example_player "Zed" None 1;
                   2 := example_player "Amy" (Some 10) 1;
                   3 := example_player "Bob" None 1 ]};
     teams_id_seq := 11; players_id_seq := 4 |}.

(** User 2 creates a player on the team of user 1. *)
Definition cross_user_create : call :=
  PlayerCreate 5 (JStr (lit "Eve")) JNull JNull (JNum 10) 2.

(** A player of number 0 on team 0, as a request body. *)
Definition zero_body : player_body :=
  {| body_player_name := JStr (lit "Kay"); body_position := JNull;
     body_jersey_number := JNum 0; body_team_id := JNum 0 |}.

(** A name of white space only, and a name alone. *)
Definition blank_team_body : team_body :=
  {| body_team_name := JStr (lit "   "); body_team_logo := JUndefined;
     body_team_color := JUndefined; body_description := JUndefined |}.

Definition tigers_body : team_body :=
  {| body_team_name := JStr (lit " Tigers "); body_team_logo := JUndefined;
     body_team_color := JStr []; body_description := JNull |}.

Definition blank_player_body : player_body :=
  {| body_player_name := JStr (lit "   "); body_position := JUndefined;
     body_jersey_number := JUndefined; body_team_id := JUndefined |}.

(** A name of white space only, with a number where a text is expected. *)
Definition numbered_team_body : team_body :=
  {| body_team_name := JStr (lit "   "); body_team_logo := JUndefined;
     body_team_color := JUndefined; body_description := JNum 5 |}.

Definition numbered_player_body : player_body :=
  {| body_player_name := JStr (lit "   "); body_position := JNum 5;
     body_jersey_number := JUndefined; body_team_id := JUndefined |}.


(** Amy is taken off her team by an update without a team id. *)
Definition amy_global_body : player_body :=
  {| body_player_name := JStr (lit "Amy"); body_position := JUndefined;
     body_jersey_number := JUndefined; body_team_id := JNull |}.

(** ** More notions the statements are written with *)

(** The order of a team listing, read on the rows it answers with. *)
Definition team_listed_order `{Platform} : relation team_info :=
  on ti_team_name collate.

(** The roster order, read on the rows a roster answers with. *)
Definition roster_listed_order `{Platform} : relation player_info :=
  lex (on (λ r, if pi_position r is None then 1 else 0) Z.le)
      (lex (on pi_position (nulls_last collate))
           (on pi_player_name collate)).

(** What [roster_listed_order] says of two rows of a roster, the first
    before the second. *)
Definition in_roster_order `{Platform} (a b : player_info) : Prop :=
  (pi_position a = None → pi_position b = None) ∧
  (pi_position a = None → pi_position b = None →
     collate (pi_player_name a) (pi_player_name b)) ∧
  (∀ x y, pi_position a = Some x → pi_position b = Some y →
     collate x y ∧ (collate y x → collate (pi_player_name a) (pi_player_name b))).

(** The user a write is made for, [req.user.id]. *)
Definition caller (c : call) : Z :=
  match c with
  | TeamCreate _ _ _ _ _ u | TeamUpdate _ _ _ _ _ _ u | TeamDelete _ u
  | PlayerCreate _ _ _ _ _ u | PlayerUpdate _ _ _ _ _ _ u
  | PlayerAssignToTeam _ _ _ u | PlayerUnassignFromTeam _ _ u | PlayerDelete _ u => u
  end.

(** The rows a write made for [u] changes: none, or one row of [u], and
    with a deleted team the team ids that pointed to it. *)
Inductive row_change (u : Z) (db db' : database) : Prop :=
  | Unchanged : teams db' = teams db → players db' = players db → row_change u db db'
  | TeamAdded id t :
      teams db !! id = None → team_user_id t = u → id = teams_id_seq db →
      teams_id_seq db' = teams_id_seq db + 1 →
      teams db' = <[id:=t]> (teams db) → players db' = players db → row_change u db db'
  | TeamChanged id t t' :
      teams db !! id = Some t → team_user_id t = u →
      team_user_id t' = u → team_created_at t' = team_created_at t →
      teams db' = <[id:=t']> (teams db) → players db' = players db → row_change u db db'
  | TeamRemoved id t :
      teams db !! id = Some t → team_user_id t = u →
      teams db' = delete id (teams db) →
      players db' = on_delete_set_null [id] <$> players db → row_change u db db'
  | PlayerAdded id p :
      players db !! id = None → player_user_id p = u → id = players_id_seq db →
      players_id_seq db' = players_id_seq db + 1 →
      teams db' = teams db → players db' = <[id:=p]> (players db) → row_change u db db'
  | PlayerChanged id p p' :
      players db !! id = Some p → player_user_id p = u →
      player_user_id p' = u → player_created_at p' = player_created_at p →
      teams db' = teams db → players db' = <[id:=p']> (players db) → row_change u db db'
  | PlayerRemoved id p :
      players db !! id = Some p → player_user_id p = u →
      teams db' = teams db → players db' = delete id (players db) → row_change u db db'.

(** Every id in use was handed out by its sequence. *)
Definition ids_below_sequences (db : database) : Prop :=
  map_Forall (λ i _, i < teams_id_seq db) (teams db) ∧
  map_Forall (λ i _, i < players_id_seq db) (players db).

Global Instance ids_below_sequences_dec db : Decision (ids_below_sequences db).
Proof. unfold ids_below_sequences. apply _. Defined.

(** Every stored name is what [trim] leaves of a string, and is not
    empty. *)
Definition names_trimmed (db : database) : Prop :=
  map_Forall (λ _ t, team_name t ≠ [] ∧ trim (team_name t) = team_name t) (teams db) ∧
  map_Forall (λ _ p, player_name p ≠ [] ∧ trim (player_name p) = player_name p)
             (players db).

Global Instance names_trimmed_dec db : Decision (names_trimmed db).
Proof. unfold names_trimmed. apply _. Defined.

(** The name a write stores, when it stores one. *)
Definition name_argument (c : call) : option jsval :=
  match c with
  | TeamCreate _ n _ _ _ _ | TeamUpdate _ _ n _ _ _ _
  | PlayerCreate _ n _ _ _ _ | PlayerUpdate _ _ n _ _ _ _ => Some n
  | _ => None
  end.

(** The write is given a name as the controllers give it: a string that
    was trimmed and is not empty. *)
Definition trimmed_name (c : call) : Prop :=
  ∀ n, name_argument c = Some n → ∃ s, n = JStr (trim s) ∧ trim s ≠ [].

(** Each writing controller leaves the database as it was, or as one
    write of the repositories leaves it, made for the caller and, where
    it stores a name, with the name trimmed and not empty. *)
Definition one_write `{Platform} (user : Z) (db db' : database) : Prop :=
  db' = db ∨ ∃ c, caller c = user ∧ trimmed_name c ∧ db' = run c db.

(** The requests the routers hand to a writing controller: POST /, PUT
    /:id and DELETE /:id of /api/teams and of /api/players, and PUT
    /:id/assign and PUT /:id/unassign of /api/players. *)
Inductive request :=
  | PostTeam (now : Z) (body : team_body)
  | PutTeam (now : Z) (id : text) (body : team_body)
  | DeleteTeam (id : text)
  | PostPlayer (now : Z) (body : player_body)
  | PutPlayer (now : Z) (id : text) (body : player_body)
  | PutPlayerAssign (now : Z) (id : text) (team_id : jsval)
  | PutPlayerUnassign (now : Z) (id : text)
  | DeletePlayer (id : text).

(** The database a request of [user] leaves behind. *)
Definition served `{Platform} (r : request) (user : Z) (db : database) : database :=
  match r with
  | PostTeam now body => (teamController.createTeam now body user db).2
  | PutTeam now id body => (teamController.updateTeam now id body user db).2
  | DeleteTeam id => (teamController.deleteTeam id user db).2
  | PostPlayer now body => (playerController.createPlayer now body user db).2
  | PutPlayer now id body => (playerController.updatePlayer now id body user db).2
  | PutPlayerAssign now id team_id =>
      (playerController.assignPlayerToTeam now id team_id user db).2
  | PutPlayerUnassign now id =>
      (playerController.unassignPlayerFromTeam now id user db).2
  | DeletePlayer id => (playerController.deletePlayer id user db).2
  end.

(** ** Users and authentication *)

(** users: id SERIAL PRIMARY KEY is the key of the table; username
    VARCHAR(255) UNIQUE NOT NULL, password_hash VARCHAR(255) NOT NULL. *)
Record user := {
  user_username : text;
  user_password_hash : text;
  user_created_at : Z;
}.

(** The users table and the sequence behind users.id. *)
Record accounts := {
  user_rows : gmap Z user;
  users_id_seq : Z;
}.

(** The payload [{ id, username }] of a token. *)
Record claims := {
  claim_id : Z;
  claim_username : text;
}.

(** What bcryptjs and jsonwebtoken do for the server, under its secret. *)
Class Credentials := {
  (** [bcrypt.hash(password, 10)], with the salt it draws *)
  bcrypt_hash : text → text → text;
  (** [bcrypt.compare(plainPassword, hashedPassword)] *)
  bcrypt_compare : text → text → bool;
  (** [jwt.sign(payload, JWT_SECRET, { expiresIn: '24h' })] at a time *)
  jwt_sign : Z → claims → text;
  (** [jwt.verify(token, JWT_SECRET)] at a time, [None] where it throws *)
  jwt_verify : Z → text → option claims;
}.

(** *** User (src/models/User.js) *)

Module User.
Section User.
Context `{Platform} `{Credentials}.

(** INSERT INTO users (username, password_hash) VALUES ($1, $2)
    RETURNING id, username, after hashing the password; bcrypt refuses a
    password that is not a string. *)
Definition create (now : Z) (salt : text) (username password : jsval) (acc : accounts)
    : outcome (Z * text) * accounts :=
  match password with
  | JStr plain =>
      match bind_text username ≫= varchar 255,
            bind_text (JStr (bcrypt_hash salt plain)) ≫= varchar 255 with
      | Ok name, Ok hash =>
          let id := users_id_seq acc in
          let acc' := {| user_rows := user_rows acc; users_id_seq := id + 1 |} in
          match name, hash with
          | Some name, Some hash =>
              if decide (user_rows acc !! id = None ∧
                         select_where (user_rows acc) (λ r, user_username r.2 = name) = [])
              then (Ok (id, name),
                    {| user_rows :=
                         <[id:={| user_username := name; user_password_hash := hash;
                                  user_created_at := now |}]> (user_rows acc);
                       users_id_seq := id + 1 |})
              else (Throw, acc')
          | _, _ => (Throw, acc')
          end
      | _, _ => (Throw, acc)
      end
  | _ => (Throw, acc)
  end.

(** SELECT * FROM users WHERE username = $1 *)
Definition findByUsername (username : jsval) (acc : accounts) : outcome (option (Z * user)) :=
  name ← bind_text username;
  Ok (first_row (select_where (user_rows acc) (λ r, name = Some (user_username r.2)))).

(** SELECT id, username, created_at FROM users WHERE id = $1 *)
Definition findById (id : jsval) (acc : accounts) : outcome (option (Z * text * Z)) :=
  id ← bind_int4 id;
  Ok (first_row ((λ r : Z * user, (r.1, user_username r.2, user_created_at r.2)) <$>
        select_where (user_rows acc) (λ r, id = Some r.1))).

Definition verifyPassword (plainPassword : jsval) (hashedPassword : text) : outcome bool :=
  match plainPassword with
  | JStr plain => Ok (bcrypt_compare plain hashedPassword)
  | _ => Throw
  end.

(** SELECT COUNT( * ) as count FROM users *)
Definition count (acc : accounts) : nat := size (user_rows acc).
End User.
End User.

(** *** authenticateToken (src/middleware/authMiddleware.js) *)

(** [s.split(sep)] for a separator of one character *)
Fixpoint split (sep : N) (s : text) : list text :=
  match s with
  | [] => [[]]
  | c :: r =>
      if (c =? sep)%N then [] :: split sep r
      else
        match split sep r with
        | w :: ws => (c :: w) :: ws
        | [] => [[c]]
        end
  end.

(** What the middleware does with a request: it hands it on with
    [req.user] set, or answers it. *)
Inductive authenticated :=
  | Next (user : claims)
  | Denied (code : Z) (msg : string).

(** [authHeader && authHeader.split(' ')[1]]: undefined without a header
    and without a second word, the empty string for an empty header. *)
Definition bearer_token (authHeader : option text) : option text :=
  match authHeader with
  | None => None
  | Some [] => Some []
  | Some h => split 32 h !! 1%nat
  end.

Definition authenticateToken `{Credentials} (now : Z) (authHeader : option text)
    : authenticated :=
  match bearer_token authHeader with
  | None | Some [] => Denied 401 "Access denied. No token provided."
  | Some token =>
      match jwt_verify now token with
      | Some decoded =>
          Next {| claim_id := claim_id decoded; claim_username := claim_username decoded |}
      | None => Denied 403 "Invalid or expired token."
      end
  end.

(** *** authController *)

(** [res.status(status).json({ success, message, token, user })] *)
Record auth_response := {
  auth_status : Z;
  auth_success : bool;
  auth_message : option string;
  auth_token : option text;
  auth_user : option (Z * text);
}.

Definition refusal (code : Z) (msg : string) : auth_response :=
  {| auth_status := code; auth_success := false; auth_message := Some msg;
     auth_token := None; auth_user := None |}.

Module authController.
Section authController.
Context `{Platform} `{Credentials}.

Definition login (now : Z) (username password : jsval) (acc : accounts) : auth_response :=
  let answer : outcome auth_response :=
    if negb (truthy username) || negb (truthy password)
    then Ok (refusal 400 "Username and password are required.")
    else
      user ← User.findByUsername username acc;
      match user with
      | None => Ok (refusal 401 "Invalid username or password.")
      | Some (id, user) =>
          isPasswordValid ← User.verifyPassword password (user_password_hash user);
          if negb isPasswordValid
          then Ok (refusal 401 "Invalid username or password.")
          else
            let token :=
              jwt_sign now {| claim_id := id; claim_username := user_username user |} in
            Ok {| auth_status := 200; auth_success := true;
                  auth_message := Some "Login successful."%string;
                  auth_token := Some token;
                  auth_user := Some (id, user_username user) |}
      end in
  match answer with
  | Ok r => r
  | Throw => refusal 500 "Server error during login."
  end.

(** The handler behind [authenticateToken]: [req.user] is what the
    middleware set. *)
Definition verifyToken (req_user : claims) (acc : accounts) : auth_response :=
  match User.findById (JNum (claim_id req_user)) acc with
  | Ok None => refusal 404 "User not found."
  | Ok (Some (id, username, _)) =>
      {| auth_status := 200; auth_success := true; auth_message := None;
         auth_token := None; auth_user := Some (id, username) |}
  | Throw => refusal 500 "Server error during verification."
  end.

Definition logout (req_user : claims) : auth_response :=
  {| auth_status := 200; auth_success := true;
     auth_message := Some "Logout successful."%string;
     auth_token := None; auth_user := None |}.
End authController.
End authController.

(** A route behind [authenticateToken]: GET /api/auth/verify,
    POST /api/auth/logout, and every route of /api/teams and
    /api/players. *)
Definition behind_authenticateToken `{Credentials} {A} (now : Z) (authHeader : option text)
    (handler : claims → A) (denied : Z → string → A) : A :=
  match authenticateToken now authHeader with
  | Next user => handler user
  | Denied code msg => denied code msg
  end.

(** *** initializeApp (src/server.js) *)



(** *** Reference credentials

    Hashes and tokens the examples can be evaluated with; they stand for
    bcrypt and JWT in nothing but their shape. *)

Definition reference_hash (salt plain : text) : text := salt ++ lit "$" ++ plain.

Definition reference_compare (plain hashed : text) : bool :=
  bool_decide (drop (length hashed - length plain - 1) hashed = lit "$" ++ plain).

Definition reference_sign (now : Z) (c : claims) : text :=
  decimal_text (now + 86400) ++ lit "." ++ decimal_text (claim_id c) ++ lit "." ++
  claim_username c.

Definition reference_verify (now : Z) (token : text) : option claims :=
  match split 46 token with
  | exp :: id :: name :: rest =>
      exp ← decimal_in exp;
      id ← decimal_in id;
      if bool_decide (now < exp)
      then Some {| claim_id := id;
                   claim_username := name ++ concat ((λ w, 46%N :: w) <$> rest) |}
      else None
  | _ => None
  end.

Global Instance reference_credentials : Credentials := {|
  bcrypt_hash := reference_hash;
  bcrypt_compare := reference_compare;
  jwt_sign := reference_sign;
  jwt_verify := reference_verify;
|}.

(** One user, admin, with the password admin123. *)
Definition example_accounts : accounts :=
  {| user_rows :=
       {[ 1 := {| user_username := lit "admin";
                  user_password_hash := reference_hash (lit "salt") (lit "admin123");
                  user_created_at := 0 |} ]};
     users_id_seq := 2 |}.

(** UNIQUE (username) *)
Definition unique_usernames (acc : accounts) : Prop :=
  ∀ i j u v, user_rows acc !! i = Some u → user_rows acc !! j = Some v →
    user_username u = user_username v → i = j.


(** * Properties *)

Arguments select_where : simpl never.
Arguments update_where : simpl never.
Arguments delete_where : simpl never.

Lemma filter_none {A} (P : A → Prop) `{∀ x, Decision (P x)} (l : list A) :
  (∀ y, y ∈ l → ¬ P y) → filter P l = [].
Proof.
  induction l as [|a l IH]; intros Hn; [done|].
  rewrite filter_cons_False by (apply Hn; left).
  apply IH. intros y Hy. apply Hn. by right.
Qed.

Lemma filter_unique {A} (P : A → Prop) `{∀ x, Decision (P x)} (l : list A) x :
  NoDup l → x ∈ l → P x → (∀ y, y ∈ l → P y → y = x) → filter P l = [x].
Proof.
  induction l as [|a l IH]; intros Hnd Hin HP Huniq.
  - by apply elem_of_nil in Hin.
  - apply NoDup_cons in Hnd as [Ha Hnd].
    apply elem_of_cons in Hin as [->|Hin].
    + rewrite filter_cons_True by done. f_equal.
      apply filter_none. intros y Hy HPy.
      assert (y = a) as -> by (apply Huniq; [by right|done]). done.
    + assert (¬ P a) as Hna.
      { intros HPa. assert (a = x) as -> by (apply Huniq; [left|done]). done. }
      rewrite filter_cons_False by done.
      apply IH; auto. intros y Hy. apply Huniq. by right.
Qed.

Section select.
Context {A : Type}.
Implicit Types (tbl : gmap Z A) (k : option Z).

Lemma select_where_elem tbl (cond : Z * A → Prop) `{∀ r, Decision (cond r)} r :
  r ∈ select_where tbl cond ↔ tbl !! r.1 = Some r.2 ∧ cond r.
Proof.
  unfold select_where. rewrite list_elem_of_filter.
  destruct r as [i a]. rewrite elem_of_map_to_list. simpl. tauto.
Qed.

Lemma select_where_key tbl k (P : Z * A → Prop)
    `{Hdec : ∀ r, Decision (k = Some r.1 ∧ P r)} :
  select_where tbl (λ r, k = Some r.1 ∧ P r) =
  match k with
  | Some i =>
      match tbl !! i with
      | Some a => if Hdec (i, a) then [(i, a)] else []
      | None => []
      end
  | None => []
  end.
Proof.
  unfold select_where. destruct k as [i|].
  - destruct (tbl !! i) as [a|] eqn:Hi.
    + destruct (Hdec (i, a)) as [HP|HP].
      * apply filter_unique; [apply NoDup_map_to_list|by apply elem_of_map_to_list|done|].
        intros [j b] Hin [[= <-] _]. apply elem_of_map_to_list in Hin.
        simpl in *. congruence.
      * apply filter_none. intros [j b] Hin [[= <-] HPb].
        apply elem_of_map_to_list in Hin. simpl in *.
        apply HP. split; [done|]. congruence.
    + apply filter_none. intros [j b] Hin [[= <-] _].
      apply elem_of_map_to_list in Hin. simpl in *. congruence.
  - apply filter_none. by intros ? ? [? ?].
Qed.

(** A WHERE on the primary key and on more that the row at that key does not
    satisfy selects nothing. *)
Lemma select_where_miss tbl k (P : Z * A → Prop)
    `{Hdec : ∀ r, Decision (k = Some r.1 ∧ P r)} :
  (∀ i a, k = Some i → tbl !! i = Some a → ¬ P (i, a)) →
  select_where tbl (λ r, k = Some r.1 ∧ P r) = [].
Proof.
  intros Hmiss. apply filter_none. intros [i a] Hin [Hk HP].
  apply elem_of_map_to_list in Hin. by apply (Hmiss i a).
Qed.

Lemma select_where_hit tbl i a (P : Z * A → Prop)
    `{Hdec : ∀ r, Decision (Some i = Some r.1 ∧ P r)} :
  tbl !! i = Some a → P (i, a) →
  select_where tbl (λ r, Some i = Some r.1 ∧ P r) = [(i, a)].
Proof.
  intros Hi HP. rewrite select_where_key, Hi. by destruct (Hdec (i, a)) as [?|[]].
Qed.
End select.

Section tables.
Context {A : Type}.
Implicit Types (tbl : gmap Z A).

Lemma select_where_ref tbl (k : option Z) `{Hdec : ∀ r : Z * A, Decision (k = Some r.1)} :
  select_where tbl (λ r, k = Some r.1) =
  match k with
  | Some i => match tbl !! i with Some a => [(i, a)] | None => [] end
  | None => []
  end.
Proof.
  unfold select_where. destruct k as [i|].
  - destruct (tbl !! i) as [a|] eqn:Hi.
    + apply filter_unique; [apply NoDup_map_to_list|by apply elem_of_map_to_list|done|].
      intros [j b] Hin [= <-]. apply elem_of_map_to_list in Hin. congruence.
    + apply filter_none. intros [j b] Hin [= <-].
      apply elem_of_map_to_list in Hin. congruence.
  - apply filter_none. by intros ? ? ?.
Qed.

Lemma update_where_miss tbl (cond : Z * A → Prop) `{∀ r, Decision (cond r)} set :
  select_where tbl cond = [] → update_where tbl cond set = Ok (tbl, 0%nat).
Proof.
  intros Hsel. unfold update_where. rewrite Hsel. simpl.
  by rewrite (left_id_L ∅ (∪)).
Qed.

Lemma update_where_one tbl (cond : Z * A → Prop) `{∀ r, Decision (cond r)} set i a :
  select_where tbl cond = [(i, a)] →
  update_where tbl cond set =
  match set a with
  | Ok a' => Ok (<[i:=a']> tbl, 1%nat)
  | Throw => Throw
  end.
Proof.
  intros Hsel. unfold update_where. rewrite Hsel. simpl.
  destruct (set a) as [a'|]; [|done]. simpl.
  by rewrite <-insert_union_l, (left_id_L ∅ (∪)).
Qed.

Lemma delete_where_miss tbl (cond : Z * A → Prop) `{∀ r, Decision (cond r)} :
  select_where tbl cond = [] → delete_where tbl cond = (tbl, []).
Proof.
  intros Hsel. unfold delete_where. rewrite Hsel. f_equal.
  apply map_filter_id. intros i a Hi Hc.
  assert ((i, a) ∈ select_where tbl cond) as Hin by (by apply select_where_elem).
  rewrite Hsel in Hin. by apply elem_of_nil in Hin.
Qed.

Lemma delete_where_one tbl (cond : Z * A → Prop) `{∀ r, Decision (cond r)} i a :
  select_where tbl cond = [(i, a)] → delete_where tbl cond = (delete i tbl, [(i, a)]).
Proof.
  intros Hsel. unfold delete_where. rewrite Hsel. f_equal.
  assert (∀ r, tbl !! r.1 = Some r.2 ∧ cond r ↔ r = (i, a)) as Hrow.
  { intros r. rewrite <-select_where_elem, Hsel. apply list_elem_of_singleton. }
  apply map_eq. intros j. apply option_eq. intros b.
  rewrite map_lookup_filter_Some, lookup_delete_Some. simpl. split.
  - intros [Hj Hn]. split; [|done]. intros <-. apply Hn.
    destruct (Hrow (i, a)) as [_ [Hia Hc]]; [done|]. simpl in *. congruence.
  - intros [Hne Hj]. split; [done|]. intros Hc.
    destruct (Hrow (j, b)) as [Heq _]. specialize (Heq (conj Hj Hc)). congruence.
Qed.
End tables.

Lemma database_eq (a b : database) :
  users a = users b → teams a = teams b → players a = players b →
  teams_id_seq a = teams_id_seq b → players_id_seq a = players_id_seq b → a = b.
Proof. destruct a, b; simpl; congruence. Qed.

Lemma set_teams_same db : set_teams (λ _, teams db) db = db.
Proof. by apply database_eq. Qed.

Lemma set_players_same db : set_players (λ _, players db) db = db.
Proof. by apply database_eq. Qed.

Lemma on_delete_set_null_nil p : on_delete_set_null [] p = p.
Proof.
  unfold on_delete_set_null. destruct (team_id p); [|done].
  rewrite decide_False; [done|]. apply not_elem_of_nil.
Qed.

(** The equations of the monads. *)
Lemma bind_lift {A B} (o : outcome A) (f : A → Query B) db :
  (lift o ≫= f) db = match o with Ok a => f a db | Throw => (Throw, db) end.
Proof. by destruct o. Qed.

Lemma bind_get_db {B} (f : database → Query B) db : (get_db ≫= f) db = f db db.
Proof. done. Qed.

Lemma bind_put_db {B} (f : () → Query B) db' db : (put_db db' ≫= f) db = f () db'.
Proof. done. Qed.

Lemma bind_Ok {A B} (a : A) (f : A → outcome B) : Ok a ≫= f = f a.
Proof. done. Qed.

Lemma bind_Throw {A B} (f : A → outcome B) : Throw ≫= f = Throw.
Proof. done. Qed.

Lemma mret_run {A} (a : A) (db : database) : (mret a : Query A) db = (Ok a, db).
Proof. done. Qed.

Ltac run_query :=
  repeat first
    [ rewrite bind_lift | rewrite bind_get_db | rewrite bind_put_db
    | rewrite bind_Ok | rewrite bind_Throw | rewrite mret_run | progress cbv beta iota ].

(** Case analysis on the next bound parameter. *)
Tactic Notation "bind_case" constr(o) "as" ident(x) :=
  destruct o as [x|]; run_query; [|done].

Definition owns_team (db : database) (u id : Z) : Prop :=
  ∃ t, teams db !! id = Some t ∧ team_user_id t = u.

Lemma select_owned_team db u id
    `{Hdec : ∀ r : Z * team, Decision (id = Some r.1 ∧ team_user_id r.2 = u)} :
  select_where (teams db) (λ r, id = Some r.1 ∧ team_user_id r.2 = u) =
  option_list (owned_team db u id).
Proof.
  rewrite select_where_key. unfold owned_team. destruct id as [i|]; [|done]. simpl.
  destruct (teams db !! i) as [t|]; [|done]. simpl.
  destruct (Hdec (i, t)) as [[_ Hu]|Hn], (decide (team_user_id t = u)); simpl in *;
    try done. destruct Hn; done.
Qed.

Lemma select_owned_player db u id
    `{Hdec : ∀ r : Z * player, Decision (id = Some r.1 ∧ player_user_id r.2 = u)} :
  select_where (players db) (λ r, id = Some r.1 ∧ player_user_id r.2 = u) =
  option_list (owned_player db u id).
Proof.
  rewrite select_where_key. unfold owned_player. destruct id as [i|]; [|done]. simpl.
  destruct (players db !! i) as [t|]; [|done]. simpl.
  destruct (Hdec (i, t)) as [[_ Hu]|Hn], (decide (player_user_id t = u)); simpl in *;
    try done. destruct Hn; done.
Qed.

Lemma filter_fmap_pair {A B} (P : A → Prop) `{∀ a, Decision (P a)} (a : A) (l : list B) :
  filter (λ r : A * B, P r.1) ((λ b, (a, b)) <$> l) =
  if decide (P a) then (λ b, (a, b)) <$> l else [].
Proof.
  destruct (decide (P a)) as [HP|HP].
  - induction l as [|b l IH]; [done|].
    rewrite fmap_cons, filter_cons_True by done. by rewrite IH.
  - apply filter_none. intros [a' b] Hin. apply list_elem_of_fmap in Hin as (b' & [= -> ->] & _).
    done.
Qed.

(** A WHERE on the columns of the left table only, pushed through a join. *)
Lemma filter_join {A B} (P : A → Prop) `{∀ a, Decision (P a)} (l : list A)
    (g : A → list B) :
  filter (λ r : A * B, P r.1) (l ≫= λ a, (λ b, (a, b)) <$> g a) =
  filter P l ≫= λ a, (λ b, (a, b)) <$> g a.
Proof.
  induction l as [|a l IH]; [done|].
  rewrite bind_cons, filter_app, IH, filter_fmap_pair.
  destruct (decide (P a)).
  - by rewrite filter_cons_True, bind_cons.
  - by rewrite filter_cons_False.
Qed.

Lemma filter_join_iff {A B} (Q : A * B → Prop) (P : A → Prop)
    `{∀ r, Decision (Q r)} `{∀ a, Decision (P a)} (l : list A) (g : A → list B) :
  (∀ r, Q r ↔ P r.1) →
  filter Q (l ≫= λ a, (λ b, (a, b)) <$> g a) = filter P l ≫= λ a, (λ b, (a, b)) <$> g a.
Proof.
  intros HQ. rewrite <-filter_join. by apply list_filter_iff.
Qed.

Lemma select_team_of db (p : Z * player)
    `{Hdec : ∀ t : Z * team, Decision (team_id p.2 = Some t.1)} :
  select_where (teams db) (λ t, team_id p.2 = Some t.1) = option_list (team_of db p.2).
Proof.
  rewrite select_where_ref. unfold team_of.
  destruct (team_id p.2) as [ref|]; [|done]. simpl.
  by destruct (teams db !! ref).
Qed.

Lemma join_teams_eq db :
  join_teams db =
  map_to_list (players db) ≫= λ p, (λ t, (p, t)) <$> option_list (team_of db p.2).
Proof.
  unfold join_teams. apply list_bind_ext; [|done]. intros p. by rewrite select_team_of.
Qed.

Lemma left_join_teams_eq db :
  left_join_teams db = (λ p, (p, team_of db p.2)) <$> map_to_list (players db).
Proof.
  unfold left_join_teams. induction (map_to_list (players db)) as [|p l IH]; [done|].
  rewrite bind_cons, fmap_cons, IH, select_team_of. by destruct (team_of db p.2).
Qed.

Section team_equations.
Context `{Platform}.

Lemma Team_findById_eq db v u :
  Team.findById v u db =
  match bind_int4 v with
  | Ok id => (Ok (team_columns <$> owned_team db u id), db)
  | Throw => (Throw, db)
  end.
Proof.
  unfold Team.findById. run_query. bind_case (bind_int4 v) as id.
  rewrite select_owned_team. by destruct (owned_team db u id).
Qed.

Lemma Team_findByIdWithPlayerCount_eq db v u :
  Team.findByIdWithPlayerCount v u db =
  match bind_int4 v with
  | Ok id =>
      (Ok ((λ r, (team_columns r, Team.player_count db r.1)) <$> owned_team db u id), db)
  | Throw => (Throw, db)
  end.
Proof.
  unfold Team.findByIdWithPlayerCount. run_query. bind_case (bind_int4 v) as id.
  rewrite select_owned_team. by destruct (owned_team db u id).
Qed.

Lemma Team_getTeamHierarchy_miss db v id u :
  bind_int4 v = Ok id → owned_team db u id = None →
  Team.getTeamHierarchy v u db = (Ok None, db).
Proof.
  intros Hv Hmiss. unfold Team.getTeamHierarchy.
  unfold mbind at 1. unfold Query_bind. rewrite Team_findById_eq, Hv, Hmiss. done.
Qed.

Lemma Team_delete_eq db v u :
  Team.delete v u db =
  match bind_int4 v with
  | Ok id =>
      match owned_team db u id with
      | Some (i, _) =>
          (Ok true, set_players (fmap (on_delete_set_null [i])) (set_teams (delete i) db))
      | None => (Ok false, db)
      end
  | Throw => (Throw, db)
  end.
Proof.
  unfold Team.delete. run_query. bind_case (bind_int4 v) as id.
  pose proof (select_owned_team db u id) as Hsel.
  destruct (owned_team db u id) as [[i t]|]; simpl in Hsel.
  - erewrite delete_where_one by apply Hsel. run_query. done.
  - erewrite delete_where_miss by apply Hsel. run_query. simpl. f_equal.
    apply database_eq; simpl; try done.
    rewrite <-(map_fmap_id (players db)) at 2.
    apply map_fmap_ext. intros. apply on_delete_set_null_nil.
Qed.

Lemma Team_update_eq db now v n l c d u :
  Team.update now v n l c d u db =
  match team_params n l c d, bind_int4 v with
  | Ok (name, logo, color, descr), Ok id =>
      match owned_team db u id with
      | Some (i, t) =>
          match name with
          | Some name =>
              (Ok true,
               set_teams (insert i
                 {| team_name := name; team_logo := logo; team_color := color;
                    description := descr; team_user_id := team_user_id t;
                    team_created_at := team_created_at t; team_updated_at := now |}) db)
          | None => (Throw, db)
          end
      | None => (Ok false, db)
      end
  | _, _ => (Throw, db)
  end.
Proof.
  unfold Team.update, team_params. run_query.
  bind_case (bind_text n ≫= varchar 255) as name.
  bind_case (bind_text l ≫= varchar 50) as logo.
  bind_case (bind_text c ≫= varchar 7) as color.
  bind_case (bind_text d) as descr.
  bind_case (bind_int4 v) as id.
  pose proof (select_owned_team db u id) as Hsel.
  destruct (owned_team db u id) as [[i t]|]; simpl in Hsel.
  - erewrite update_where_one by apply Hsel.
    destruct name as [name|]; [|done]. run_query. done.
  - erewrite update_where_miss by apply Hsel. run_query.
    by rewrite set_teams_same.
Qed.
End team_equations.

Lemma bind_run {A B} (m : Query A) (f : A → Query B) db :
  (m ≫= f) db =
  match m db with
  | (Ok a, db') => f a db'
  | (Throw, db') => (Throw, db')
  end.
Proof. done. Qed.

Section player_equations.
Context `{Platform}.

Lemma Player_findById_eq db v u :
  Player.findById v u db =
  match bind_int4 v with
  | Ok id => (Ok (found_player db u id), db)
  | Throw => (Throw, db)
  end.
Proof.
  unfold Player.findById. run_query. bind_case (bind_int4 v) as id.
  rewrite join_teams_eq.
  rewrite (filter_join_iff _ (λ r : Z * player, id = Some r.1 ∧ player_user_id r.2 = u))
    by done.
  fold (select_where (players db) (λ r, id = Some r.1 ∧ player_user_id r.2 = u)).
  rewrite select_owned_player. unfold found_player.
  destruct (owned_player db u id) as [r|]; [|done]. simpl.
  by destruct (team_of db r.2).
Qed.

Lemma Player_create_eq db now n ps j tid u :
  Player.create now n ps j tid u db =
  match player_params n ps j tid with
  | Ok (name, pos, number, ref) =>
      if bool_decide (players_id_seq db ≤ serial_max) then
        match name with
        | Some name =>
            insert_player (players_id_seq db)
              {| player_name := name; position := pos; jersey_number := number;
                 team_id := ref; player_user_id := u;
                 player_created_at := now; player_updated_at := now |}
              (next_players_id db)
        | None => (Throw, next_players_id db)
        end
      else (Throw, db)
  | Throw => (Throw, db)
  end.
Proof.
  unfold Player.create, player_params. run_query.
  bind_case (bind_text n ≫= varchar 255) as name.
  bind_case (bind_text ps ≫= varchar 100) as pos.
  bind_case (bind_int4 j) as number.
  bind_case (bind_int4 (js_or tid JNull)) as ref.
  rewrite bind_run. unfold nextval_players.
  destruct (bool_decide (players_id_seq db ≤ serial_max)); [|done].
  simpl. run_query. by destruct name.
Qed.

Lemma Player_update_eq db now v n ps j tid u :
  Player.update now v n ps j tid u db =
  match player_params n ps j tid, bind_int4 v with
  | Ok (name, pos, number, ref), Ok id =>
      match owned_player db u id with
      | Some (i, p) =>
          match name with
          | Some name =>
              if decide (team_fk_ok db ref) then
                (Ok true,
                 set_players (insert i
                   {| player_name := name; position := pos; jersey_number := number;
                      team_id := ref; player_user_id := player_user_id p;
                      player_created_at := player_created_at p;
                      player_updated_at := now |}) db)
              else (Throw, db)
          | None => (Throw, db)
          end
      | None => (Ok false, db)
      end
  | _, _ => (Throw, db)
  end.
Proof.
  unfold Player.update, player_params. run_query.
  bind_case (bind_text n ≫= varchar 255) as name.
  bind_case (bind_text ps ≫= varchar 100) as pos.
  bind_case (bind_int4 j) as number.
  bind_case (bind_int4 (js_or tid JNull)) as ref.
  bind_case (bind_int4 v) as id.
  pose proof (select_owned_player db u id) as Hsel.
  destruct (owned_player db u id) as [[i p]|]; simpl in Hsel.
  - erewrite update_where_one by apply Hsel.
    destruct name as [name|]; [|done]. run_query.
    destruct (decide (team_fk_ok db ref)); [|done]. run_query. done.
  - erewrite update_where_miss by apply Hsel. run_query.
    by rewrite set_players_same.
Qed.

Lemma Player_assignToTeam_eq db now v tid u :
  Player.assignToTeam now v tid u db =
  match bind_int4 tid, bind_int4 v with
  | Ok ref, Ok id =>
      match owned_player db u id with
      | Some (i, p) =>
          if decide (team_fk_ok db ref)
          then (Ok true, set_players (insert i (Player.set_team now ref p)) db)
          else (Throw, db)
      | None => (Ok false, db)
      end
  | _, _ => (Throw, db)
  end.
Proof.
  unfold Player.assignToTeam. run_query.
  bind_case (bind_int4 tid) as ref.
  bind_case (bind_int4 v) as id.
  pose proof (select_owned_player db u id) as Hsel.
  destruct (owned_player db u id) as [[i p]|]; simpl in Hsel.
  - erewrite update_where_one by apply Hsel.
    destruct (decide (team_fk_ok db ref)); [|done]. run_query. done.
  - erewrite update_where_miss by apply Hsel. run_query.
    by rewrite set_players_same.
Qed.

Lemma Player_unassignFromTeam_eq db now v u :
  Player.unassignFromTeam now v u db =
  match bind_int4 v with
  | Ok id =>
      match owned_player db u id with
      | Some (i, p) => (Ok true, set_players (insert i (Player.set_team now None p)) db)
      | None => (Ok false, db)
      end
  | Throw => (Throw, db)
  end.
Proof.
  unfold Player.unassignFromTeam. run_query.
  bind_case (bind_int4 v) as id.
  pose proof (select_owned_player db u id) as Hsel.
  destruct (owned_player db u id) as [[i p]|]; simpl in Hsel.
  - erewrite update_where_one by apply Hsel. run_query. done.
  - erewrite update_where_miss by apply Hsel. run_query.
    by rewrite set_players_same.
Qed.

Lemma Player_delete_eq db v u :
  Player.delete v u db =
  match bind_int4 v with
  | Ok id =>
      match owned_player db u id with
      | Some (i, _) => (Ok true, set_players (delete i) db)
      | None => (Ok false, db)
      end
  | Throw => (Throw, db)
  end.
Proof.
  unfold Player.delete. run_query. bind_case (bind_int4 v) as id.
  pose proof (select_owned_player db u id) as Hsel.
  destruct (owned_player db u id) as [[i p]|]; simpl in Hsel.
  - erewrite delete_where_one by apply Hsel. run_query. done.
  - erewrite delete_where_miss by apply Hsel. run_query.
    by rewrite set_players_same.
Qed.
End player_equations.

(** ** Ownership: what the caller does not own is not there *)

Section ownership.
Context `{Platform}.


Lemma owned_team_absent db u i :
  teams db !! i = None → owned_team db u (Some i) = None.
Proof. intros Hi. unfold owned_team. simpl. by rewrite Hi. Qed.


Lemma owned_player_absent db u i :
  players db !! i = None → owned_player db u (Some i) = None.
Proof. intros Hi. unfold owned_player. simpl. by rewrite Hi. Qed.


End ownership.

Section listings.
Context `{Platform}.

Lemma elem_of_sorted_select {A B} (tbl : gmap Z A) (cond : Z * A → Prop)
    `{∀ r, Decision (cond r)} (R : relation (Z * A)) `{∀ a b, Decision (R a b)}
    (f : Z * A → B) (y : B) :
  y ∈ f <$> merge_sort R (select_where tbl cond) ↔
  ∃ r, y = f r ∧ tbl !! r.1 = Some r.2 ∧ cond r.
Proof.
  rewrite list_elem_of_fmap. apply exist_proper. intros r.
  by rewrite merge_sort_Permutation, select_where_elem.
Qed.

Lemma elem_of_left_join db (r : joined) :
  r ∈ left_join_teams db ↔ players db !! r.1.1 = Some r.1.2 ∧ r.2 = team_of db r.1.2.
Proof.
  rewrite left_join_teams_eq, list_elem_of_fmap. split.
  - intros ([i p] & -> & Hin). by apply elem_of_map_to_list in Hin.
  - destruct r as [[i p] t]. simpl. intros [Hp ->].
    exists (i, p). split; [done|]. by apply elem_of_map_to_list.
Qed.

Lemma elem_of_sorted_join db (P : joined → Prop) `{∀ r, Decision (P r)}
    (R : relation joined) `{∀ a b, Decision (R a b)} (y : player_listed) :
  y ∈ listed_columns <$> merge_sort R (filter P (left_join_teams db)) ↔
  ∃ i p, y = listed_columns ((i, p), team_of db p) ∧
         players db !! i = Some p ∧ P ((i, p), team_of db p).
Proof.
  rewrite list_elem_of_fmap. split.
  - intros ([[i p] t] & -> & Hin).
    rewrite merge_sort_Permutation, list_elem_of_filter, elem_of_left_join in Hin.
    destruct Hin as (HP & Hp & Ht). simpl in *. subst t. by exists i, p.
  - intros (i & p & -> & Hp & HP). exists ((i, p), team_of db p). split; [done|].
    rewrite merge_sort_Permutation, list_elem_of_filter, elem_of_left_join. done.
Qed.


End listings.


(** ** Referential integrity *)


(** C2. Deleting a team does not delete its players: when the caller owns
    the team, the delete succeeds, the team is gone, and every player that
    referenced it (those of the caller among them) is still there, the same
    but for a team id of NULL; the other players are untouched. *)
Theorem team_delete_keeps_players `{Platform} (db : database) (v : jsval)
    (id ownerId : Z) (t : team) :
  bind_int4 v = Ok (Some id) →
  teams db !! id = Some t →
  team_user_id t = ownerId →
  ∃ db',
    Team.delete v ownerId db = (Ok true, db') ∧
    teams db' !! id = None ∧
    (∀ i p, players db !! i = Some p → team_id p = Some id →
       player_user_id p = ownerId →
       players db' !! i = Some (set_team_id None p) ∧
       team_id (set_team_id None p) = None) ∧
    (∀ i p, players db !! i = Some p → team_id p = Some id →
       players db' !! i = Some (set_team_id None p)) ∧
    (∀ i p, players db !! i = Some p → team_id p ≠ Some id →
       players db' !! i = Some p) ∧
    dom (players db') = dom (players db).
Proof.
  intros Hv Ht Hu. eexists. rewrite Team_delete_eq, Hv.
  unfold owned_team. simpl. rewrite Ht. simpl. rewrite decide_True by done.
  split; [reflexivity|]. simpl.
  assert (∀ i p, players db !! i = Some p → team_id p = Some id →
    (on_delete_set_null [id] <$> players db) !! i = Some (set_team_id None p)) as Hnull.
  { intros i p Hp Href. rewrite lookup_fmap, Hp. simpl.
    unfold on_delete_set_null. rewrite Href, decide_True; [done|]. left. }
  repeat split.
  - apply lookup_delete_eq.
  - by apply Hnull.
  - apply Hnull.
  - intros i p Hp Href. rewrite lookup_fmap, Hp. simpl.
    unfold on_delete_set_null. destruct (team_id p) as [ref|]; [|done].
    rewrite decide_False; [done|]. rewrite list_elem_of_singleton. congruence.
  - apply dom_fmap_L.
Qed.

(** C4. A global player of the caller is not found by the single-player
    lookup, whose join to teams finds no row for it, although the listing
    of global players has it; a player with a team is found: the row that
    comes back has the player's id, name, position, number and timestamps,
    and the id, name and colour of its team. *)
Theorem global_player_is_not_found_by_id `{Platform} (db : database) (v : jsval)
    (id ownerId : Z) (p : player) :
  bind_int4 v = Ok (Some id) →
  players db !! id = Some p →
  player_user_id p = ownerId →
  (team_id p = None →
     Player.findById v ownerId db = (Ok None, db) ∧
     ∃ rows, Player.findGlobalPlayers ownerId db = (Ok rows, db) ∧
             player_columns (id, p) ∈ rows) ∧
  (∀ ref, team_id p = Some ref → references_exist db →
     ∃ t found,
       teams db !! ref = Some t ∧
       Player.findById v ownerId db = (Ok (Some found), db) ∧
       found = found_columns ((id, p), (ref, t)) ∧
       pf_id found = id ∧ pf_player_name found = player_name p ∧
       pf_position found = position p ∧
       pf_jersey_number found = jersey_number p ∧
       pf_team_id found = Some ref ∧
       pf_team_name found = team_name t ∧ pf_team_color found = team_color t ∧
       pf_created_at found = player_created_at p ∧
       pf_updated_at found = player_updated_at p).
Proof.
  intros Hv Hp Hu. rewrite Player_findById_eq, Hv.
  unfold found_player, owned_player. simpl. rewrite Hp. simpl.
  rewrite decide_True by done. simpl. unfold team_of. split.
  - intros Href. rewrite Href. split; [done|].
    eexists. split; [reflexivity|].
    apply elem_of_sorted_select. by exists (id, p).
  - intros ref Href Hfk. rewrite Href. simpl.
    specialize (Hfk id p Hp). cbv beta in Hfk. rewrite Href in Hfk.
    destruct Hfk as [t Ht].
    exists t, (found_columns ((id, p), (ref, t))). rewrite Ht. simpl.
    by rewrite Href.
Qed.

(** ** The writes of the repositories *)

Section writes.
Context `{Platform}.

Lemma Team_create_eq db now n l c d u :
  Team.create now n l c d u db =
  match team_params n l c d with
  | Ok (name, logo, color, descr) =>
      if bool_decide (teams_id_seq db ≤ serial_max) then
        match name with
        | Some name =>
            insert_team (teams_id_seq db)
              {| team_name := name; team_logo := logo; team_color := color;
                 description := descr; team_user_id := u;
                 team_created_at := now; team_updated_at := now |}
              (next_teams_id db)
        | None => (Throw, next_teams_id db)
        end
      else (Throw, db)
  | Throw => (Throw, db)
  end.
Proof.
  unfold Team.create, team_params. run_query.
  bind_case (bind_text n ≫= varchar 255) as name.
  bind_case (bind_text l ≫= varchar 50) as logo.
  bind_case (bind_text c ≫= varchar 7) as color.
  bind_case (bind_text d) as descr.
  rewrite bind_run. unfold nextval_teams.
  destruct (bool_decide (teams_id_seq db ≤ serial_max)); [|done].
  simpl. run_query. by destruct name.
Qed.

(** Both invariants read the teams and the players only. *)
Lemma references_exist_tables db db' :
  teams db' = teams db → players db' = players db →
  references_exist db → references_exist db'.
Proof.
  unfold references_exist, team_fk_ok. intros -> ->. done.
Qed.

Lemma same_owner_tables db db' :
  teams db' = teams db → players db' = players db →
  same_owner db → same_owner db'.
Proof.
  unfold same_owner, same_owner_ref. intros -> ->. done.
Qed.

Lemma owned_team_Some db u id i t :
  owned_team db u id = Some (i, t) →
  id = Some i ∧ teams db !! i = Some t ∧ team_user_id t = u.
Proof.
  unfold owned_team. destruct id as [j|]; [|done]. simpl.
  destruct (teams db !! j) as [t'|] eqn:Hj; [|done]. simpl.
  destruct (decide _); [|done]. by intros [= <- <-].
Qed.

Lemma owned_player_Some db u id i p :
  owned_player db u id = Some (i, p) →
  id = Some i ∧ players db !! i = Some p ∧ player_user_id p = u.
Proof.
  unfold owned_player. destruct id as [j|]; [|done]. simpl.
  destruct (players db !! j) as [t'|] eqn:Hj; [|done]. simpl.
  destruct (decide _); [|done]. by intros [= <- <-].
Qed.

Lemma player_params_team n ps j tid name pos number ref :
  player_params n ps j tid = Ok (name, pos, number, ref) →
  bind_int4 (js_or tid JNull) = Ok ref.
Proof.
  unfold player_params.
  destruct (bind_text n ≫= varchar 255); [|done]. rewrite bind_Ok.
  destruct (bind_text ps ≫= varchar 100); [|done]. rewrite bind_Ok.
  destruct (bind_int4 j); [|done]. rewrite bind_Ok.
  destruct (bind_int4 (js_or tid JNull)); [|done]. rewrite bind_Ok. congruence.
Qed.

Lemma names_own_team_row db c v u (p : player) :
  team_argument c = Some (v, u) → bind_int4 v = Ok (team_id p) → player_user_id p = u →
  names_own_team db c → same_owner_ref db p.
Proof.
  intros Hc Hv Hu Hown. unfold same_owner_ref.
  destruct (team_id p) as [ref|]; [|done].
  destruct (Hown v u ref Hc Hv) as (t & -> & ->). done.
Qed.

Lemma run_effect c db :
  effect (λ p, names_own_team db c → same_owner_ref db p) db (run c db).
Proof.
  destruct c; simpl.
  - rewrite Team_create_eq.
    destruct (team_params _ _ _ _) as [[[[name logo] color] descr]|];
      [|by apply NoRow].
    destruct (bool_decide _); [|by apply NoRow].
    destruct name as [name|]; [|by apply NoRow].
    unfold insert_team. destruct (decide _) as [[Hfree Hu]|]; [|by apply NoRow].
    eapply TeamInserted; simpl; done.
  - rewrite Team_update_eq.
    destruct (team_params _ _ _ _) as [[[[name logo] color] descr]|]; [|by apply NoRow].
    destruct (bind_int4 id) as [k|]; [|by apply NoRow].
    destruct (owned_team db userId k) as [[i t]|] eqn:Hown; [|by apply NoRow].
    apply owned_team_Some in Hown as (_ & Hi & _).
    destruct name as [name|]; [|by apply NoRow].
    eapply (TeamUpdated _ _ _ i t); [done| |reflexivity|done]; done.
  - rewrite Team_delete_eq.
    destruct (bind_int4 id) as [k|]; [|by apply NoRow].
    destruct (owned_team db userId k) as [[i t]|] eqn:Hown; [|by apply NoRow].
    apply (TeamDeleted _ _ _ i); simpl; done.
  - rewrite Player_create_eq.
    destruct (player_params _ _ _ _) as [[[[name pos] number] ref]|] eqn:Hpar;
      [|by apply NoRow].
    destruct (bool_decide _); [|by apply NoRow].
    destruct name as [name|]; [|by apply NoRow].
    apply player_params_team in Hpar.
    unfold insert_player. destruct (decide _) as [(Hfree & Hfk & Hu)|]; [|by apply NoRow].
    eapply PlayerInserted; simpl; try done.
    by eapply names_own_team_row.
  - rewrite Player_update_eq.
    destruct (player_params _ _ _ _) as [[[[name pos] number] ref]|] eqn:Hpar;
      [|by apply NoRow].
    apply player_params_team in Hpar.
    destruct (bind_int4 id) as [k|]; [|by apply NoRow].
    destruct (owned_player db userId k) as [[i p]|] eqn:Hown; [|by apply NoRow].
    apply owned_player_Some in Hown as (_ & Hi & Hu).
    destruct name as [name|]; [|by apply NoRow].
    destruct (decide _); [|by apply NoRow].
    eapply (PlayerUpdated _ _ _ i p); [done| | | |done|reflexivity]; try done.
    by eapply names_own_team_row.
  - rewrite Player_assignToTeam_eq.
    destruct (bind_int4 teamId) as [ref|] eqn:Href; [|by apply NoRow].
    destruct (bind_int4 playerId) as [k|]; [|by apply NoRow].
    destruct (owned_player db userId k) as [[i p]|] eqn:Hown; [|by apply NoRow].
    apply owned_player_Some in Hown as (_ & Hi & Hu).
    destruct (decide _); [|by apply NoRow].
    eapply (PlayerUpdated _ _ _ i p); [done| | | |done|reflexivity]; try done.
    by eapply names_own_team_row.
  - rewrite Player_unassignFromTeam_eq.
    destruct (bind_int4 playerId) as [k|]; [|by apply NoRow].
    destruct (owned_player db userId k) as [[i p]|] eqn:Hown; [|by apply NoRow].
    apply owned_player_Some in Hown as (_ & Hi & _).
    eapply (PlayerUpdated _ _ _ i p); [done| | | |done|reflexivity]; done.
  - rewrite Player_delete_eq.
    destruct (bind_int4 id) as [k|]; [|by apply NoRow].
    destruct (owned_player db userId k) as [[i p]|] eqn:Hown; [|by apply NoRow].
    apply (PlayerDeleted _ _ _ i); simpl; done.
Qed.

Lemma effect_references_exist Q db db' :
  effect Q db db' → references_exist db → references_exist db'.
Proof.
  unfold references_exist, team_fk_ok.
  intros [Ht Hp|id t Hfree Ht Hp|id t t' Hid Hu Ht Hp|id Ht Hp
         |id p Hfree Hfk _ Ht Hp|id p p' Hid Hu Hfk _ Ht Hp|id Ht Hp] Hinv;
    rewrite Ht, Hp.
  - done.
  - intros i p Hi. specialize (Hinv i p Hi). cbv beta in *.
    destruct (team_id p) as [ref|]; [|done].
    rewrite lookup_insert_is_Some. destruct (decide (id = ref)); auto.
  - intros i p Hi. specialize (Hinv i p Hi). cbv beta in *.
    destruct (team_id p) as [ref|]; [|done].
    rewrite lookup_insert_is_Some. destruct (decide (id = ref)); auto.
  - intros i p' Hi. rewrite lookup_fmap in Hi.
    destruct (players db !! i) as [p|] eqn:Hpi; [|done]. injection Hi as <-.
    specialize (Hinv i p Hpi). cbv beta in *. unfold on_delete_set_null.
    destruct (team_id p) as [ref|] eqn:Href; [|by rewrite Href].
    destruct (decide (ref ∈ [id])) as [Hin|Hout]; [done|]. rewrite Href.
    rewrite lookup_delete_is_Some. split; [|done].
    intros ->. apply Hout. left.
  - apply map_Forall_insert_2; [done|]. done.
  - apply map_Forall_insert_2; [done|]. done.
  - intros i p Hi. apply lookup_delete_Some in Hi as [_ Hi]. by apply (Hinv i).
Qed.

Lemma effect_same_owner (Q : player → Prop) db db' :
  effect Q db db' → (∀ p, Q p → same_owner_ref db p) → same_owner db → same_owner db'.
Proof.
  unfold same_owner, same_owner_ref.
  intros [Ht Hp|id t Hfree Ht Hp|id t t' Hid Hu Ht Hp|id Ht Hp
         |id p Hfree _ HQ Ht Hp|id p p' Hid _ _ HQ Ht Hp|id Ht Hp] HQs Hinv;
    rewrite Ht, Hp.
  - done.
  - intros i p Hi. specialize (Hinv i p Hi). cbv beta in *.
    destruct (team_id p) as [ref|]; [|done].
    destruct (decide (id = ref)) as [->|Hne].
    + by rewrite Hfree in Hinv.
    + by rewrite lookup_insert_ne.
  - intros i p Hi. specialize (Hinv i p Hi). cbv beta in *.
    destruct (team_id p) as [ref|]; [|done].
    destruct (decide (id = ref)) as [->|Hne].
    + rewrite lookup_insert_eq. rewrite Hid in Hinv. congruence.
    + by rewrite lookup_insert_ne.
  - intros i p' Hi. rewrite lookup_fmap in Hi.
    destruct (players db !! i) as [p|] eqn:Hpi; [|done]. injection Hi as <-.
    specialize (Hinv i p Hpi). cbv beta in *. unfold on_delete_set_null.
    destruct (team_id p) as [ref|] eqn:Href; [|by rewrite Href].
    destruct (decide (ref ∈ [id])) as [Hin|Hout]; [done|]. rewrite Href.
    rewrite lookup_delete_ne; [done|]. intros ->. apply Hout. left.
  - apply map_Forall_insert_2; [|done]. by apply HQs.
  - apply map_Forall_insert_2; [|done]. by apply HQs.
  - intros i p Hi. apply lookup_delete_Some in Hi as [_ Hi]. by apply (Hinv i).
Qed.
End writes.

(** C1, as the code has it. Whenever the team id of a player is not NULL
    it references an existing team: every write of the repositories keeps
    the foreign key. No write checks the owner of the team it is given:
    the writes keep every player on a team of its own user only as long as
    their callers name no team but their own. *)
Theorem team_reference_integrity `{Platform} (c : call) (db : database) :
  (references_exist db → references_exist (run c db)) ∧
  (same_owner db → names_own_team db c → same_owner (run c db)).
Proof.
  split.
  - apply (effect_references_exist _ _ _ (run_effect c db)).
  - intros Hinv Hown. apply (effect_same_owner _ _ _ (run_effect c db)); [|done].
    intros p HQ. by apply HQ.
Qed.

(** ** An example database *)

Lemma example_db_same_owner : same_owner example_db.
Proof. apply (bool_decide_unpack _). vm_compute. exact I. Qed.

Lemma example_db_references_exist : references_exist example_db.
Proof. apply (bool_decide_unpack _). vm_compute. exact I. Qed.

(** C1, as stated, fails: the create succeeds and leaves a player of user 2
    on a team of user 1. *)
Lemma cross_user_reference_introduced :
  same_owner example_db ∧
  (Player.create 5 (JStr (lit "Eve")) JNull JNull (JNum 10) 2 example_db).1 =
    Ok (4, {| player_name := lit "Eve"; position := None; jersey_number := None;
              team_id := Some 10; player_user_id := 2;
              player_created_at := 5; player_updated_at := 5 |}) ∧
  ¬ same_owner (run cross_user_create example_db).
Proof.
  split; [apply example_db_same_owner|]. split; [by vm_compute|].
  intros Hinv. apply (bool_decide_pack _) in Hinv. vm_compute in Hinv. exact Hinv.
Qed.

(** After the cross-user create every reference still exists, and user 1
    putting Zed on the Lions keeps every player on a team of its user. *)
Lemma team_reference_integrity_witness :
  references_exist (run cross_user_create example_db) ∧
  same_owner (run (PlayerAssignToTeam 5 (JNum 1) (JNum 10) 1) example_db).
Proof.
  split.
  - apply (proj1 (team_reference_integrity cross_user_create example_db)).
    apply example_db_references_exist.
  - apply (proj2 (team_reference_integrity
                    (PlayerAssignToTeam 5 (JNum 1) (JNum 10) 1) example_db)).
    + apply example_db_same_owner.
    + intros v u ref [= <- <-] [= <-]. by eexists.
Defined.

(** ** ORDER BY sorts *)

Section orders.
Context {A : Type}.

Global Instance lex_total (R1 R2 : relation A) `{∀ a b, Decision (R1 a b)}
  `{!Total R1} `{!Total R2} : Total (lex R1 R2).
Proof.
  intros a b. unfold lex.
  destruct (decide (R1 a b)) as [Hab|Hab], (decide (R1 b a)) as [Hba|Hba].
  - destruct (total R2 a b); [left|right]; done.
  - left. done.
  - right. done.
  - destruct (total R1 a b); done.
Qed.

Global Instance lex_trans (R1 R2 : relation A)
  `{!Transitive R1} `{!Transitive R2} : Transitive (lex R1 R2).
Proof.
  intros a b c [Hab Hab2] [Hbc Hbc2]. split; [by etrans|].
  intros Hca. etrans; [apply Hab2|apply Hbc2]; by etrans.
Qed.

Global Instance on_total {B} (f : A → B) (R : relation B) `{!Total R} : Total (on f R).
Proof. intros a b. apply (total R). Qed.

Global Instance on_trans {B} (f : A → B) (R : relation B) `{!Transitive R} :
  Transitive (on f R).
Proof. intros a b c. apply (transitivity (R:=R)). Qed.

Global Instance nulls_first_total (R : relation A) `{!Total R} : Total (nulls_first R).
Proof. intros [a|] [b|]; simpl; auto; apply (total R). Qed.

Global Instance nulls_first_trans (R : relation A) `{!Transitive R} :
  Transitive (nulls_first R).
Proof. intros [a|] [b|] [c|]; simpl; try done. apply (transitivity (R:=R)). Qed.

Global Instance nulls_last_total (R : relation A) `{!Total R} : Total (nulls_last R).
Proof. intros [a|] [b|]; simpl; auto; apply (total R). Qed.

Global Instance nulls_last_trans (R : relation A) `{!Transitive R} :
  Transitive (nulls_last R).
Proof. intros [a|] [b|] [c|]; simpl; try done. apply (transitivity (R:=R)). Qed.
End orders.

Lemma filter_fmap {A B} (f : A → B) (P : B → Prop) `{∀ b, Decision (P b)} (l : list A) :
  filter P (f <$> l) = f <$> filter (λ a, P (f a)) l.
Proof.
  induction l as [|a l IH]; [done|]. rewrite fmap_cons.
  destruct (decide (P (f a))).
  - by rewrite !filter_cons_True, fmap_cons, IH.
  - by rewrite !filter_cons_False.
Qed.

Section listing.
Context `{Platform}.

Global Instance listing_order_total : Total listing_order.
Proof. unfold listing_order. apply _. Qed.

Global Instance listing_order_trans : Transitive listing_order.
Proof. unfold listing_order. apply _. Qed.

Lemma filter_left_join db (P : joined → Prop) `{∀ r, Decision (P r)} :
  filter P (left_join_teams db) = joined_rows db P.
Proof. by rewrite left_join_teams_eq, filter_fmap. Qed.

Lemma listed_order_spelled a b : listed_order a b → in_listing_order a b.
Proof.
  unfold listed_order, lex, on, in_listing_order. intros (H1 & H2).
  split; [|split].
  - intros Hb. rewrite Hb in H1. destruct (pl_team_id a); [lia|done].
  - intros Ha Hb [Hna Hnb]. rewrite Ha, Hb in H2.
    destruct H2 as [_ H3]; [lia|]. rewrite Hna, Hnb in H3. by apply H3.
  - intros x y Ha Hb Hx Hy.
    destruct (pl_team_id a), (pl_team_id b); try done.
    destruct H2 as [H2 H3]; [lia|]. rewrite Hx, Hy in H2, H3. done.
Qed.

Lemma sorted_listing db (P : joined → Prop) `{∀ r, Decision (P r)} :
  StronglySorted listed_order
    (listed_columns <$> merge_sort listing_order (filter P (left_join_teams db))).
Proof.
  apply (StronglySorted_fmap _ listing_order); [done|].
  apply StronglySorted_merge_sort; apply _.
Qed.

Lemma StronglySorted_pairs {A} (R : relation A) (l : list A) i j a b :
  StronglySorted R l → (i < j)%nat → l !! i = Some a → l !! j = Some b → R a b.
Proof.
  intros Hs. revert i j. induction Hs as [|x l Hs IH Hall]; intros i j Hij Hi Hj.
  - done.
  - destruct j as [|j]; [lia|]. simpl in Hj.
    destruct i as [|i]; simpl in Hi.
    + injection Hi as <-. rewrite Forall_forall in Hall. apply Hall.
      by eapply list_elem_of_lookup_2.
    + apply (IH i j); [lia|done..].
Qed.
End listing.

Lemma listed_team_name db i p :
  let row := listed_columns ((i, p), team_of db p) in
  (pl_team_id row = None → pl_team_name row = None) ∧
  (references_exist db → players db !! i = Some p → pl_team_id row ≠ None →
     is_Some (pl_team_name row)).
Proof.
  simpl. unfold team_of. split.
  - by intros ->.
  - intros Hfk Hp Href. specialize (Hfk i p Hp). cbv beta in Hfk.
    destruct (team_id p) as [ref|]; [|done]. destruct Hfk as [t Ht].
    simpl. rewrite Ht. by eexists.
Qed.

(** C5. The listing of a user's players answers with all of the user's
    players, each with the columns of its team joined or NULL, sorted:
    global players before players with a team; global players by name;
    players with a team by team name and, where team names tie, by name.
    On the reference platform the players Zed (global), Amy (Lions) and Bob
    (global) are listed as Bob, Zed, Amy. *)
Theorem listByOwner_order :
  (∀ `{Platform} (db : database) (ownerId : Z),
     ∃ rows, Player.findAllByUserId ownerId db = (Ok rows, db) ∧
       rows ≡ₚ (λ r, listed_columns (r, team_of db r.2)) <$>
                 select_where (players db) (λ r, player_user_id r.2 = ownerId) ∧
       (∀ r, r ∈ rows →
          (pl_team_id r = None → pl_team_name r = None) ∧
          (references_exist db → pl_team_id r ≠ None → is_Some (pl_team_name r))) ∧
       StronglySorted listed_order rows ∧
       ∀ i j a b, (i < j)%nat → rows !! i = Some a → rows !! j = Some b →
         in_listing_order a b) ∧
  (∃ rows, Player.findAllByUserId 1 example_db = (Ok rows, example_db) ∧
     pl_player_name <$> rows = [lit "Bob"; lit "Zed"; lit "Amy"] ∧
     pl_team_name <$> rows = [None; None; Some (lit "Lions")]).
Proof.
  split.
  - intros ? db ownerId. eexists. split; [reflexivity|].
    pose proof (sorted_listing db (λ r : joined, player_user_id r.1.2 = ownerId)) as Hs.
    split; [|split; [|split]].
    + rewrite merge_sort_Permutation, filter_left_join. unfold joined_rows.
      by rewrite <-list_fmap_compose.
    + intros r Hr. apply elem_of_sorted_join in Hr as (i & p & -> & Hp & _).
      destruct (listed_team_name db i p) as [Hnone Hsome]. split; [done|].
      intros Hfk. by apply Hsome.
    + done.
    + intros i j a b Hij Ha Hb. apply listed_order_spelled.
      by eapply (StronglySorted_pairs _ _ i j); [exact Hs|..].
  - eexists. split; [reflexivity|]. by vm_compute.
Qed.

(** ** ILIKE and substrings *)

Section like.
Context (fold : N → N).

Lemma starts_with_folded_spec q s :
  starts_with_folded fold q s = true ↔
  ∃ mid post, s = mid ++ post ∧ fold <$> mid = fold <$> q.
Proof.
  revert s. induction q as [|c q IH]; intros s; simpl.
  - split; [|done]. intros _. by exists [], s.
  - destruct s as [|c' s].
    + split; [done|]. intros (mid & post & Hs & Hm).
      destruct mid; [done|]. done.
    + rewrite andb_true_iff, bool_decide_eq_true, IH. split.
      * intros (Hc & mid & post & -> & Hm). exists (c' :: mid), post.
        split; [done|]. by rewrite !fmap_cons, Hm, Hc.
      * intros (mid & post & Hs & Hm). destruct mid as [|m mid]; [done|].
        rewrite !fmap_cons in Hm. injection Hs as -> ->. injection Hm as Hc Hm.
        split; [done|]. by exists mid, post.
Qed.

Lemma contains_foldedb_spec q s :
  contains_foldedb fold q s = true ↔ contains_folded fold q s.
Proof.
  unfold contains_folded. induction s as [|c s IH]; simpl.
  - rewrite orb_false_r, starts_with_folded_spec. split.
    + intros (mid & post & Hs & Hm). by exists [], mid, post.
    + intros (pre & mid & post & Hs & Hm).
      destruct pre; [|done]. by exists mid, post.
  - rewrite orb_true_iff, IH, starts_with_folded_spec. split.
    + intros [(mid & post & Hs & Hm)|(pre & mid & post & -> & Hm)].
      * by exists [], mid, post.
      * by exists (c :: pre), mid, post.
    + intros (pre & mid & post & Hs & Hm). destruct pre as [|c' pre].
      * left. by exists mid, post.
      * right. simpl in Hs. injection Hs as -> ->. by exists pre, mid, post.
Qed.

Lemma like_match_any_string s : like_match fold [AnyString] s = true.
Proof. induction s as [|c s IH]; [done|]. simpl in *. by rewrite IH. Qed.

Lemma like_match_skip p s :
  like_match fold (AnyString :: p) s =
  like_match fold p s ||
  match s with
  | [] => false
  | _ :: s' => like_match fold (AnyString :: p) s'
  end.
Proof. by destruct s. Qed.

Lemma like_match_literals q s :
  like_match fold ((Literal <$> q) ++ [AnyString]) s = starts_with_folded fold q s.
Proof.
  revert s. induction q as [|c q IH]; intros s.
  - apply like_match_any_string.
  - destruct s as [|c' s]; [done|]. simpl. by rewrite <-IH.
Qed.

Lemma like_match_contains q s :
  like_match fold (AnyString :: (Literal <$> q) ++ [AnyString]) s =
  contains_foldedb fold q s.
Proof.
  induction s as [|c s IH]; rewrite like_match_skip, like_match_literals; [done|].
  by rewrite IH.
Qed.
End like.

Lemma like_pattern_plain q r :
  Forall (λ c, ¬ special c) q →
  like_pattern (q ++ r) = ((Literal <$> q) ++.) <$> like_pattern r.
Proof.
  induction 1 as [|c q Hc Hq IH]; simpl.
  - by destruct (like_pattern r).
  - unfold special in Hc.
    destruct (N.eqb_spec c 37); [tauto|]. destruct (N.eqb_spec c 95); [tauto|].
    destruct (N.eqb_spec c 92); [tauto|].
    rewrite IH. by destruct (like_pattern r).
Qed.

Lemma search_pattern_plain q :
  Forall (λ c, ¬ special c) q →
  like_pattern (Player.search_pattern q) =
  Some (AnyString :: (Literal <$> q) ++ [AnyString]).
Proof.
  intros Hq. unfold Player.search_pattern. change (lit "%") with [37%N].
  change ([37%N] ++ q ++ [37%N]) with (37%N :: (q ++ [37%N])).
  change (like_pattern (37%N :: (q ++ [37%N]))) with
    ((AnyString ::.) <$> like_pattern (q ++ [37%N])).
  by rewrite like_pattern_plain.
Qed.

Lemma search_pattern_bound `{Platform} q :
  Forall (λ c, ¬ special c) q →
  bind_text (JStr (Player.search_pattern q)) ≫= not_null = Ok (Player.search_pattern q).
Proof.
  intros Hq. unfold bind_text. rewrite bool_decide_eq_false_2; [done|].
  unfold Player.search_pattern. change (lit "%") with [37%N].
  rewrite !elem_of_app, !list_elem_of_singleton. intros [?|[Hin|?]]; try done.
  rewrite Forall_forall in Hq. apply (Hq _ Hin). unfold special. auto.
Qed.

Lemma NoDup_select_keys {A} (tbl : gmap Z A) (cond : Z * A → Prop)
    `{∀ r, Decision (cond r)} : NoDup ((select_where tbl cond).*1).
Proof.
  apply (sublist_NoDup _ (map_to_list tbl).*1); [apply NoDup_fst_map_to_list|].
  apply fmap_sublist, sublist_filter.
Qed.

Section search.
Context `{Platform}.

(** The ids of a listing are those of the selected players, once each. *)
Lemma listing_ids db (P : joined → Prop) `{∀ r, Decision (P r)} :
  NoDup (pl_id <$> (listed_columns <$>
           merge_sort listing_order (filter P (left_join_teams db)))).
Proof.
  rewrite merge_sort_Permutation, filter_left_join. unfold joined_rows.
  rewrite <-!list_fmap_compose. apply NoDup_select_keys.
Qed.

Lemma ilike_plain q s :
  Forall (λ c, ¬ special c) q →
  ∀ pat, like_pattern (Player.search_pattern q) = Some pat →
  ilike pat s ↔ contains_folded lower q s.
Proof.
  intros Hq pat. rewrite search_pattern_plain by done. intros [= <-].
  unfold ilike. by rewrite like_match_contains, contains_foldedb_spec.
Qed.

Lemma Player_search_plain db u q :
  Forall (λ c, ¬ special c) q →
  Player.search q u db =
  (Ok (listed_columns <$> merge_sort listing_order
         (filter (λ r : joined,
                    player_user_id r.1.2 = u ∧
                    (ilike (AnyString :: (Literal <$> q) ++ [AnyString]) (player_name r.1.2) ∨
                     team_name_ilike (AnyString :: (Literal <$> q) ++ [AnyString]) r.2))
                 (left_join_teams db))), db).
Proof.
  intros Hq. unfold Player.search. rewrite bind_lift, search_pattern_bound by done.
  by rewrite search_pattern_plain.
Qed.
End search.

(** C6, as the code has it. For a query text without the characters the
    store reads specially (percent sign, underscore, backslash, code point
    0), search answers with exactly the caller's players whose name or
    whose team's name contains the text, case folded, each once, in the
    listing order. A query that is missing, empty or only white space is
    answered 400 by the controller, which runs no query. On the reference
    platform "lions" finds Amy of the Lions, whose own name does not hold
    it. *)
Theorem search_matches_substring :
  (∀ `{Platform} (db : database) (ownerId : Z) (q : text),
     Forall (λ c, ¬ special c) q →
     ∃ rows, Player.search q ownerId db = (Ok rows, db) ∧
       (∀ row, row ∈ rows ↔
          ∃ i p, row = listed_columns ((i, p), team_of db p) ∧
                 players db !! i = Some p ∧ player_user_id p = ownerId ∧
                 (contains_folded lower q (player_name p) ∨
                  ∃ t, team_of db p = Some t ∧
                       contains_folded lower q (team_name t.2))) ∧
       NoDup (pl_id <$> rows) ∧
       StronglySorted listed_order rows ∧
       ∀ i j a b, (i < j)%nat → rows !! i = Some a → rows !! j = Some b →
         in_listing_order a b) ∧
  (∀ `{Platform} (db : database) (ownerId : Z) (q : jsval),
     truthy q = false ∨ (∃ s, q = JStr s ∧ trim s = []) →
     playerController.searchPlayers q ownerId db =
       (Ok (failure 400 "Search query is required."), db)) ∧
  (∃ rows, Player.search (lit "lions") 1 example_db = (Ok rows, example_db) ∧
     pl_player_name <$> rows = [lit "Amy"] ∧
     pl_team_name <$> rows = [Some (lit "Lions")] ∧
     contains_foldedb ascii_lower (lit "lions") (lit "Amy") = false).
Proof.
  split; [|split].
  - intros ? db ownerId q Hq. eexists. split; [by apply Player_search_plain|].
    split; [|split; [|split]].
    + intros row. rewrite elem_of_sorted_join.
      apply exist_proper; intros i. apply exist_proper; intros p.
      pose proof (λ s, ilike_plain q s Hq _ (search_pattern_plain q Hq)) as Hlike.
      unfold team_name_ilike. simpl. split.
      * intros (-> & Hp & Hu & Hm). repeat (split; [done|]).
        destruct Hm as [Hm|Hm]; [left; by apply Hlike|right].
        destruct (team_of db p) as [t|]; [|done].
        exists t. split; [done|]. by apply Hlike.
      * intros (-> & Hp & Hu & Hm). repeat (split; [done|]).
        destruct Hm as [Hm|(t & -> & Hm)]; [left|right]; by apply Hlike.
    + apply listing_ids.
    + apply sorted_listing.
    + intros i j a b Hij Ha Hb. apply listed_order_spelled.
      eapply (StronglySorted_pairs _ _ i j); [|exact Hij|exact Ha|exact Hb].
      apply sorted_listing.
  - intros ? db ownerId q Hq. unfold playerController.searchPlayers, try_catch.
    destruct Hq as [Hq|(s & -> & Hs)].
    + by rewrite Hq.
    + destruct (truthy (JStr s)); [|done]. simpl.
      rewrite bind_lift. simpl. rewrite Hs. done.
  - eexists. split; [reflexivity|]. by vm_compute.
Qed.

(** C6, as stated, fails: an underscore in the query stands for any
    character, so "a_y" finds Amy, whose name does not contain it, and whose
    team's name does not either. *)
Lemma search_underscore_is_a_wildcard :
  (∃ rows, Player.search (lit "a_y") 1 example_db = (Ok rows, example_db) ∧
     pl_player_name <$> rows = [lit "Amy"] ∧
     pl_team_name <$> rows = [Some (lit "Lions")]) ∧
  ¬ contains_folded ascii_lower (lit "a_y") (lit "Amy") ∧
  ¬ contains_folded ascii_lower (lit "a_y") (lit "Lions").
Proof.
  split; [|split].
  - eexists. split; [reflexivity|]. by vm_compute.
  - rewrite <-contains_foldedb_spec. by vm_compute.
  - rewrite <-contains_foldedb_spec. by vm_compute.
Qed.

(** ** Parameters and what is stored *)

Section params.
Context `{Platform}.

Lemma team_params_inv n l c d name logo color descr :
  team_params n l c d = Ok (name, logo, color, descr) →
  bind_text n ≫= varchar 255 = Ok name ∧ bind_text l ≫= varchar 50 = Ok logo ∧
  bind_text c ≫= varchar 7 = Ok color ∧ bind_text d = Ok descr.
Proof.
  unfold team_params.
  destruct (bind_text n ≫= varchar 255); [|done]. rewrite bind_Ok.
  destruct (bind_text l ≫= varchar 50); [|done]. rewrite bind_Ok.
  destruct (bind_text c ≫= varchar 7); [|done]. rewrite bind_Ok.
  destruct (bind_text d); [|done]. rewrite bind_Ok. by intros [= -> -> -> ->].
Qed.

Lemma player_params_inv n ps j tid name pos number ref :
  player_params n ps j tid = Ok (name, pos, number, ref) →
  bind_text n ≫= varchar 255 = Ok name ∧ bind_text ps ≫= varchar 100 = Ok pos ∧
  bind_int4 j = Ok number ∧ bind_int4 (js_or tid JNull) = Ok ref.
Proof.
  unfold player_params.
  destruct (bind_text n ≫= varchar 255); [|done]. rewrite bind_Ok.
  destruct (bind_text ps ≫= varchar 100); [|done]. rewrite bind_Ok.
  destruct (bind_int4 j); [|done]. rewrite bind_Ok.
  destruct (bind_int4 (js_or tid JNull)); [|done]. rewrite bind_Ok.
  by intros [= -> -> -> ->].
Qed.

(** A falsy value or'ed with null is null, and null is bound as NULL. *)
Lemma bind_int4_falsy v : truthy v = false → bind_int4 (js_or v JNull) = Ok None.
Proof. intros Hv. unfold js_or. by rewrite Hv. Qed.

(** A string without the code point 0 that fits the column is stored as it
    is. *)
Lemma bind_varchar_fits n s :
  0%N ∉ s → (length s ≤ n)%nat → bind_text (JStr s) ≫= varchar n = Ok (Some s).
Proof.
  intros H0 Hlen. unfold bind_text. rewrite bool_decide_eq_false_2 by done.
  rewrite bind_Ok. unfold varchar. by rewrite bool_decide_eq_true_2.
Qed.

Lemma bind_default_logo : bind_text (JStr default_logo) ≫= varchar 50 = Ok (Some default_logo).
Proof.
  apply bind_varchar_fits; [|simpl; lia].
  intros Hin. apply (bool_decide_pack _) in Hin. vm_compute in Hin. exact Hin.
Qed.

Lemma bind_default_color :
  bind_text (JStr default_color) ≫= varchar 7 = Ok (Some default_color).
Proof.
  apply bind_varchar_fits; [|simpl; lia].
  intros Hin. apply (bool_decide_pack _) in Hin. vm_compute in Hin. exact Hin.
Qed.

Lemma bind_empty_description : bind_text (JStr []) = Ok (Some []).
Proof. done. Qed.

Lemma Team_create_success db db' now n l c d u i t :
  Team.create now n l c d u db = (Ok (i, t), db') →
  ∃ name logo color descr,
    team_params n l c d = Ok (Some name, logo, color, descr) ∧
    i = teams_id_seq db ∧
    t = {| team_name := name; team_logo := logo; team_color := color;
           description := descr; team_user_id := u;
           team_created_at := now; team_updated_at := now |} ∧
    teams db !! i = None ∧
    teams db' = <[i:=t]> (teams db) ∧ players db' = players db.
Proof.
  rewrite Team_create_eq.
  destruct (team_params n l c d) as [[[[name logo] color] descr]|]; [|done].
  destruct (bool_decide _); [|done]. destruct name as [name|]; [|done].
  unfold insert_team. destruct (decide _) as [[Hfree Hu]|]; [|done].
  intros [= <- <- <-]. by exists name, logo, color, descr.
Qed.

Lemma Player_create_success db db' now n ps j tid u i p :
  Player.create now n ps j tid u db = (Ok (i, p), db') →
  ∃ name pos number ref,
    player_params n ps j tid = Ok (Some name, pos, number, ref) ∧
    i = players_id_seq db ∧
    p = {| player_name := name; position := pos; jersey_number := number;
           team_id := ref; player_user_id := u;
           player_created_at := now; player_updated_at := now |} ∧
    players db !! i = None ∧
    players db' = <[i:=p]> (players db) ∧ teams db' = teams db.
Proof.
  rewrite Player_create_eq.
  destruct (player_params n ps j tid) as [[[[name pos] number] ref]|]; [|done].
  destruct (bool_decide _); [|done]. destruct name as [name|]; [|done].
  unfold insert_player. destruct (decide _) as [(Hfree & Hfk & Hu)|]; [|done].
  intros [= <- <- <-]. by exists name, pos, number, ref.
Qed.

Lemma Player_update_success db db' now v n ps j tid u :
  Player.update now v n ps j tid u db = (Ok true, db') →
  ∃ i p name pos number ref,
    player_params n ps j tid = Ok (Some name, pos, number, ref) ∧
    bind_int4 v = Ok (Some i) ∧
    players db !! i = Some p ∧ player_user_id p = u ∧
    db' = set_players (insert i
            {| player_name := name; position := pos; jersey_number := number;
               team_id := ref; player_user_id := player_user_id p;
               player_created_at := player_created_at p;
               player_updated_at := now |}) db.
Proof.
  rewrite Player_update_eq.
  destruct (player_params n ps j tid) as [[[[name pos] number] ref]|]; [|done].
  destruct (bind_int4 v) as [k|]; [|done].
  destruct (owned_player db u k) as [[i p]|] eqn:Hown; [|done].
  apply owned_player_Some in Hown as (-> & Hi & Hu).
  destruct name as [name|]; [|done]. destruct (decide _); [|done].
  intros [= <-]. by exists i, p, name, pos, number, ref.
Qed.

(** No operation answers [Ok] and leaves the tables changed unless it
    says so: a failed update writes no row. *)
Lemma Team_update_unchanged db now v n l c d u r db' :
  Team.update now v n l c d u db = (r, db') → r ≠ Ok true → db' = db.
Proof.
  rewrite Team_update_eq.
  destruct (team_params n l c d) as [[[[name logo] color] descr]|]; [|congruence].
  destruct (bind_int4 v) as [k|]; [|congruence].
  destruct (owned_team db u k) as [[i t]|]; [|congruence].
  destruct name; congruence.
Qed.
End params.

(** ** Validation in the controllers *)

Lemma trim_or_text v fallback :
  text_or_missing v → ∃ r, trim_or v fallback = Ok r.
Proof.
  intros [Hv|(s & ->)]; unfold trim_or.
  - rewrite Hv. by eexists.
  - destruct (truthy (JStr s)); by eexists.
Qed.

Lemma trim_or_throws v fallback : ¬ text_or_missing v → trim_or v fallback = Throw.
Proof.
  intros Hv. unfold trim_or.
  destruct v as [| |[|]|z| |]; simpl; try done; try (destruct Hv; by left).
  - destruct (z =? 0) eqn:Hz; simpl; [|done]. destruct Hv. left. simpl. by rewrite Hz.
  - destruct Hv. right. by eexists.
Qed.

Lemma trim_or_falsy v fallback : truthy v = false → trim_or v fallback = Ok fallback.
Proof. intros Hv. unfold trim_or. by rewrite Hv. Qed.

Lemma js_or_falsy v fallback : truthy v = false → js_or v fallback = fallback.
Proof. intros Hv. unfold js_or. by rewrite Hv. Qed.

Lemma trim_nil_inv s : trim s ≠ [] → truthy (JStr s) = true.
Proof. by destruct s. Qed.

Lemma try_catch_run {A} (m h : Query A) db :
  try_catch m h db =
  match m db with
  | (Ok a, db') => (Ok a, db')
  | (Throw, db') => h db'
  end.
Proof. done. Qed.

Section createTeam.
Context `{Platform}.

(** The request is refused before Team.create is called. *)
Lemma createTeam_blank now body user db :
  blank (body_team_name body) →
  (text_or_missing (body_description body) → text_or_missing (body_team_logo body) →
     ∃ msg, teamController.createTeam now body user db = (Ok (failure 400 msg), db)) ∧
  ∃ code msg, teamController.createTeam now body user db = (Ok (failure code msg), db).
Proof.
  intros Hname. unfold teamController.createTeam. rewrite try_catch_run.
  destruct Hname as [Hn|(s & Hn & Hs)].
  - rewrite Hn. simpl. split; [intros _ _|]; by repeat eexists.
  - rewrite Hn. destruct (truthy (JStr s)); simpl; [|split; [intros _ _|]; by repeat eexists].
    rewrite bind_lift. simpl. rewrite Hs.
    split.
    + intros [r1 ->]%(trim_or_text _ (JStr [])) [r2 ->]%(trim_or_text _ (JStr default_logo)).
      rewrite !bind_lift. simpl. by eexists.
    + rewrite bind_lift.
      destruct (trim_or (body_description body) _); [|by repeat eexists].
      rewrite bind_lift.
      destruct (trim_or (body_team_logo body) _); [|by repeat eexists].
      simpl. by repeat eexists.
Qed.

(** Which refusal it is: 400 for a name that is missing; for a name of
    white space 400 when description and logo are strings or missing, and
    500 when one of them is anything else, since both are trimmed before
    the name is looked at. *)
Lemma createTeam_blank_answers now body user db :
  blank (body_team_name body) →
  (truthy (body_team_name body) = false →
     teamController.createTeam now body user db =
       (Ok (failure 400 "Team name is required."), db)) ∧
  (truthy (body_team_name body) = true →
     (text_or_missing (body_description body) →
      text_or_missing (body_team_logo body) →
        teamController.createTeam now body user db =
          (Ok (failure 400 "Team name cannot be empty."), db)) ∧
     (¬ text_or_missing (body_description body) ∨
      ¬ text_or_missing (body_team_logo body) →
        teamController.createTeam now body user db =
          (Ok (failure 500 "Server error while creating team."), db))).
Proof.
  intros Hname. unfold teamController.createTeam. rewrite try_catch_run. split.
  - by intros ->.
  - intros Ht. rewrite Ht. destruct Hname as [Hn|(s & Hn & Hs)]; [congruence|].
    rewrite Hn. simpl. rewrite bind_lift. simpl. rewrite Hs. split.
    + intros [r1 ->]%(trim_or_text _ (JStr [])) [r2 ->]%(trim_or_text _ (JStr default_logo)).
      by rewrite !bind_lift.
    + intros Hbad. rewrite bind_lift.
      destruct (trim_or (body_description body) _) eqn:Hd; [|done].
      rewrite bind_lift. destruct Hbad as [Hbad|Hbad].
      * by rewrite (trim_or_throws _ (JStr []) Hbad) in Hd.
      * by rewrite (trim_or_throws _ _ Hbad).
Qed.
End createTeam.

Section createTeam_stored.
Context `{Platform}.

(** When createTeam answers with a team, the team is the row it stored,
    and every field of the body that was missing holds its default. *)
Lemma createTeam_stored now body user db r db' i t :
  teamController.createTeam now body user db = (Ok r, db') →
  data r = Some (i, t) →
  status r = 201 ∧ teams db' !! i = Some t ∧
  (truthy (body_team_logo body) = false → team_logo t = Some default_logo) ∧
  (truthy (body_team_color body) = false → team_color t = Some default_color) ∧
  (truthy (body_description body) = false → description t = Some []).
Proof.
  unfold teamController.createTeam. rewrite try_catch_run.
  destruct (truthy (body_team_name body)); simpl; [|by intros [= <- _]].
  rewrite bind_lift.
  destruct (js_trim (body_team_name body)) as [cleanTeamName|]; [|by intros [= <- _]].
  rewrite bind_lift.
  destruct (trim_or (body_description body) _) as [cleanDescription|] eqn:Hd;
    [|by intros [= <- _]].
  rewrite bind_lift.
  destruct (trim_or (body_team_logo body) _) as [cleanTeamLogo|] eqn:Hl;
    [|by intros [= <- _]].
  destruct (decide _); [by intros [= <- _]|].
  rewrite bind_run.
  destruct (Team.create _ _ _ _ _ _ _) as [[[i' t']|] db1] eqn:Hc; [|by intros [= <- _]].
  intros [= <- <-]. simpl. intros [= -> ->].
  apply Team_create_success in Hc
    as (name & logo & color & descr & Hpar & -> & -> & Hfree & Hteams & _).
  apply team_params_inv in Hpar as (_ & Hlogo & Hcolor & Hdescr).
  split; [done|]. split; [by rewrite Hteams, lookup_insert_eq|]. simpl.
  split; [|split].
  - intros Hv. rewrite (trim_or_falsy _ _ Hv) in Hl. injection Hl as <-.
    rewrite bind_default_logo in Hlogo. congruence.
  - intros Hv. unfold js_or in Hcolor. rewrite Hv in Hcolor.
    rewrite bind_default_color in Hcolor. congruence.
  - intros Hv. rewrite (trim_or_falsy _ _ Hv) in Hd. injection Hd as <-.
    rewrite bind_empty_description in Hdescr. congruence.
Qed.

(** A name that is not blank and fits, with logo, colour and description
    missing: the team is created with the three defaults. *)
Lemma createTeam_defaults now body user db s :
  body_team_name body = JStr s →
  trim s ≠ [] → 0%N ∉ trim s → (length (trim s) ≤ 255)%nat →
  truthy (body_team_logo body) = false →
  truthy (body_team_color body) = false →
  truthy (body_description body) = false →
  user ∈ users db → teams db !! teams_id_seq db = None →
  teams_id_seq db ≤ serial_max →
  let created :=
    {| team_name := trim s; team_logo := Some default_logo;
       team_color := Some default_color; description := Some [];
       team_user_id := user; team_created_at := now; team_updated_at := now |} in
  teamController.createTeam now body user db =
    (Ok {| status := 201; success := true;
           message := Some "Team created successfully."%string;
           count := None; data := Some (teams_id_seq db, created) |},
     set_teams (insert (teams_id_seq db) created) (next_teams_id db)).
Proof.
  intros Hn Hs H0 Hlen Hl Hc Hd Hu Hfree Hseq created.
  unfold teamController.createTeam. rewrite try_catch_run, Hn.
  rewrite (trim_nil_inv s Hs). simpl. rewrite bind_lift.
  rewrite (trim_or_falsy _ _ Hd), bind_lift, (trim_or_falsy _ _ Hl), bind_lift.
  simpl. rewrite decide_False by (by destruct (trim s)).
  rewrite bind_run, Team_create_eq. unfold team_params.
  rewrite (bind_varchar_fits 255) by done. rewrite bind_Ok.
  rewrite bind_default_logo, bind_Ok.
  unfold js_or. rewrite Hc, bind_default_color, bind_Ok.
  rewrite bind_empty_description, bind_Ok.
  rewrite bool_decide_eq_true_2 by done.
  unfold insert_team. rewrite decide_True; [done|]. split; done.
Qed.
End createTeam_stored.

(** C7, as the code has it. Team create refuses every name that is
    missing or empty after trimming and creates nothing. The refusal is a
    validation error (400) when the name is missing, and when it is white
    space and description and logo are strings or missing; it is a server
    error (500) when the name is white space and description or logo is
    any other value, since both are trimmed before the name is looked at.
    In the team it creates, a logo, colour or description that was missing
    holds the default: the glyph U+26BD, the colour #0ea5e9, the empty
    description; such a team is created as long as the sequence of the ids
    has a value left. *)
Theorem createTeam_validates_and_defaults `{Platform}
    (now : Z) (body : team_body) (user : Z) (db : database) :
  (blank (body_team_name body) →
     (text_or_missing (body_description body) →
      text_or_missing (body_team_logo body) →
        ∃ msg, teamController.createTeam now body user db =
                 (Ok (failure 400 msg), db)) ∧
     ∃ code msg, teamController.createTeam now body user db =
                   (Ok (failure code msg), db)) ∧
  (∀ r db' i t,
     teamController.createTeam now body user db = (Ok r, db') →
     data r = Some (i, t) →
     status r = 201 ∧ teams db' !! i = Some t ∧
     (truthy (body_team_logo body) = false → team_logo t = Some default_logo) ∧
     (truthy (body_team_color body) = false → team_color t = Some default_color) ∧
     (truthy (body_description body) = false → description t = Some [])) ∧
  (∀ s,
     body_team_name body = JStr s →
     trim s ≠ [] → 0%N ∉ trim s → (length (trim s) ≤ 255)%nat →
     truthy (body_team_logo body) = false →
     truthy (body_team_color body) = false →
     truthy (body_description body) = false →
     user ∈ users db → teams db !! teams_id_seq db = None →
     teams_id_seq db ≤ serial_max →
     let created :=
       {| team_name := trim s; team_logo := Some default_logo;
          team_color := Some default_color; description := Some [];
          team_user_id := user; team_created_at := now; team_updated_at := now |} in
     teamController.createTeam now body user db =
       (Ok {| status := 201; success := true;
              message := Some "Team created successfully."%string;
              count := None; data := Some (teams_id_seq db, created) |},
        set_teams (insert (teams_id_seq db) created) (next_teams_id db))) ∧
  (default_logo = [9917%N] ∧ default_color = lit "#0ea5e9") ∧
  (blank (body_team_name body) →
     (truthy (body_team_name body) = false →
        teamController.createTeam now body user db =
          (Ok (failure 400 "Team name is required."), db)) ∧
     (truthy (body_team_name body) = true →
        (text_or_missing (body_description body) →
         text_or_missing (body_team_logo body) →
           teamController.createTeam now body user db =
             (Ok (failure 400 "Team name cannot be empty."), db)) ∧
        (¬ text_or_missing (body_description body) ∨
         ¬ text_or_missing (body_team_logo body) →
           teamController.createTeam now body user db =
             (Ok (failure 500 "Server error while creating team."), db)))).
Proof.
  split; [apply createTeam_blank|]. split; [apply createTeam_stored|].
  split; [apply createTeam_defaults|]. split; [done|].
  apply createTeam_blank_answers.
Qed.

(** C7, as stated, fails: a name of white space with the description 5 is
    not answered as a validation error but as a server error, the
    description being trimmed before the name is looked at. *)
Lemma createTeam_blank_name_server_error :
  blank (body_team_name numbered_team_body) ∧
  teamController.createTeam 7 numbered_team_body 1 example_db =
    (Ok (failure 500 "Server error while creating team."), example_db).
Proof.
  split; [|by vm_compute].
  right. exists (lit "   "). split; [reflexivity|]. by vm_compute.
Qed.

Section updates.
Context `{Platform}.

Lemma updateTeam_blank now id body user db :
  blank (body_team_name body) →
  (text_or_missing (body_description body) → text_or_missing (body_team_logo body) →
     ∃ msg, teamController.updateTeam now id body user db = (Ok (failure 400 msg), db)) ∧
  ∃ code msg, teamController.updateTeam now id body user db = (Ok (failure code msg), db).
Proof.
  intros Hname. unfold teamController.updateTeam. rewrite try_catch_run.
  destruct Hname as [Hn|(s & Hn & Hs)].
  - rewrite Hn. simpl. split; [intros _ _|]; by repeat eexists.
  - rewrite Hn. destruct (truthy (JStr s)); simpl; [|split; [intros _ _|]; by repeat eexists].
    rewrite bind_lift. simpl. rewrite Hs.
    split.
    + intros [r1 ->]%(trim_or_text _ (JStr [])) [r2 ->]%(trim_or_text _ (JStr default_logo)).
      rewrite !bind_lift. simpl. by eexists.
    + rewrite bind_lift.
      destruct (trim_or (body_description body) _); [|by repeat eexists].
      rewrite bind_lift.
      destruct (trim_or (body_team_logo body) _); [|by repeat eexists].
      simpl. by repeat eexists.
Qed.

Lemma updatePlayer_blank now id body user db :
  blank (body_player_name body) →
  (text_or_missing (body_position body) →
     ∃ msg, playerController.updatePlayer now id body user db =
              (Ok (failure 400 msg), db)) ∧
  ∃ code msg, playerController.updatePlayer now id body user db =
                (Ok (failure code msg), db).
Proof.
  intros Hname. unfold playerController.updatePlayer. rewrite try_catch_run.
  destruct Hname as [Hn|(s & Hn & Hs)].
  - rewrite Hn. simpl. split; [intros _|]; by repeat eexists.
  - rewrite Hn. destruct (truthy (JStr s)); simpl; [|split; [intros _|]; by repeat eexists].
    rewrite bind_lift. simpl. rewrite Hs.
    split.
    + intros [r1 ->]%(trim_or_text _ JNull). rewrite !bind_lift. simpl. by eexists.
    + rewrite bind_lift.
      destruct (trim_or (body_position body) _); [|by repeat eexists].
      simpl. by repeat eexists.
Qed.

Lemma updateTeam_blank_answers now id body user db :
  blank (body_team_name body) →
  (truthy (body_team_name body) = false →
     teamController.updateTeam now id body user db =
       (Ok (failure 400 "Team name is required."), db)) ∧
  (truthy (body_team_name body) = true →
     (text_or_missing (body_description body) →
      text_or_missing (body_team_logo body) →
        teamController.updateTeam now id body user db =
          (Ok (failure 400 "Team name cannot be empty."), db)) ∧
     (¬ text_or_missing (body_description body) ∨
      ¬ text_or_missing (body_team_logo body) →
        teamController.updateTeam now id body user db =
          (Ok (failure 500 "Server error while updating team."), db))).
Proof.
  intros Hname. unfold teamController.updateTeam. rewrite try_catch_run. split.
  - by intros ->.
  - intros Ht. rewrite Ht. destruct Hname as [Hn|(s & Hn & Hs)]; [congruence|].
    rewrite Hn. simpl. rewrite bind_lift. simpl. rewrite Hs. split.
    + intros [r1 ->]%(trim_or_text _ (JStr [])) [r2 ->]%(trim_or_text _ (JStr default_logo)).
      by rewrite !bind_lift.
    + intros Hbad. rewrite bind_lift.
      destruct (trim_or (body_description body) _) eqn:Hd; [|done].
      rewrite bind_lift. destruct Hbad as [Hbad|Hbad].
      * by rewrite (trim_or_throws _ (JStr []) Hbad) in Hd.
      * by rewrite (trim_or_throws _ _ Hbad).
Qed.

Lemma updatePlayer_blank_answers now id body user db :
  blank (body_player_name body) →
  (truthy (body_player_name body) = false →
     playerController.updatePlayer now id body user db =
       (Ok (failure 400 "Player name is required."), db)) ∧
  (truthy (body_player_name body) = true →
     (text_or_missing (body_position body) →
        playerController.updatePlayer now id body user db =
          (Ok (failure 400 "Player name cannot be empty."), db)) ∧
     (¬ text_or_missing (body_position body) →
        playerController.updatePlayer now id body user db =
          (Ok (failure 500 "Server error while updating player."), db))).
Proof.
  intros Hname. unfold playerController.updatePlayer. rewrite try_catch_run. split.
  - by intros ->.
  - intros Ht. rewrite Ht. destruct Hname as [Hn|(s & Hn & Hs)]; [congruence|].
    rewrite Hn. simpl. rewrite bind_lift. simpl. rewrite Hs. split.
    + intros [r1 ->]%(trim_or_text _ JNull). by rewrite !bind_lift.
    + intros Hbad. rewrite bind_lift. by rewrite (trim_or_throws _ _ Hbad).
Qed.

(** A player update that answers success wrote the row of a player of the
    caller, from the parameters as they were bound, and answers with what
    the single-player lookup then finds. *)
Lemma updatePlayer_success now id body user db r db' :
  playerController.updatePlayer now id body user db = (Ok r, db') →
  success r = true →
  ∃ i p name pos number ref,
    bind_int4 (JStr id) = Ok (Some i) ∧
    players db !! i = Some p ∧ player_user_id p = user ∧
    bind_int4 (js_or (body_jersey_number body) JNull) = Ok number ∧
    bind_int4 (js_or (js_or (body_team_id body) JNull) JNull) = Ok ref ∧
    db' = set_players (insert i
            {| player_name := name; position := pos; jersey_number := number;
               team_id := ref; player_user_id := player_user_id p;
               player_created_at := player_created_at p;
               player_updated_at := now |}) db ∧
    status r = 200 ∧ data r = Some (found_player db' user (Some i)).
Proof.
  unfold playerController.updatePlayer. rewrite try_catch_run.
  destruct (truthy (body_player_name body)); simpl; [|by intros [= <- _]].
  rewrite bind_lift.
  destruct (js_trim (body_player_name body)) as [cleanPlayerName|]; [|by intros [= <- _]].
  rewrite bind_lift.
  destruct (trim_or (body_position body) _) as [cleanPosition|]; [|by intros [= <- _]].
  destruct (decide _); [by intros [= <- _]|].
  rewrite bind_run.
  destruct (Player.update _ _ _ _ _ _ _ _) as [[[|]|] db1] eqn:Hup;
    simpl; try by intros [= <- _].
  apply Player_update_success in Hup
    as (i & p & name & pos & number & ref & Hpar & Hid & Hp & Hu & ->).
  apply player_params_inv in Hpar as (_ & _ & Hnum & Href).
  rewrite bind_run, Player_findById_eq, Hid. simpl.
  intros [= <- <-] _. by exists i, p, name, pos, number, ref.
Qed.

(** A name that is not blank and fits, position, jersey number and team
    missing: the update of a player of the caller succeeds. *)
Lemma updatePlayer_global now id body user db i p s :
  int4_in id = Some i →
  players db !! i = Some p → player_user_id p = user →
  body_player_name body = JStr s →
  trim s ≠ [] → 0%N ∉ trim s → (length (trim s) ≤ 255)%nat →
  truthy (body_position body) = false →
  truthy (body_jersey_number body) = false →
  truthy (body_team_id body) = false →
  playerController.updatePlayer now id body user db =
    (Ok {| status := 200; success := true;
           message := Some "Player updated successfully."%string;
           count := None; data := Some None |},
     set_players (insert i
       {| player_name := trim s; position := None; jersey_number := None;
          team_id := None; player_user_id := player_user_id p;
          player_created_at := player_created_at p;
          player_updated_at := now |}) db).
Proof.
  intros Hid Hp Hu Hn Hs H0 Hlen Hpos Hj Ht.
  assert (bind_int4 (JStr id) = Ok (Some i)) as Hbind by (simpl; by rewrite Hid).
  unfold playerController.updatePlayer. rewrite try_catch_run, Hn.
  rewrite (trim_nil_inv s Hs). simpl. rewrite bind_lift.
  rewrite (trim_or_falsy _ _ Hpos), bind_lift. simpl.
  rewrite decide_False by (by destruct (trim s)).
  rewrite bind_run, Player_update_eq. unfold player_params.
  rewrite (bind_varchar_fits 255) by done. rewrite bind_Ok.
  change (bind_text JNull ≫= varchar 100) with (Ok (@None text)). rewrite bind_Ok.
  rewrite (bind_int4_falsy _ Hj), bind_Ok.
  rewrite (js_or_falsy _ _ Ht), (bind_int4_falsy JNull) by done. rewrite bind_Ok.
  rewrite Hbind. unfold owned_player. simpl. rewrite Hp. simpl.
  rewrite decide_True by done. simpl.
  rewrite bind_run, Player_findById_eq, Hbind.
  unfold found_player, owned_player. simpl. rewrite lookup_insert_eq. simpl.
  rewrite decide_True by done. done.
Qed.
End updates.

(** C8, as the code has it. A Team or Player update whose name is missing
    or empty after trimming is refused and writes no row: the database it
    leaves is the database it found, every stored record and its updated
    timestamp with it. The refusal is a validation error (400) when the
    name is missing, and when it is white space and the other trimmed
    fields (description and logo of a team, position of a player) are
    strings or missing; it is a server error (500) when the name is white
    space and one of those fields is any other value, since they are
    trimmed before the name is looked at. *)
Theorem update_blank_name_writes_nothing `{Platform}
    (now : Z) (id : text) (user : Z) (db : database) :
  (∀ body : team_body,
     blank (body_team_name body) →
     (text_or_missing (body_description body) →
      text_or_missing (body_team_logo body) →
        ∃ msg, teamController.updateTeam now id body user db =
                 (Ok (failure 400 msg), db)) ∧
     ∃ code msg, teamController.updateTeam now id body user db =
                   (Ok (failure code msg), db)) ∧
  (∀ body : player_body,
     blank (body_player_name body) →
     (text_or_missing (body_position body) →
        ∃ msg, playerController.updatePlayer now id body user db =
                 (Ok (failure 400 msg), db)) ∧
     ∃ code msg, playerController.updatePlayer now id body user db =
                   (Ok (failure code msg), db)) ∧
  (∀ body : team_body,
     blank (body_team_name body) →
     (truthy (body_team_name body) = false →
        teamController.updateTeam now id body user db =
          (Ok (failure 400 "Team name is required."), db)) ∧
     (truthy (body_team_name body) = true →
        (text_or_missing (body_description body) →
         text_or_missing (body_team_logo body) →
           teamController.updateTeam now id body user db =
             (Ok (failure 400 "Team name cannot be empty."), db)) ∧
        (¬ text_or_missing (body_description body) ∨
         ¬ text_or_missing (body_team_logo body) →
           teamController.updateTeam now id body user db =
             (Ok (failure 500 "Server error while updating team."), db)))) ∧
  (∀ body : player_body,
     blank (body_player_name body) →
     (truthy (body_player_name body) = false →
        playerController.updatePlayer now id body user db =
          (Ok (failure 400 "Player name is required."), db)) ∧
     (truthy (body_player_name body) = true →
        (text_or_missing (body_position body) →
           playerController.updatePlayer now id body user db =
             (Ok (failure 400 "Player name cannot be empty."), db)) ∧
        (¬ text_or_missing (body_position body) →
           playerController.updatePlayer now id body user db =
             (Ok (failure 500 "Server error while updating player."), db)))).
Proof.
  split; [|split; [|split]]; intros body Hname.
  - by apply updateTeam_blank.
  - by apply updatePlayer_blank.
  - by apply updateTeam_blank_answers.
  - by apply updatePlayer_blank_answers.
Qed.

(** C8, as stated, fails: with a name of white space, a team update with
    the description 5 and a player update with the position 5 are not
    answered as validation errors but as server errors. Nothing is
    written. *)
Lemma update_blank_name_server_error :
  blank (body_team_name numbered_team_body) ∧
  blank (body_player_name numbered_player_body) ∧
  teamController.updateTeam 7 (lit "10") numbered_team_body 1 example_db =
    (Ok (failure 500 "Server error while updating team."), example_db) ∧
  playerController.updatePlayer 7 (lit "2") numbered_player_body 1 example_db =
    (Ok (failure 500 "Server error while updating player."), example_db).
Proof.
  split; [|split; [|split; by vm_compute]];
    right; exists (lit "   "); (split; [reflexivity|by vm_compute]).
Qed.

(** C9. A player update that succeeds with a team id that is missing,
    null or otherwise falsy leaves the player global and answers success
    with [data: null]: the lookup after the update joins to teams and finds
    no row. Such an update succeeds for every player of the caller. *)
Theorem updatePlayer_global_answers_null `{Platform}
    (now : Z) (id : text) (body : player_body) (user : Z) (db : database) :
  truthy (body_team_id body) = false →
  (∀ r db',
     playerController.updatePlayer now id body user db = (Ok r, db') →
     success r = true →
     status r = 200 ∧ data r = Some None ∧
     ∃ i p, bind_int4 (JStr id) = Ok (Some i) ∧ players db' !! i = Some p ∧
            player_user_id p = user ∧ team_id p = None) ∧
  (∀ i p s,
     int4_in id = Some i →
     players db !! i = Some p → player_user_id p = user →
     body_player_name body = JStr s →
     trim s ≠ [] → 0%N ∉ trim s → (length (trim s) ≤ 255)%nat →
     truthy (body_position body) = false →
     truthy (body_jersey_number body) = false →
     playerController.updatePlayer now id body user db =
       (Ok {| status := 200; success := true;
              message := Some "Player updated successfully."%string;
              count := None; data := Some None |},
        set_players (insert i
          {| player_name := trim s; position := None; jersey_number := None;
             team_id := None; player_user_id := player_user_id p;
             player_created_at := player_created_at p;
             player_updated_at := now |}) db)).
Proof.
  intros Ht. split.
  - intros r db' Hrun Hok.
    apply updatePlayer_success in Hrun
      as (i & p & name & pos & number & ref & Hid & Hp & Hu & _ & Href & -> & Hs & Hd);
      [|done].
    rewrite (js_or_falsy _ _ Ht) in Href. injection Href as <-.
    split; [done|]. split.
    + rewrite Hd. unfold found_player, owned_player. simpl.
      rewrite lookup_insert_eq. simpl. by rewrite decide_True.
    + eexists i, _. simpl. rewrite lookup_insert_eq. done.
  - intros i p s ? ? ? ? ? ? ? ? ?. by apply updatePlayer_global.
Qed.

Section createPlayer.
Context `{Platform}.

Lemma createPlayer_stored now body user db r db' i p :
  playerController.createPlayer now body user db = (Ok r, db') →
  data r = Some (i, p) →
  status r = 201 ∧ players db' !! i = Some p ∧
  (truthy (body_jersey_number body) = false → jersey_number p = None) ∧
  (truthy (body_team_id body) = false → team_id p = None).
Proof.
  unfold playerController.createPlayer. rewrite try_catch_run.
  destruct (truthy (body_player_name body)); simpl; [|by intros [= <- _]].
  rewrite bind_lift.
  destruct (js_trim (body_player_name body)) as [cleanPlayerName|]; [|by intros [= <- _]].
  rewrite bind_lift.
  destruct (trim_or (body_position body) _) as [cleanPosition|]; [|by intros [= <- _]].
  destruct (decide _); [by intros [= <- _]|].
  rewrite bind_run.
  destruct (Player.create _ _ _ _ _ _ _) as [[[i' p']|] db1] eqn:Hc; [|by intros [= <- _]].
  intros [= <- <-]. simpl. intros [= -> ->].
  apply Player_create_success in Hc
    as (name & pos & number & ref & Hpar & -> & -> & Hfree & Hplayers & _).
  apply player_params_inv in Hpar as (_ & _ & Hnum & Href).
  split; [done|]. split; [by rewrite Hplayers, lookup_insert_eq|]. simpl. split.
  - intros Hv. rewrite (js_or_falsy _ _ Hv) in Hnum. by injection Hnum.
  - intros Hv. rewrite (js_or_falsy _ _ Hv) in Href. by injection Href.
Qed.
End createPlayer.

(** C10. In player create and player update a falsy jersey number or team
    id, the number 0 among them, is stored as NULL: the row the create
    answers with, and the row a successful update wrote, have no jersey
    number and no team. On the reference platform a player created or
    updated with jersey number 0 and team id 0 is stored with neither. *)
Theorem falsy_number_and_team_are_null :
  (∀ `{Platform} (now : Z) (body : player_body) (user : Z) (db : database),
     (∀ r db' i p,
        playerController.createPlayer now body user db = (Ok r, db') →
        data r = Some (i, p) →
        status r = 201 ∧ players db' !! i = Some p ∧
        (truthy (body_jersey_number body) = false → jersey_number p = None) ∧
        (truthy (body_team_id body) = false → team_id p = None)) ∧
     (∀ id r db',
        playerController.updatePlayer now id body user db = (Ok r, db') →
        success r = true →
        ∃ i p, bind_int4 (JStr id) = Ok (Some i) ∧ players db' !! i = Some p ∧
               (truthy (body_jersey_number body) = false → jersey_number p = None) ∧
               (truthy (body_team_id body) = false → team_id p = None))) ∧
  truthy (JNum 0) = false ∧
  (∃ r db', playerController.createPlayer 7 zero_body 1 example_db = (Ok r, db') ∧
     status r = 201 ∧
     ∃ p, data r = Some (4, p) ∧ players db' !! 4 = Some p ∧
          jersey_number p = None ∧ team_id p = None) ∧
  (∃ r db', playerController.updatePlayer 7 (lit "2") zero_body 1 example_db = (Ok r, db') ∧
     success r = true ∧
     ∃ p, players db' !! 2 = Some p ∧ jersey_number p = None ∧ team_id p = None).
Proof.
  split; [|split; [done|split]].
  - intros ? now body user db. split.
    + apply createPlayer_stored.
    + intros id r db' Hrun Hok.
      apply updatePlayer_success in Hrun
        as (i & p & name & pos & number & ref & Hid & Hp & Hu & Hnum & Href & -> & _);
        [|done].
      eexists i, _. split; [done|]. simpl. rewrite lookup_insert_eq.
      split; [done|]. simpl. split.
      * intros Hv. rewrite (js_or_falsy _ _ Hv) in Hnum. by injection Hnum.
      * intros Hv. rewrite (js_or_falsy _ _ Hv) in Href. by injection Href.
  - eexists _, _. split; [by vm_compute|]. split; [done|].
    eexists. split; [done|]. by vm_compute.
  - eexists _, _. split; [by vm_compute|]. split; [done|].
    eexists. split; [by vm_compute|]. done.
Qed.

(** ** The theorems at work on the example database *)

(** User 1 deletes the Lions: Amy stays, with no team. *)
Lemma team_delete_keeps_players_witness :
  ∃ db', Team.delete (JNum 10) 1 example_db = (Ok true, db') ∧
         teams db' !! 10 = None ∧
         players db' !! 2 = Some (example_player "Amy" None 1).
Proof.
  destruct (team_delete_keeps_players example_db (JNum 10) 10 1 (example_team "Lions" 1))
    as (db' & Hdel & Hgone & Hmine & _); [reflexivity..|].
  exists db'. split; [exact Hdel|]. split; [exact Hgone|].
  apply (Hmine 2 (example_player "Amy" (Some 10) 1)); reflexivity.
Defined.


(** Zed is global: not found by id, listed among the global players. Amy
    is found, with the Lions and their colour. *)
Lemma global_player_is_not_found_by_id_witness :
  Player.findById (JNum 1) 1 example_db = (Ok None, example_db) ∧
  (∃ rows, Player.findGlobalPlayers 1 example_db = (Ok rows, example_db) ∧
           player_columns (1, example_player "Zed" None 1) ∈ rows) ∧
  ∃ found,
    Player.findById (JNum 2) 1 example_db = (Ok (Some found), example_db) ∧
    pf_id found = 2 ∧ pf_player_name found = lit "Amy" ∧
    pf_team_id found = Some 10 ∧
    pf_team_name found = lit "Lions" ∧ pf_team_color found = Some (lit "#0ea5e9").
Proof.
  destruct (global_player_is_not_found_by_id example_db (JNum 1) 1 1
              (example_player "Zed" None 1)) as (Hglobal & _); [reflexivity..|].
  destruct (global_player_is_not_found_by_id example_db (JNum 2) 2 1
              (example_player "Amy" (Some 10) 1)) as (_ & Hteam); [reflexivity..|].
  destruct Hglobal as (Hnone & Hlisted); [reflexivity|].
  split; [exact Hnone|]. split; [exact Hlisted|].
  destruct (Hteam 10 eq_refl example_db_references_exist)
    as (t & found & Ht & Hfound & _ & Hid & Hname & _ & _ & Href & Hteam_name & Hcolor & _).
  assert (t = example_team "Lions" 1) as -> by (by injection Ht).
  exists found. split; [exact Hfound|].
  split; [exact Hid|]. split; [exact Hname|]. split; [exact Href|].
  split; [exact Hteam_name|exact Hcolor].
Defined.

(** The players of user 1, listed. *)
Lemma listByOwner_order_witness :
  ∃ rows, Player.findAllByUserId 1 example_db = (Ok rows, example_db) ∧
          StronglySorted listed_order rows.
Proof.
  destruct (proj1 listByOwner_order reference_platform example_db 1)
    as (rows & Hrun & _ & _ & Hsorted & _).
  by exists rows.
Defined.

(** User 1 searches for lions, a text without special characters. *)
Lemma search_matches_substring_witness :
  ∃ rows, Player.search (lit "lions") 1 example_db = (Ok rows, example_db) ∧
          NoDup (pl_id <$> rows).
Proof.
  destruct (proj1 search_matches_substring reference_platform example_db 1 (lit "lions"))
    as (rows & Hrun & _ & Hnodup & _).
  - apply (bool_decide_unpack _). vm_compute. exact I.
  - by exists rows.
Defined.

Lemma blank_team_body_blank : blank (body_team_name blank_team_body).
Proof. right. exists (lit "   "). split; [reflexivity|]. by vm_compute. Qed.

(** User 2 is refused a team of no name and gets the Tigers with every
    default. *)
Lemma createTeam_validates_and_defaults_witness :
  (∃ msg, teamController.createTeam 7 blank_team_body 2 example_db =
            (Ok (failure 400 msg), example_db)) ∧
  ∃ db', teamController.createTeam 7 tigers_body 2 example_db =
    (Ok {| status := 201; success := true;
           message := Some "Team created successfully."%string; count := None;
           data := Some (11, {| team_name := lit "Tigers";
                                team_logo := Some default_logo;
                                team_color := Some default_color;
                                description := Some [];
                                team_user_id := 2;
                                team_created_at := 7; team_updated_at := 7 |}) |},
     db').
Proof.
  split.
  - apply (proj1 (createTeam_validates_and_defaults 7 blank_team_body 2 example_db)).
    + apply blank_team_body_blank.
    + by left.
    + by left.
  - eexists.
    apply (proj1 (proj2 (proj2
      (createTeam_validates_and_defaults 7 tigers_body 2 example_db))) (lit " Tigers "));
      try reflexivity.
    + by vm_compute.
    + intros Hin. apply (bool_decide_pack _) in Hin. vm_compute in Hin. exact Hin.
    + vm_compute. lia.
    + by vm_compute.
Defined.

(** User 1 renames the Lions and Amy to white space: both are refused. *)
Lemma update_blank_name_writes_nothing_witness :
  (∃ msg, teamController.updateTeam 7 (lit "10") blank_team_body 1 example_db =
            (Ok (failure 400 msg), example_db)) ∧
  (∃ msg, playerController.updatePlayer 7 (lit "2") blank_player_body 1 example_db =
            (Ok (failure 400 msg), example_db)).
Proof.
  destruct (update_blank_name_writes_nothing 7 (lit "10") 1 example_db) as (Ht & _).
  destruct (update_blank_name_writes_nothing 7 (lit "2") 1 example_db) as (_ & Hp & _).
  split.
  - apply (Ht blank_team_body); [apply blank_team_body_blank|by left..].
  - apply (Hp blank_player_body); [|by left].
    right. exists (lit "   "). split; [reflexivity|]. by vm_compute.
Defined.

Lemma updatePlayer_global_answers_null_witness :
  ∃ db', playerController.updatePlayer 7 (lit "2") amy_global_body 1 example_db =
    (Ok {| status := 200; success := true;
           message := Some "Player updated successfully."%string;
           count := None; data := Some None |}, db').
Proof.
  eexists.
  apply (proj2 (updatePlayer_global_answers_null 7 (lit "2") amy_global_body 1 example_db
                  eq_refl) 2 (example_player "Amy" (Some 10) 1) (lit "Amy"));
    try reflexivity.
  - by vm_compute.
  - intros Hin. apply (bool_decide_pack _) in Hin. vm_compute in Hin. exact Hin.
  - vm_compute. lia.
Defined.

(** Kay, created with number 0 on team 0, is stored with neither. *)
Lemma falsy_number_and_team_are_null_witness :
  ∃ p, players (playerController.createPlayer 7 zero_body 1 example_db).2 !! 4 = Some p ∧
       jersey_number p = None ∧ team_id p = None.
Proof.
  destruct (playerController.createPlayer 7 zero_body 1 example_db) as [r db'] eqn:Hrun.
  assert (∃ r0 p, r = Ok r0 ∧ data r0 = Some (4, p)) as (r0 & p & -> & Hdata).
  { vm_compute in Hrun. injection Hrun as <- _. by eexists _, _. }
  destruct (proj1 (proj1 falsy_number_and_team_are_null
                     reference_platform 7 zero_body 1 example_db) r0 db' 4 p Hrun Hdata)
    as (_ & Hp & Hnum & Hteam).
  exists p. split; [exact Hp|]. split; [by apply Hnum|by apply Hteam].
Defined.

(** ** Listings of teams, rosters and global players *)

Section more_listings.
Context `{Platform}.

Global Instance roster_order_total : Total roster_order.
Proof. unfold roster_order. apply _. Qed.

Global Instance roster_order_trans : Transitive roster_order.
Proof. unfold roster_order. apply _. Qed.

Lemma roster_order_spelled a b : roster_listed_order a b → in_roster_order a b.
Proof.
  unfold roster_listed_order, lex, on, in_roster_order. intros (H1 & H2).
  split; [|split].
  - intros Ha. rewrite Ha in H1. destruct (pi_position b); [lia|done].
  - intros Ha Hb. rewrite Ha, Hb in H2. destruct H2 as [_ H3]; [lia|]. by apply H3.
  - intros x y Ha Hb. rewrite Ha, Hb in H2. destruct H2 as [H2 H3]; [lia|]. done.
Qed.

(** A sorted selection, projected: the rows of the selection, each once, in
    the order of the sort. *)
Lemma sorted_select {A B} (tbl : gmap Z A) (cond : Z * A → Prop)
    `{∀ r, Decision (cond r)} (R : relation (Z * A)) `{∀ a b, Decision (R a b)}
    `{!Total R} `{!Transitive R} (f : Z * A → B) (R' : relation B) (key : B → Z) :
  (∀ a b, R a b → R' (f a) (f b)) →
  (∀ r, key (f r) = r.1) →
  let rows := f <$> merge_sort R (select_where tbl cond) in
  rows ≡ₚ f <$> select_where tbl cond ∧
  NoDup (key <$> rows) ∧
  StronglySorted R' rows.
Proof.
  intros HR Hkey rows. unfold rows. split; [|split].
  - by rewrite merge_sort_Permutation.
  - rewrite merge_sort_Permutation, <-list_fmap_compose.
    rewrite (list_fmap_ext (key ∘ f) fst) by (intros; apply Hkey).
    apply NoDup_select_keys.
  - apply (StronglySorted_fmap _ R); [done|].
    by apply StronglySorted_merge_sort.
Qed.
End more_listings.

Lemma select_where_filter {A} (tbl : gmap Z A) (cond : Z * A → Prop)
    `{∀ r, Decision (cond r)} :
  select_where tbl cond ≡ₚ map_to_list (filter cond tbl).
Proof.
  apply NoDup_Permutation.
  - apply NoDup_filter, NoDup_map_to_list.
  - apply NoDup_map_to_list.
  - intros [i a]. rewrite (select_where_elem tbl cond (i, a)).
    by rewrite elem_of_map_to_list, map_lookup_filter_Some.
Qed.

(** rowCount of a SELECT is the number of rows of the table that satisfy
    its WHERE. *)
Lemma length_select_where {A} (tbl : gmap Z A) (cond : Z * A → Prop)
    `{∀ r, Decision (cond r)} :
  length (select_where tbl cond) = size (filter cond tbl).
Proof. by rewrite select_where_filter, length_map_to_list. Qed.

Lemma filter_ext_in {A} (P Q : A → Prop) `{∀ x, Decision (P x)} `{∀ x, Decision (Q x)}
    (l : list A) :
  (∀ x, x ∈ l → P x ↔ Q x) → filter P l = filter Q l.
Proof.
  induction l as [|x l IH]; intros HPQ; [done|].
  assert (filter P l = filter Q l) as Hl.
  { apply IH. intros y Hy. apply HPQ. by right. }
  destruct (decide (P x)) as [HP|HP].
  - rewrite !filter_cons_True; [by rewrite Hl|by apply HPQ; [left|]|done].
  - rewrite !filter_cons_False; [done| |done]. intros HQ. apply HP. apply HPQ; [left|done].
Qed.

Lemma select_where_ext {A} (tbl : gmap Z A) (P Q : Z * A → Prop)
    `{∀ r, Decision (P r)} `{∀ r, Decision (Q r)} :
  (∀ i a, tbl !! i = Some a → P (i, a) ↔ Q (i, a)) →
  select_where tbl P = select_where tbl Q.
Proof.
  intros HPQ. apply filter_ext_in. intros [i a] Hin.
  apply HPQ. by apply elem_of_map_to_list.
Qed.

(** X1. The listing of a user's teams answers with exactly the teams of
    that user, each once, sorted by team name; the listing with player
    counts answers with the same teams, each once, sorted by team name as
    well.  Teams of one name come in an order the statements leave open,
    so the two listings are compared up to a permutation. *)
Theorem team_listing_sorted `{Platform} (db : database) (ownerId : Z) :
  ∃ rows counted,
    Team.findAllByUserId ownerId db = (Ok rows, db) ∧
    Team.findAllWithPlayerCounts ownerId db = (Ok counted, db) ∧
    counted.*1 ≡ₚ rows ∧
    StronglySorted team_listed_order (counted.*1) ∧
    (∀ r, r ∈ rows ↔
       ∃ i t, r = team_columns (i, t) ∧ teams db !! i = Some t ∧
              team_user_id t = ownerId) ∧
    NoDup (ti_id <$> rows) ∧
    StronglySorted team_listed_order rows ∧
    ∀ i j a b, (i < j)%nat → rows !! i = Some a → rows !! j = Some b →
      collate (ti_team_name a) (ti_team_name b).
Proof.
  eexists _, _. split; [reflexivity|]. split; [reflexivity|].
  destruct (sorted_select (teams db) (λ r, team_user_id r.2 = ownerId)
              (on (λ r : Z * team, team_name r.2) collate)
              team_columns team_listed_order ti_id) as (Hperm & Hnodup & Hsorted);
    [done..|].
  split; [by rewrite <-list_fmap_compose|].
  split; [by rewrite <-list_fmap_compose|].
  split; [|split; [done|split; [done|]]].
  - intros r. rewrite elem_of_sorted_select. split.
    + intros ([i t] & -> & Ht & Hu). by exists i, t.
    + intros (i & t & -> & Ht & Hu). by exists (i, t).
  - intros i j a b Hij Ha Hb.
    by apply (StronglySorted_pairs team_listed_order _ i j a b Hsorted).
Qed.

(** X2. Global players: the listing answers with exactly the caller's
    players that have no team, each once, sorted by name. *)
Theorem global_players_listing `{Platform} (db : database) (ownerId : Z) :
  ∃ rows,
    Player.findGlobalPlayers ownerId db = (Ok rows, db) ∧
    (∀ r, r ∈ rows ↔
       ∃ i p, r = player_columns (i, p) ∧ players db !! i = Some p ∧
              player_user_id p = ownerId ∧ team_id p = None) ∧
    NoDup (pi_id <$> rows) ∧
    ∀ i j a b, (i < j)%nat → rows !! i = Some a → rows !! j = Some b →
      collate (pi_player_name a) (pi_player_name b).
Proof.
  eexists. split; [reflexivity|].
  destruct (sorted_select (players db)
              (λ r, player_user_id r.2 = ownerId ∧ team_id r.2 = None)
              (on (λ r : Z * player, player_name r.2) collate)
              player_columns (on pi_player_name collate) pi_id)
    as (Hperm & Hnodup & Hsorted); [done..|].
  split; [|split; [done|]].
  - intros r. rewrite elem_of_sorted_select. split.
    + intros ([i p] & -> & Hp & Hu & Ht). by exists i, p.
    + intros (i & p & -> & Hp & Hu & Ht). by exists (i, p).
  - intros i j a b Hij Ha Hb.
    by apply (StronglySorted_pairs (on pi_player_name collate) _ i j a b Hsorted).
Qed.

Section rosters.
Context `{Platform}.

Lemma roster_sorted db (cond : Z * player → Prop) `{∀ r, Decision (cond r)} :
  let rows := player_columns <$> merge_sort roster_order (select_where (players db) cond) in
  NoDup (pi_id <$> rows) ∧
  StronglySorted roster_listed_order rows ∧
  ∀ i j a b, (i < j)%nat → rows !! i = Some a → rows !! j = Some b →
    in_roster_order a b.
Proof.
  intros rows.
  destruct (sorted_select (players db) cond roster_order
              player_columns roster_listed_order pi_id)
    as (Hperm & Hnodup & Hsorted); [done..|].
  split; [done|]. split; [done|].
  intros i j a b Hij Ha Hb. apply roster_order_spelled.
  by apply (StronglySorted_pairs roster_listed_order _ i j a b Hsorted).
Qed.

Lemma Player_findAllByTeamId_eq db v u :
  Player.findAllByTeamId v u db =
  match bind_int4 v with
  | Ok ref =>
      (Ok (player_columns <$> merge_sort roster_order
             (select_where (players db)
                (λ r, is_Some ref ∧ team_id r.2 = ref ∧ player_user_id r.2 = u))), db)
  | Throw => (Throw, db)
  end.
Proof.
  unfold Player.findAllByTeamId. run_query. by destruct (bind_int4 v).
Qed.
End rosters.

(** X3. The roster of a team answers with exactly the caller's players on
    that team, each once: those with a position first, by position and
    then by name; those without a position last, by name. A team id of
    NULL has an empty roster. *)
Theorem team_roster_sorted `{Platform} (db : database) (teamId : jsval)
    (ref : option Z) (ownerId : Z) :
  bind_int4 teamId = Ok ref →
  ∃ rows,
    Player.findAllByTeamId teamId ownerId db = (Ok rows, db) ∧
    (∀ r, r ∈ rows ↔
       ∃ i p t, r = player_columns (i, p) ∧ players db !! i = Some p ∧
                ref = Some t ∧ team_id p = Some t ∧ player_user_id p = ownerId) ∧
    (ref = None → rows = []) ∧
    NoDup (pi_id <$> rows) ∧
    StronglySorted roster_listed_order rows ∧
    ∀ i j a b, (i < j)%nat → rows !! i = Some a → rows !! j = Some b →
      in_roster_order a b.
Proof.
  intros Hv. eexists. rewrite Player_findAllByTeamId_eq, Hv.
  split; [reflexivity|].
  assert (∀ r, r ∈ player_columns <$> merge_sort roster_order
             (select_where (players db)
                (λ r, is_Some ref ∧ team_id r.2 = ref ∧ player_user_id r.2 = ownerId)) ↔
            ∃ i p t, r = player_columns (i, p) ∧ players db !! i = Some p ∧
                ref = Some t ∧ team_id p = Some t ∧ player_user_id p = ownerId) as Hmem.
  { intros r. rewrite elem_of_sorted_select. split.
    - intros ([i p] & -> & Hp & [t ->] & Ht & Hu). by exists i, p, t.
    - intros (i & p & t & -> & Hp & -> & Ht & Hu). exists (i, p). eauto. }
  split; [done|]. split; [|apply roster_sorted].
  intros ->. unfold select_where. rewrite filter_none; [done|].
  by intros r _ [[? [=]] _].
Qed.

Lemma length_filter_impl {A} (P Q : A → Prop) `{∀ x, Decision (P x)}
    `{∀ x, Decision (Q x)} (l : list A) :
  (∀ x, x ∈ l → P x → Q x) → (length (filter P l) ≤ length (filter Q l))%nat.
Proof.
  induction l as [|x l IH]; intros HPQ; [done|].
  assert (length (filter P l) ≤ length (filter Q l))%nat as Hl.
  { apply IH. intros y Hy. apply HPQ. by right. }
  destruct (decide (P x)) as [HP|HP].
  - rewrite (filter_cons_True P), (filter_cons_True Q); [simpl; lia| |done].
    apply HPQ; [left|done].
  - rewrite (filter_cons_False P) by done.
    destruct (decide (Q x)).
    + rewrite filter_cons_True by done. simpl. lia.
    + by rewrite filter_cons_False.
Qed.

Section hierarchy.
Context `{Platform}.

Lemma owned_team_hit db u i t :
  teams db !! i = Some t → team_user_id t = u → owned_team db u (Some i) = Some (i, t).
Proof. intros Hi Hu. unfold owned_team. simpl. rewrite Hi. simpl. by rewrite decide_True. Qed.

Lemma owned_player_hit db u i p :
  players db !! i = Some p → player_user_id p = u →
  owned_player db u (Some i) = Some (i, p).
Proof. intros Hi Hu. unfold owned_player. simpl. rewrite Hi. simpl. by rewrite decide_True. Qed.

Lemma Team_getTeamHierarchy_eq db v u :
  Team.getTeamHierarchy v u db =
  match bind_int4 v with
  | Ok id =>
      match owned_team db u id with
      | Some r =>
          (Ok (Some (team_columns r,
                     player_columns <$> merge_sort roster_order
                       (select_where (players db)
                          (λ r, is_Some id ∧ team_id r.2 = id ∧ player_user_id r.2 = u)))),
           db)
      | None => (Ok None, db)
      end
  | Throw => (Throw, db)
  end.
Proof.
  unfold Team.getTeamHierarchy. rewrite bind_run, Team_findById_eq.
  destruct (bind_int4 v) as [id|] eqn:Hv; [|done].
  destruct (owned_team db u id) as [r|]; [|done]. simpl.
  by run_query.
Qed.
End hierarchy.

(** X4. The hierarchy of a team of the caller is the team as the lookup
    answers it, with the roster as the roster query answers it; for an id
    the caller owns no team under, the hierarchy is null whatever players
    there are. *)
Theorem team_hierarchy_is_team_with_roster `{Platform} (db : database) (v : jsval)
    (k : option Z) (ownerId : Z) :
  bind_int4 v = Ok k →
  (∀ id t, k = Some id → teams db !! id = Some t → team_user_id t = ownerId →
     ∃ roster,
       Team.findById v ownerId db = (Ok (Some (team_columns (id, t))), db) ∧
       Player.findAllByTeamId v ownerId db = (Ok roster, db) ∧
       Team.getTeamHierarchy v ownerId db =
         (Ok (Some (team_columns (id, t), roster)), db)) ∧
  ((∀ id, k = Some id → ¬ owns_team db ownerId id) →
     Team.getTeamHierarchy v ownerId db = (Ok None, db)).
Proof.
  intros Hv. rewrite Team_getTeamHierarchy_eq, Team_findById_eq,
    Player_findAllByTeamId_eq, Hv. split.
  - intros id t -> Ht Hu. rewrite (owned_team_hit _ _ _ t) by done. by eexists.
  - intros Hmiss. destruct (owned_team db ownerId k) as [[i t]|] eqn:Hown; [|done].
    apply owned_team_Some in Hown as (-> & Ht & Hu).
    destruct (Hmiss i eq_refl). by exists t.
Qed.

(** X5. The player count of a team of the caller is the number of players
    whose team id is that team's, whoever owns them; the listing with
    counts reports the same number; the caller's own count and roster of
    the team are no larger, and equal to it when every player is on a team
    of its own user. *)
Theorem team_player_count `{Platform} (db : database) (v : jsval) (id ownerId : Z)
    (t : team) :
  bind_int4 v = Ok (Some id) →
  teams db !! id = Some t →
  team_user_id t = ownerId →
  let n := size (filter (λ r : Z * player, team_id r.2 = Some id) (players db)) in
  Team.findByIdWithPlayerCount v ownerId db = (Ok (Some (team_columns (id, t), n)), db) ∧
  (∃ counted,
     Team.findAllWithPlayerCounts ownerId db = (Ok counted, db) ∧
     (team_columns (id, t), n) ∈ counted ∧
     ∀ info m, (info, m) ∈ counted → ti_id info = id → m = n) ∧
  ∃ c roster,
    Player.countByTeamId v ownerId db = (Ok c, db) ∧
    Player.findAllByTeamId v ownerId db = (Ok roster, db) ∧
    c = length roster ∧ (c ≤ n)%nat ∧ (same_owner db → c = n).
Proof.
  intros Hv Ht Hu n.
  assert (Team.player_count db id = n) as Hn by apply length_select_where.
  split; [|split].
  - rewrite Team_findByIdWithPlayerCount_eq, Hv, (owned_team_hit _ _ _ t) by done.
    simpl. by rewrite Hn.
  - eexists. split; [reflexivity|]. split.
    + apply elem_of_sorted_select. exists (id, t). simpl. by rewrite Hn.
    + intros info m Hin Hid.
      apply elem_of_sorted_select in Hin as ([i t'] & [= -> ->] & _).
      simpl in Hid. by subst i.
  - eexists _, _. unfold Player.countByTeamId. run_query.
    rewrite Player_findAllByTeamId_eq, Hv. run_query.
    split; [reflexivity|]. split; [reflexivity|].
    rewrite length_fmap, merge_sort_Permutation. split; [done|].
    rewrite <-Hn. unfold Team.player_count. split.
    + apply length_filter_impl. by intros r _ (_ & ? & _).
    + intros Hown. f_equal. apply select_where_ext. intros i p Hp. simpl.
      split; [by intros (_ & ? & _)|]. intros Href. split; [done|]. split; [done|].
      specialize (Hown i p Hp). unfold same_owner_ref in Hown.
      rewrite Href, Ht in Hown. congruence.
Qed.

(** X6. Every player of a user is on exactly one list: a player without a
    team is among the user's global players and on no roster; a player
    with a team is not among the global players and is on the roster of
    its team and of no other. *)
Theorem global_or_on_one_roster `{Platform} (db : database) (ownerId id : Z)
    (p : player) :
  players db !! id = Some p →
  player_user_id p = ownerId →
  ∃ globals,
    Player.findGlobalPlayers ownerId db = (Ok globals, db) ∧
    (team_id p = None →
       player_columns (id, p) ∈ globals ∧
       ∀ v roster, Player.findAllByTeamId v ownerId db = (Ok roster, db) →
                   id ∉ (pi_id <$> roster)) ∧
    (∀ ref, team_id p = Some ref →
       (id ∉ (pi_id <$> globals)) ∧
       ∀ v roster, Player.findAllByTeamId v ownerId db = (Ok roster, db) →
                   (id ∈ pi_id <$> roster ↔ bind_int4 v = Ok (Some ref)) ∧
                   (bind_int4 v = Ok (Some ref) → player_columns (id, p) ∈ roster)).
Proof.
  intros Hp Hu. eexists. split; [reflexivity|].
  assert (∀ v roster, Player.findAllByTeamId v ownerId db = (Ok roster, db) →
    ∀ r, r ∈ roster ↔ ∃ i q, r = player_columns (i, q) ∧ players db !! i = Some q ∧
           bind_int4 v = Ok (team_id q) ∧ is_Some (team_id q) ∧
           player_user_id q = ownerId) as Hroster.
  { intros v roster. rewrite Player_findAllByTeamId_eq.
    destruct (bind_int4 v) as [k|]; [|done]. intros [= <-] r.
    rewrite elem_of_sorted_select. split.
    - intros ([i q] & -> & Hq & Hk & <- & Hq'). by exists i, q.
    - intros (i & q & -> & Hq & [= ->] & Hk & Hq'). by exists (i, q). }
  split.
  - intros Href. split.
    + apply elem_of_sorted_select. by exists (id, p).
    + intros v roster Hrun Hin. apply list_elem_of_fmap in Hin as (r & -> & Hr).
      apply (Hroster _ _ Hrun) in Hr as (i & q & -> & Hq & _ & [ref Hq'] & _).
      simpl in *. congruence.
  - intros ref Href. split.
    + intros Hin. apply list_elem_of_fmap in Hin as (r & Hid & Hr).
      apply elem_of_sorted_select in Hr as ([i q] & -> & Hq & _ & Hnone).
      simpl in *. congruence.
    + intros v roster Hrun. split; [split|].
      * intros Hin. apply list_elem_of_fmap in Hin as (r & -> & Hr).
        apply (Hroster _ _ Hrun) in Hr as (i & q & -> & Hq & Hv & _).
        simpl in *. congruence.
      * intros Hv. apply list_elem_of_fmap. exists (player_columns (id, p)).
        split; [done|]. apply (Hroster _ _ Hrun). exists id, p.
        rewrite Href. eauto.
      * intros Hv. apply (Hroster _ _ Hrun). exists id, p. rewrite Href. eauto.
Qed.

(** X7. The counts are the lengths of the listings: the team count of a
    user is the number of rows of its team listing, its player count the
    number of rows of its player listing, and that is the number of its
    global players plus the number of its players with a team. *)
Theorem counts_are_listing_lengths `{Platform} (db : database) (ownerId : Z) :
  ∃ team_rows player_rows globals,
    Team.findAllByUserId ownerId db = (Ok team_rows, db) ∧
    Player.findAllByUserId ownerId db = (Ok player_rows, db) ∧
    Player.findGlobalPlayers ownerId db = (Ok globals, db) ∧
    Team.countByUserId ownerId db = (Ok (length team_rows), db) ∧
    Player.countByUserId ownerId db = (Ok (length player_rows), db) ∧
    length player_rows =
      (length globals +
       size (filter (λ r : Z * player, player_user_id r.2 = ownerId ∧ team_id r.2 ≠ None)
               (players db)))%nat.
Proof.
  eexists _, _, _. split; [reflexivity|]. split; [reflexivity|]. split; [reflexivity|].
  assert (length (listed_columns <$> merge_sort listing_order
            (filter (λ r : joined, player_user_id r.1.2 = ownerId) (left_join_teams db))) =
          length (select_where (players db) (λ r, player_user_id r.2 = ownerId))) as Hlen.
  { rewrite length_fmap, merge_sort_Permutation, filter_left_join.
    unfold joined_rows. by rewrite length_fmap. }
  split; [|split].
  - unfold Team.countByUserId. run_query.
    by rewrite length_fmap, merge_sort_Permutation.
  - unfold Player.countByUserId. run_query. by rewrite Hlen.
  - rewrite Hlen, (length_fmap player_columns), merge_sort_Permutation.
    rewrite <-length_select_where.
    unfold select_where. induction (map_to_list (players db)) as [|r l IH]; [done|].
    destruct (decide (player_user_id r.2 = ownerId)) as [Hu|Hu].
    + rewrite (filter_cons_True (λ r, player_user_id r.2 = ownerId)) by done.
      destruct (decide (team_id r.2 = None)) as [Ht|Ht].
      * rewrite (filter_cons_True (λ r, _ ∧ team_id r.2 = None)) by done.
        rewrite (filter_cons_False (λ r, _ ∧ team_id r.2 ≠ None)) by tauto.
        simpl. by rewrite IH.
      * rewrite (filter_cons_False (λ r, _ ∧ team_id r.2 = None)) by tauto.
        rewrite (filter_cons_True (λ r, _ ∧ team_id r.2 ≠ None)) by done.
        simpl. rewrite IH. lia.
    + rewrite !filter_cons_False by tauto. done.
Qed.

(** The roster of the Lions, asked by their owner. *)
Lemma team_roster_sorted_witness :
  ∃ rows, Player.findAllByTeamId (JNum 10) 1 example_db = (Ok rows, example_db) ∧
          player_columns (2, example_player "Amy" (Some 10) 1) ∈ rows ∧
          StronglySorted roster_listed_order rows.
Proof.
  destruct (team_roster_sorted example_db (JNum 10) (Some 10) 1)
    as (rows & Hrun & Hmem & _ & _ & Hsorted & _); [reflexivity|].
  exists rows. split; [exact Hrun|]. split; [|exact Hsorted].
  apply Hmem. exists 2, (example_player "Amy" (Some 10) 1), 10.
  repeat split; reflexivity.
Defined.

(** The hierarchy of the Lions, asked by their owner and by user 2. *)
Lemma team_hierarchy_is_team_with_roster_witness :
  (∃ roster,
     Player.findAllByTeamId (JNum 10) 1 example_db = (Ok roster, example_db) ∧
     Team.getTeamHierarchy (JNum 10) 1 example_db =
       (Ok (Some (team_columns (10, example_team "Lions" 1), roster)), example_db)) ∧
  Team.getTeamHierarchy (JNum 10) 2 example_db = (Ok None, example_db).
Proof.
  split.
  - destruct (team_hierarchy_is_team_with_roster example_db (JNum 10) (Some 10) 1)
      as (Hown & _); [reflexivity|].
    destruct (Hown 10 (example_team "Lions" 1)) as (roster & _ & Hroster & Hrun);
      [reflexivity..|].
    exists roster. split; [exact Hroster|exact Hrun].
  - destruct (team_hierarchy_is_team_with_roster example_db (JNum 10) (Some 10) 2)
      as (_ & Hmiss); [reflexivity|].
    apply Hmiss. intros id [= <-] (t & Ht & Hu).
    assert (teams example_db !! 10 = Some (example_team "Lions" 1)) as Hlions
      by reflexivity.
    rewrite Hlions in Ht. injection Ht as <-. discriminate Hu.
Defined.

(** The Lions have one player. *)
Lemma team_player_count_witness :
  Team.findByIdWithPlayerCount (JNum 10) 1 example_db =
    (Ok (Some (team_columns (10, example_team "Lions" 1), 1%nat)), example_db) ∧
  Player.countByTeamId (JNum 10) 1 example_db = (Ok 1%nat, example_db).
Proof.
  destruct (team_player_count example_db (JNum 10) 10 1 (example_team "Lions" 1))
    as (Hcount & _ & c & roster & Hc & _ & _ & _ & Hsame); [reflexivity..|].
  split; [exact Hcount|].
  rewrite Hc, (Hsame example_db_same_owner). reflexivity.
Defined.

(** Zed is global, Amy is with the Lions. *)
Lemma global_or_on_one_roster_witness :
  ∃ globals,
    Player.findGlobalPlayers 1 example_db = (Ok globals, example_db) ∧
    player_columns (1, example_player "Zed" None 1) ∈ globals ∧
    2 ∉ (pi_id <$> globals).
Proof.
  destruct (global_or_on_one_roster example_db 1 1 (example_player "Zed" None 1))
    as (globals & Hrun & Hglobal & _); [reflexivity..|].
  destruct (global_or_on_one_roster example_db 1 2 (example_player "Amy" (Some 10) 1))
    as (globals' & Hrun' & _ & Hteam); [reflexivity..|].
  rewrite Hrun in Hrun'. injection Hrun' as <-.
  exists globals. split; [exact Hrun|]. split.
  - apply Hglobal. reflexivity.
  - apply (Hteam 10). reflexivity.
Defined.

(** ** What a write changes *)

Section writes.
Context `{Platform}.

Lemma run_row_change c db : row_change (caller c) db (run c db).
Proof.
  destruct c; simpl.
  - rewrite Team_create_eq.
    destruct (team_params _ _ _ _) as [[[[name logo] color] descr]|];
      [|by apply Unchanged].
    destruct (bool_decide _); [|by apply Unchanged].
    destruct name as [name|]; [|by apply Unchanged].
    unfold insert_team. destruct (decide _) as [[Hfree Hu]|]; [|by apply Unchanged].
    simpl in Hfree. eapply TeamAdded; [exact Hfree| |reflexivity..].
    done.
  - rewrite Team_update_eq.
    destruct (team_params _ _ _ _) as [[[[name logo] color] descr]|]; [|by apply Unchanged].
    destruct (bind_int4 id) as [k|]; [|by apply Unchanged].
    destruct (owned_team db userId k) as [[i t]|] eqn:Hown; [|by apply Unchanged].
    apply owned_team_Some in Hown as (_ & Hi & Hu).
    destruct name as [name|]; [|by apply Unchanged].
    eapply (TeamChanged _ _ _ i t); [done|done| | |reflexivity|done]; done.
  - rewrite Team_delete_eq.
    destruct (bind_int4 id) as [k|]; [|by apply Unchanged].
    destruct (owned_team db userId k) as [[i t]|] eqn:Hown; [|by apply Unchanged].
    apply owned_team_Some in Hown as (_ & Hi & Hu).
    apply (TeamRemoved _ _ _ i t); simpl; done.
  - rewrite Player_create_eq.
    destruct (player_params _ _ _ _) as [[[[name pos] number] ref]|];
      [|by apply Unchanged].
    destruct (bool_decide _); [|by apply Unchanged].
    destruct name as [name|]; [|by apply Unchanged].
    unfold insert_player. destruct (decide _) as [(Hfree & Hfk & Hu)|]; [|by apply Unchanged].
    simpl in Hfree. eapply PlayerAdded; [exact Hfree| |reflexivity..].
    done.
  - rewrite Player_update_eq.
    destruct (player_params _ _ _ _) as [[[[name pos] number] ref]|]; [|by apply Unchanged].
    destruct (bind_int4 id) as [k|]; [|by apply Unchanged].
    destruct (owned_player db userId k) as [[i p]|] eqn:Hown; [|by apply Unchanged].
    apply owned_player_Some in Hown as (_ & Hi & Hu).
    destruct name as [name|]; [|by apply Unchanged].
    destruct (decide _); [|by apply Unchanged].
    eapply (PlayerChanged _ _ _ i p); [done|done| | |done|reflexivity]; done.
  - rewrite Player_assignToTeam_eq.
    destruct (bind_int4 teamId) as [ref|]; [|by apply Unchanged].
    destruct (bind_int4 playerId) as [k|]; [|by apply Unchanged].
    destruct (owned_player db userId k) as [[i p]|] eqn:Hown; [|by apply Unchanged].
    apply owned_player_Some in Hown as (_ & Hi & Hu).
    destruct (decide _); [|by apply Unchanged].
    eapply (PlayerChanged _ _ _ i p); [done|done| | |done|reflexivity]; done.
  - rewrite Player_unassignFromTeam_eq.
    destruct (bind_int4 playerId) as [k|]; [|by apply Unchanged].
    destruct (owned_player db userId k) as [[i p]|] eqn:Hown; [|by apply Unchanged].
    apply owned_player_Some in Hown as (_ & Hi & Hu).
    eapply (PlayerChanged _ _ _ i p); [done|done| | |done|reflexivity]; done.
  - rewrite Player_delete_eq.
    destruct (bind_int4 id) as [k|]; [|by apply Unchanged].
    destruct (owned_player db userId k) as [[i p]|] eqn:Hown; [|by apply Unchanged].
    apply owned_player_Some in Hown as (_ & Hi & Hu).
    apply (PlayerRemoved _ _ _ i p); simpl; done.
Qed.

(** The users and the sequences: no write touches the users, and the two
    creates advance their sequence by at most one. *)
Lemma run_sequences c db :
  users (run c db) = users db ∧
  (teams_id_seq (run c db) = teams_id_seq db ∨
   teams_id_seq (run c db) = teams_id_seq db + 1) ∧
  (players_id_seq (run c db) = players_id_seq db ∨
   players_id_seq (run c db) = players_id_seq db + 1).
Proof.
  destruct c; simpl.
  - rewrite Team_create_eq.
    destruct (team_params _ _ _ _) as [[[[name logo] color] descr]|]; simpl; auto.
    destruct (bool_decide _); simpl; auto.
    destruct name as [name|]; simpl; auto.
    unfold insert_team. destruct (decide _); simpl; auto.
  - rewrite Team_update_eq.
    destruct (team_params _ _ _ _) as [[[[name logo] color] descr]|]; simpl; auto.
    destruct (bind_int4 id) as [k|]; simpl; auto.
    destruct (owned_team db userId k) as [[i t]|]; simpl; auto.
    destruct name; simpl; auto.
  - rewrite Team_delete_eq.
    destruct (bind_int4 id) as [k|]; simpl; auto.
    destruct (owned_team db userId k) as [[i t]|]; simpl; auto.
  - rewrite Player_create_eq.
    destruct (player_params _ _ _ _) as [[[[name pos] number] ref]|]; simpl; auto.
    destruct (bool_decide _); simpl; auto.
    destruct name as [name|]; simpl; auto.
    unfold insert_player. destruct (decide _); simpl; auto.
  - rewrite Player_update_eq.
    destruct (player_params _ _ _ _) as [[[[name pos] number] ref]|]; simpl; auto.
    destruct (bind_int4 id) as [k|]; simpl; auto.
    destruct (owned_player db userId k) as [[i p]|]; simpl; auto.
    destruct name; simpl; auto. destruct (decide _); simpl; auto.
  - rewrite Player_assignToTeam_eq.
    destruct (bind_int4 teamId) as [ref|]; simpl; auto.
    destruct (bind_int4 playerId) as [k|]; simpl; auto.
    destruct (owned_player db userId k) as [[i p]|]; simpl; auto.
    destruct (decide _); simpl; auto.
  - rewrite Player_unassignFromTeam_eq.
    destruct (bind_int4 playerId) as [k|]; simpl; auto.
    destruct (owned_player db userId k) as [[i p]|]; simpl; auto.
  - rewrite Player_delete_eq.
    destruct (bind_int4 id) as [k|]; simpl; auto.
    destruct (owned_player db userId k) as [[i p]|]; simpl; auto.
Qed.

Lemma on_delete_set_null_owner gone p :
  player_user_id (on_delete_set_null gone p) = player_user_id p ∧
  player_created_at (on_delete_set_null gone p) = player_created_at p.
Proof.
  unfold on_delete_set_null. destruct (team_id p); [|done]. by destruct (decide _).
Qed.
End writes.

(** X8. No write changes the owner or the creation time of a row that is
    there before and after it, and no write touches the users; the
    sequences of the ids never go back. *)
Theorem writes_keep_owner_and_creation `{Platform} (c : call) (db : database) :
  (∀ i t t', teams db !! i = Some t → teams (run c db) !! i = Some t' →
     team_user_id t' = team_user_id t ∧ team_created_at t' = team_created_at t) ∧
  (∀ i p p', players db !! i = Some p → players (run c db) !! i = Some p' →
     player_user_id p' = player_user_id p ∧
     player_created_at p' = player_created_at p) ∧
  users (run c db) = users db ∧
  teams_id_seq db ≤ teams_id_seq (run c db) ∧
  players_id_seq db ≤ players_id_seq (run c db).
Proof.
  destruct (run_sequences c db) as (Hu & Ht & Hp).
  split; [|split; [|split; [done|lia]]].
  - intros i t t' Hi Hi'.
    destruct (run_row_change c db) as
      [Ht' _|id t0 Hfree _ _ _ Ht' _|id t0 t1 Hid Hu0 Hu1 Hc1 Ht' _|id t0 Hid _ Ht' _
      |id p0 _ _ _ _ Ht' _|id p0 p1 _ _ _ _ Ht' _|id p0 _ _ Ht' _];
      rewrite Ht' in Hi'; try (rewrite Hi in Hi'; by injection Hi' as <-).
    + destruct (decide (id = i)) as [->|Hne]; [congruence|].
      rewrite lookup_insert_ne in Hi' by done. rewrite Hi in Hi'. by injection Hi' as <-.
    + destruct (decide (id = i)) as [->|Hne].
      * rewrite lookup_insert_eq in Hi'. injection Hi' as <-.
        rewrite Hi in Hid. injection Hid as <-. split; congruence.
      * rewrite lookup_insert_ne in Hi' by done. rewrite Hi in Hi'.
        by injection Hi' as <-.
    + apply lookup_delete_Some in Hi' as [_ Hi']. rewrite Hi in Hi'.
      by injection Hi' as <-.
  - intros i p p' Hi Hi'.
    destruct (run_row_change c db) as
      [_ Hp'|id t0 _ _ _ _ _ Hp'|id t0 t1 _ _ _ _ _ Hp'|id t0 _ _ _ Hp'
      |id p0 Hfree _ _ _ _ Hp'|id p0 p1 Hid Hu0 Hu1 Hc1 _ Hp'|id p0 _ _ _ Hp'];
      rewrite Hp' in Hi'; try (rewrite Hi in Hi'; by injection Hi' as <-).
    + rewrite lookup_fmap, Hi in Hi'. injection Hi' as <-.
      apply on_delete_set_null_owner.
    + destruct (decide (id = i)) as [->|Hne]; [congruence|].
      rewrite lookup_insert_ne in Hi' by done. rewrite Hi in Hi'. by injection Hi' as <-.
    + destruct (decide (id = i)) as [->|Hne].
      * rewrite lookup_insert_eq in Hi'. injection Hi' as <-.
        rewrite Hi in Hid. injection Hid as <-. split; congruence.
      * rewrite lookup_insert_ne in Hi' by done. rewrite Hi in Hi'.
        by injection Hi' as <-.
    + apply lookup_delete_Some in Hi' as [_ Hi']. rewrite Hi in Hi'.
      by injection Hi' as <-.
Qed.

Section sequences.
Context `{Platform}.

Lemma row_change_keys u db db' :
  row_change u db db' →
  (∀ i, is_Some (teams db' !! i) →
     is_Some (teams db !! i) ∨
     (i = teams_id_seq db ∧ teams_id_seq db' = teams_id_seq db + 1)) ∧
  (∀ i, is_Some (players db' !! i) →
     is_Some (players db !! i) ∨
     (i = players_id_seq db ∧ players_id_seq db' = players_id_seq db + 1)).
Proof.
  assert (∀ (A : Type) (tbl : gmap Z A) id a i,
            is_Some (<[id:=a]> tbl !! i) → i = id ∨ is_Some (tbl !! i)) as Hins.
  { intros A tbl id a i. destruct (decide (id = i)) as [->|Hne]; [by left|].
    rewrite lookup_insert_ne by done. by right. }
  assert (∀ (A : Type) (tbl : gmap Z A) id i,
            is_Some (delete id tbl !! i) → is_Some (tbl !! i)) as Hdel.
  { intros A tbl id i [a Hi]. apply lookup_delete_Some in Hi as [_ Hi]. by exists a. }
  intros [Ht' Hp'|id t0 Hfree _ -> Hseq Ht' Hp'|id t0 t1 Hid _ _ _ Ht' Hp'
    |id t0 Hid _ Ht' Hp'|id p0 Hfree _ -> Hseq Ht' Hp'
    |id p0 p1 Hid _ _ _ Ht' Hp'|id p0 Hid _ Ht' Hp']; rewrite Ht', Hp'.
  - split; intros i Hi; by left.
  - split; intros i Hi; [|by left].
    apply Hins in Hi as [->|Hi]; [by right|by left].
  - split; intros i Hi; [|by left].
    apply Hins in Hi as [->|Hi]; left; [by rewrite Hid|done].
  - split; intros i Hi; left; [by apply Hdel in Hi|].
    rewrite lookup_fmap in Hi. by apply fmap_is_Some in Hi.
  - split; intros i Hi; [by left|].
    apply Hins in Hi as [->|Hi]; [by right|by left].
  - split; intros i Hi; [by left|].
    apply Hins in Hi as [->|Hi]; left; [by rewrite Hid|done].
  - split; intros i Hi; left; [done|by apply Hdel in Hi].
Qed.

Lemma run_ids_below c db : ids_below_sequences db → ids_below_sequences (run c db).
Proof.
  intros [Hteams Hplayers].
  destruct (run_sequences c db) as (_ & Ht & Hp).
  destruct (row_change_keys _ _ _ (run_row_change c db)) as [Ht' Hp'].
  split; intros i x Hi.
  - destruct (Ht' i) as [[t Hold]|[-> ->]]; [by eexists| |lia].
    specialize (Hteams i t Hold). simpl in Hteams. lia.
  - destruct (Hp' i) as [[p Hold]|[-> ->]]; [by eexists| |lia].
    specialize (Hplayers i p Hold). simpl in Hplayers. lia.
Qed.
End sequences.


Lemma example_db_ids_below : ids_below_sequences example_db.
Proof. apply (bool_decide_unpack _). vm_compute. exact I. Qed.


(** ** Assigning, unassigning and deleting *)

Section assignment.
Context `{Platform}.

Lemma found_player_hit db u i p ref t :
  players db !! i = Some p → player_user_id p = u →
  team_id p = Some ref → teams db !! ref = Some t →
  found_player db u (Some i) = Some (found_columns ((i, p), (ref, t))).
Proof.
  intros Hp Hu Href Ht. unfold found_player.
  rewrite (owned_player_hit _ _ _ p) by done. simpl.
  unfold team_of. rewrite Href. simpl. by rewrite Ht.
Qed.

Lemma found_player_global db u i p :
  players db !! i = Some p → team_id p = None → found_player db u (Some i) = None.
Proof.
  intros Hp Href. unfold found_player, owned_player. simpl. rewrite Hp. simpl.
  destruct (decide _); [|done]. simpl. unfold team_of. by rewrite Href.
Qed.

Lemma set_team_twice now now' ref ref' p :
  Player.set_team now' ref' (Player.set_team now ref p) = Player.set_team now' ref' p.
Proof. done. Qed.
End assignment.

(** X10. Assigning a player of the caller to a team that exists and then
    unassigning it: both answer true; in between the player is found with
    the team, afterwards it has no team, is not found by id, and differs
    from the player before in the modification time only; the teams are
    untouched, and unassigning once more changes nothing. *)
Theorem assign_then_unassign `{Platform} (db : database) (now1 now2 : Z)
    (v tid : jsval) (i ref ownerId : Z) (p : player) (t : team) :
  bind_int4 v = Ok (Some i) →
  players db !! i = Some p →
  player_user_id p = ownerId →
  bind_int4 tid = Ok (Some ref) →
  teams db !! ref = Some t →
  ∃ db1 db2,
    Player.assignToTeam now1 v tid ownerId db = (Ok true, db1) ∧
    players db1 = <[i:=Player.set_team now1 (Some ref) p]> (players db) ∧
    Player.findById v ownerId db1 =
      (Ok (Some (found_columns ((i, Player.set_team now1 (Some ref) p), (ref, t)))), db1) ∧
    Player.unassignFromTeam now2 v ownerId db1 = (Ok true, db2) ∧
    players db2 = <[i:=Player.set_team now2 None p]> (players db) ∧
    teams db2 = teams db ∧
    Player.findById v ownerId db2 = (Ok None, db2) ∧
    Player.unassignFromTeam now2 v ownerId db2 = (Ok true, db2).
Proof.
  intros Hv Hp Hu Htid Ht.
  eexists _, _. split.
  { rewrite Player_assignToTeam_eq, Htid, Hv, (owned_player_hit _ _ _ p) by done.
    rewrite decide_True by (by eexists). reflexivity. }
  split; [done|]. split.
  { rewrite Player_findById_eq, Hv.
    rewrite (found_player_hit _ _ _ (Player.set_team now1 (Some ref) p) ref t);
      [done| |done..].
    simpl. by rewrite lookup_insert_eq. }
  split.
  { rewrite Player_unassignFromTeam_eq, Hv.
    rewrite (owned_player_hit _ _ _ (Player.set_team now1 (Some ref) p));
      [reflexivity| |done].
    simpl. by rewrite lookup_insert_eq. }
  split; [simpl; by rewrite insert_insert_eq|]. split; [done|]. split.
  { rewrite Player_findById_eq, Hv.
    rewrite (found_player_global _ _ _ (Player.set_team now2 None p)); [done| |done].
    simpl. by rewrite lookup_insert_eq. }
  rewrite Player_unassignFromTeam_eq, Hv.
  rewrite (owned_player_hit _ _ _ (Player.set_team now2 None p)); [| |done].
  2: { simpl. by rewrite lookup_insert_eq. }
  f_equal. apply database_eq; simpl; try done.
  by rewrite !insert_insert_eq.
Qed.

(** Zed goes to the Lions and back. *)
Lemma assign_then_unassign_witness :
  ∃ db1 db2,
    Player.assignToTeam 5 (JNum 1) (JNum 10) 1 example_db = (Ok true, db1) ∧
    Player.unassignFromTeam 6 (JNum 1) 1 db1 = (Ok true, db2) ∧
    players db2 =
      <[1:=Player.set_team 6 None (example_player "Zed" None 1)]> (players example_db).
Proof.
  destruct (assign_then_unassign example_db 5 6 (JNum 1) (JNum 10) 1 10 1
              (example_player "Zed" None 1) (example_team "Lions" 1))
    as (db1 & db2 & Ha & _ & _ & Hu & Hp & _); [reflexivity..|].
  exists db1, db2. split; [exact Ha|]. split; [exact Hu|exact Hp].
Defined.

(** X11. Assigning through the controller: a team id that is falsy, the
    number 0 and the empty string among them, is refused with 400 before
    any statement; a player the caller does not own answers 404; a team
    that does not exist answers 500; in all three nothing is written.
    With a player of the caller and a team that exists the answer is 200
    with the player as it is read back: on the team, with the team's name
    and colour, and updated now; the one write is the player's row.  No
    other answer writes anything. *)
Theorem assignPlayerToTeam_answers `{Platform} (now : Z) (playerId : text)
    (team_id : jsval) (user : Z) (db : database) :
  (truthy team_id = false →
     playerController.assignPlayerToTeam now playerId team_id user db =
       (Ok (failure 400 "Team ID is required."), db)) ∧
  (truthy team_id = true →
   ∀ i p ref t,
     bind_int4 (JStr playerId) = Ok (Some i) → players db !! i = Some p →
     player_user_id p = user → bind_int4 team_id = Ok (Some ref) →
     teams db !! ref = Some t →
     ∃ found,
       playerController.assignPlayerToTeam now playerId team_id user db =
         (Ok {| status := 200; success := true;
                message := Some "Player assigned to team successfully."%string;
                count := None; data := Some (Some found) |},
          set_players (insert i (Player.set_team now (Some ref) p)) db) ∧
       found = found_columns ((i, Player.set_team now (Some ref) p), (ref, t)) ∧
       pf_id found = i ∧ pf_player_name found = player_name p ∧
       pf_position found = position p ∧
       pf_jersey_number found = jersey_number p ∧
       pf_team_id found = Some ref ∧ pf_team_name found = team_name t ∧
       pf_team_color found = team_color t ∧
       pf_created_at found = player_created_at p ∧ pf_updated_at found = now) ∧
  (∀ r db', playerController.assignPlayerToTeam now playerId team_id user db = (Ok r, db') →
     status r ≠ 200 → db' = db) ∧
  (truthy team_id = true →
   ∀ k ref, bind_int4 (JStr playerId) = Ok k → bind_int4 team_id = Ok ref →
     (owned_player db user k = None →
        playerController.assignPlayerToTeam now playerId team_id user db =
          (Ok (failure 404 "Player not found or assignment failed."), db)) ∧
     (is_Some (owned_player db user k) → ¬ team_fk_ok db ref →
        playerController.assignPlayerToTeam now playerId team_id user db =
          (Ok (failure 500 "Server error while assigning player."), db))) ∧
  (truthy team_id = true →
   bind_int4 (JStr playerId) = Throw ∨ bind_int4 team_id = Throw →
     playerController.assignPlayerToTeam now playerId team_id user db =
       (Ok (failure 500 "Server error while assigning player."), db)).
Proof.
  unfold playerController.assignPlayerToTeam. rewrite try_catch_run.
  split; [by intros ->|].
  assert (truthy team_id = true → ∀ ref, bind_int4 team_id = Ok ref → is_Some ref) as Hsome.
  { intros Htruthy ref. destruct team_id; simpl in *; try done.
    - destruct (int4_range z); [|done]. intros [= <-]. by eexists.
    - destruct (int4_in s); [|done]. intros [= <-]. by eexists. }
  split; [|split; [|split]].
  - intros Htruthy i p ref t Hk Hp Hu Htid Ht. rewrite Htruthy. simpl.
    rewrite bind_run, Player_assignToTeam_eq, Htid, Hk.
    rewrite (owned_player_hit db user i p) by done.
    rewrite decide_True by (by exists t).
    simpl. rewrite bind_run, Player_findById_eq, Hk.
    rewrite (found_player_hit _ _ _ (Player.set_team now (Some ref) p) ref t);
      [| |done..].
    2: { simpl. by rewrite lookup_insert_eq. }
    eexists. split; [reflexivity|]. done.
  - destruct (truthy team_id) eqn:Htruthy; [|by intros r db' [= <- <-]].
    simpl. rewrite bind_run, Player_assignToTeam_eq.
    destruct (bind_int4 team_id) as [ref|] eqn:Htid; [|by intros r db' [= <- <-]].
    destruct (bind_int4 (JStr playerId)) as [k|] eqn:Hk; [|by intros r db' [= <- <-]].
    destruct (owned_player db user k) as [[i p]|] eqn:Hown; [|by intros r db' [= <- <-]].
    destruct (decide (team_fk_ok db ref)) as [Hfk|]; [|by intros r db' [= <- <-]].
    apply owned_player_Some in Hown as (-> & Hp & Hu).
    destruct (Hsome eq_refl ref eq_refl) as [id ->]. destruct Hfk as [t Ht].
    simpl. rewrite bind_run, Player_findById_eq, Hk.
    rewrite (found_player_hit _ _ _ (Player.set_team now (Some id) p) id t);
      [| |done..].
    2: { simpl. by rewrite lookup_insert_eq. }
    intros r db' [= <- <-]. done.
  - intros Htruthy k ref Hk Htid. rewrite Htruthy. simpl.
    rewrite bind_run, Player_assignToTeam_eq, Htid, Hk. split.
    + by intros ->.
    + intros [[i p] ->] Hfk. by rewrite decide_False.
  - intros Htruthy Hthrow. rewrite Htruthy. simpl.
    rewrite bind_run, Player_assignToTeam_eq.
    destruct Hthrow as [->| ->]; [|done]. by destruct (bind_int4 team_id).
Qed.

(** Team 0 is refused; user 2 does not reach Zed; team 99 does not exist;
    user 1 puts Zed on the Lions. *)
Lemma assignPlayerToTeam_answers_witness :
  (∃ r db' found,
     playerController.assignPlayerToTeam 5 (lit "1") (JNum 10) 1 example_db = (Ok r, db') ∧
     status r = 200 ∧ data r = Some (Some found) ∧
     pf_id found = 1 ∧ pf_player_name found = lit "Zed" ∧ pf_team_id found = Some 10 ∧
     pf_team_name found = lit "Lions" ∧ pf_updated_at found = 5 ∧
     team_id <$> players db' !! 1 = Some (Some 10)) ∧
  playerController.assignPlayerToTeam 5 (lit "1") (JNum 0) 1 example_db =
    (Ok (failure 400 "Team ID is required."), example_db) ∧
  playerController.assignPlayerToTeam 5 (lit "1") (JNum 10) 2 example_db =
    (Ok (failure 404 "Player not found or assignment failed."), example_db) ∧
  playerController.assignPlayerToTeam 5 (lit "1") (JNum 99) 1 example_db =
    (Ok (failure 500 "Server error while assigning player."), example_db).
Proof.
  split; [|split; [|split]].
  - destruct (assignPlayerToTeam_answers 5 (lit "1") (JNum 10) 1 example_db)
      as (_ & Hhit & _).
    destruct (Hhit eq_refl 1 (example_player "Zed" None 1) 10
                (example_team "Lions" 1))
      as (found & Hrun & -> & _); [reflexivity..|].
    eexists _, _, _. split; [exact Hrun|]. by vm_compute.
  - apply (assignPlayerToTeam_answers 5 (lit "1") (JNum 0) 1 example_db). reflexivity.
  - destruct (assignPlayerToTeam_answers 5 (lit "1") (JNum 10) 2 example_db)
      as (_ & _ & _ & Hmiss & _).
    destruct (Hmiss eq_refl (Some 1) (Some 10)) as [H404 _]; [reflexivity..|].
    apply H404. reflexivity.
  - destruct (assignPlayerToTeam_answers 5 (lit "1") (JNum 99) 1 example_db)
      as (_ & _ & _ & Hmiss & _).
    destruct (Hmiss eq_refl (Some 1) (Some 99)) as [_ H500]; [reflexivity..|].
    apply H500; [by eexists|]. intros [t Ht]. discriminate Ht.
Defined.

Lemma filter_or_Permutation {A} (P Q : A → Prop) `{∀ x, Decision (P x)}
    `{∀ x, Decision (Q x)} (l : list A) :
  (∀ x, P x → Q x → False) →
  filter (λ x, P x ∨ Q x) l ≡ₚ filter P l ++ filter Q l.
Proof.
  intros Hdisj. induction l as [|x l IH]; [done|].
  destruct (decide (P x)) as [HP|HP], (decide (Q x)) as [HQ|HQ].
  - destruct (Hdisj x HP HQ).
  - rewrite (filter_cons_True (λ x, P x ∨ Q x)) by (by left).
    rewrite (filter_cons_True P), (filter_cons_False Q) by done. simpl. by rewrite IH.
  - rewrite (filter_cons_True (λ x, P x ∨ Q x)) by (by right).
    rewrite (filter_cons_False P), (filter_cons_True Q) by done.
    rewrite IH. apply Permutation_middle.
  - rewrite (filter_cons_False (λ x, P x ∨ Q x)) by tauto.
    by rewrite (filter_cons_False P), (filter_cons_False Q).
Qed.

Section team_deleted.
Context `{Platform}.

Lemma on_delete_set_null_columns gone (r : Z * player) :
  player_columns (r.1, on_delete_set_null gone r.2) = player_columns r.
Proof.
  destruct r as [i p]. unfold on_delete_set_null. simpl.
  destruct (team_id p); [|done]. by destruct (decide _).
Qed.

Lemma on_delete_set_null_team id p :
  team_id (on_delete_set_null [id] p) =
  if decide (team_id p = Some id) then None else team_id p.
Proof.
  unfold on_delete_set_null. destruct (team_id p) as [ref|] eqn:Href.
  - destruct (decide (ref ∈ [id])) as [Hin|Hin].
    + apply list_elem_of_singleton in Hin as ->. by rewrite decide_True.
    + rewrite decide_False; [done|]. intros [= ->]. apply Hin. by left.
  - by rewrite decide_False.
Qed.
End team_deleted.

(** X12. Deleting a team of the caller makes its roster global: the
    caller's global players afterwards are the global players before
    together with the roster of the team, and the team has no roster and
    no hierarchy any more. *)
Theorem team_delete_makes_roster_global `{Platform} (db : database) (v : jsval)
    (id ownerId : Z) (t : team) :
  bind_int4 v = Ok (Some id) →
  teams db !! id = Some t →
  team_user_id t = ownerId →
  ∃ db' globals roster globals',
    Player.findGlobalPlayers ownerId db = (Ok globals, db) ∧
    Player.findAllByTeamId v ownerId db = (Ok roster, db) ∧
    Team.delete v ownerId db = (Ok true, db') ∧
    Player.findGlobalPlayers ownerId db' = (Ok globals', db') ∧
    globals' ≡ₚ globals ++ roster ∧
    Player.findAllByTeamId v ownerId db' = (Ok [], db') ∧
    Team.getTeamHierarchy v ownerId db' = (Ok None, db').
Proof.
  intros Hv Ht Hu. eexists _, _, _, _.
  split; [reflexivity|].
  split; [rewrite Player_findAllByTeamId_eq, Hv; reflexivity|].
  split; [rewrite Team_delete_eq, Hv, (owned_team_hit _ _ _ t) by done; reflexivity|].
  split; [reflexivity|]. split; [|split].
  - rewrite !merge_sort_Permutation. simpl. unfold select_where.
    rewrite map_to_list_fmap, filter_fmap, <-list_fmap_compose, <-fmap_app.
    erewrite list_fmap_ext; [|intros ? r _; apply (on_delete_set_null_columns [id] r)].
    apply fmap_Permutation.
    rewrite <-filter_or_Permutation.
    + erewrite filter_ext_in; [reflexivity|]. intros [i p] _. simpl.
      rewrite on_delete_set_null_team, (proj1 (on_delete_set_null_owner [id] p)).
      destruct (decide (team_id p = Some id)) as [Hp|Hp].
      * split.
        -- intros [Hown _]. right. split; [by eexists|done].
        -- intros [[Hown _]|(_ & _ & Hown)]; done.
      * split; [intros [??]; by left|]. intros [?|(_ & ? & _)]; done.
    + intros [i p]. simpl. intros [_ Hnone] (_ & Hsome & _). congruence.
  - rewrite Player_findAllByTeamId_eq, Hv. simpl. unfold select_where.
    rewrite filter_none; [done|]. intros [i p] Hin (_ & Href & _).
    apply elem_of_map_to_list in Hin. rewrite lookup_fmap in Hin. simpl in *.
    destruct (players db !! i) as [q|]; [|done]. injection Hin as <-.
    rewrite on_delete_set_null_team in Href.
    destruct (decide (team_id q = Some id)); done.
  - apply (Team_getTeamHierarchy_miss _ _ (Some id)); [done|].
    apply owned_team_absent. simpl. apply lookup_delete_eq.
Qed.

(** The Lions are deleted: Amy joins Zed and Bob. *)
Lemma team_delete_makes_roster_global_witness :
  ∃ db' globals',
    Team.delete (JNum 10) 1 example_db = (Ok true, db') ∧
    Player.findGlobalPlayers 1 db' = (Ok globals', db') ∧
    length globals' = 3%nat.
Proof.
  destruct (team_delete_makes_roster_global example_db (JNum 10) 10 1
              (example_team "Lions" 1))
    as (db' & globals & roster & globals' & Hg & Hr & Hd & Hg' & Hperm & _);
    [reflexivity..|].
  exists db', globals'. split; [exact Hd|]. split; [exact Hg'|].
  rewrite Hperm. injection Hg as <-. injection Hr as <-. reflexivity.
Defined.

(** X13. Deleting a player of the caller through the controller answers
    200 and removes that row and no other; a second delete, a lookup and
    an unassignment of the same id then answer 404 and write nothing. *)
Theorem deletePlayer_then_not_found `{Platform} (db : database) (now : Z) (id : text)
    (i user : Z) (p : player) :
  bind_int4 (JStr id) = Ok (Some i) →
  players db !! i = Some p →
  player_user_id p = user →
  ∃ db',
    playerController.deletePlayer id user db =
      (Ok {| status := 200; success := true;
             message := Some "Player deleted successfully."%string;
             count := None; data := None |}, db') ∧
    players db' = delete i (players db) ∧ teams db' = teams db ∧
    playerController.deletePlayer id user db' =
      (Ok (failure 404 "Player not found or deletion failed."), db') ∧
    playerController.getPlayerById id user db' =
      (Ok (failure 404 "Player not found."), db') ∧
    playerController.unassignPlayerFromTeam now id user db' =
      (Ok (failure 404 "Player not found or unassignment failed."), db').
Proof.
  intros Hv Hp Hu. exists (set_players (delete i) db).
  assert (owned_player (set_players (delete i) db) user (Some i) = None) as Hgone.
  { apply owned_player_absent. simpl. apply lookup_delete_eq. }
  unfold playerController.deletePlayer, playerController.getPlayerById,
    playerController.unassignPlayerFromTeam.
  rewrite !try_catch_run, !bind_run.
  rewrite Player_delete_eq, Hv, (owned_player_hit _ _ _ p) by done.
  split; [done|]. split; [done|]. split; [done|].
  rewrite Player_delete_eq, Player_findById_eq, Player_unassignFromTeam_eq, Hv.
  unfold found_player. rewrite Hgone. done.
Qed.

(** Bob is deleted. *)
Lemma deletePlayer_then_not_found_witness :
  ∃ db',
    (playerController.deletePlayer (lit "3") 1 example_db).2 = db' ∧
    players db' = delete 3 (players example_db) ∧
    playerController.deletePlayer (lit "3") 1 db' =
      (Ok (failure 404 "Player not found or deletion failed."), db').
Proof.
  destruct (deletePlayer_then_not_found example_db 5 (lit "3") 3 1
              (example_player "Bob" None 1))
    as (db' & Hd & Hp & _ & Hagain & _); [reflexivity..|].
  exists db'. split; [by rewrite Hd|]. split; [exact Hp|exact Hagain].
Defined.

(** ** Trimming *)

Lemma trimStart_head s c r : trimStart s = c :: r → isWhiteSpace c = false.
Proof.
  induction s as [|x s IH]; [done|]. simpl.
  destruct (isWhiteSpace x) eqn:Hx; [done|]. by intros [= <- _].
Qed.

Lemma trimStart_fixed c r : isWhiteSpace c = false → trimStart (c :: r) = c :: r.
Proof. intros Hc. simpl. by rewrite Hc. Qed.

Lemma trimStart_snoc s c :
  isWhiteSpace c = false → trimStart (s ++ [c]) = trimStart s ++ [c].
Proof.
  intros Hc. induction s as [|x s IH]; simpl.
  - by rewrite Hc.
  - destruct (isWhiteSpace x); [done|]. done.
Qed.

Lemma trimEnd_last s l c : trimEnd s = l ++ [c] → isWhiteSpace c = false.
Proof.
  unfold trimEnd. intros Hs.
  apply (f_equal reverse) in Hs. rewrite reverse_involutive, reverse_snoc in Hs.
  by apply trimStart_head in Hs.
Qed.

Lemma trimEnd_fixed l c : isWhiteSpace c = false → trimEnd (l ++ [c]) = l ++ [c].
Proof.
  intros Hc. unfold trimEnd. rewrite reverse_snoc, trimStart_fixed by done.
  by rewrite reverse_cons, reverse_involutive.
Qed.

Lemma trimEnd_cons c r : isWhiteSpace c = false → ∃ r', trimEnd (c :: r) = c :: r'.
Proof.
  intros Hc. unfold trimEnd. rewrite reverse_cons, trimStart_snoc by done.
  rewrite reverse_snoc. by eexists.
Qed.

Lemma trim_head s c r : trim s = c :: r → isWhiteSpace c = false.
Proof.
  unfold trim. destruct (trimStart s) as [|x s'] eqn:Hs; [done|].
  apply trimStart_head in Hs. destruct (trimEnd_cons x s' Hs) as [r' ->].
  by intros [= <- _].
Qed.

Lemma trim_last s l c : trim s = l ++ [c] → isWhiteSpace c = false.
Proof. apply trimEnd_last. Qed.

Lemma snoc_cases {A} (l : list A) : l = [] ∨ ∃ l' x, l = l' ++ [x].
Proof. induction l as [|x l _] using rev_ind; [by left|right; by exists l, x]. Qed.

(** What [trim] leaves has nothing more to trim. *)
Lemma trim_trim s : trim (trim s) = trim s.
Proof.
  destruct (trim s) as [|c r] eqn:Hs; [done|].
  pose proof (trim_head _ _ _ Hs) as Hc.
  unfold trim at 1. rewrite trimStart_fixed by done.
  destruct (snoc_cases (c :: r)) as [Hnil|(l & x & Hlx)]; [done|].
  rewrite Hlx. apply trimEnd_fixed. rewrite Hlx in Hs. by apply trim_last in Hs.
Qed.

(** A trimmed name is stored whole or not at all: VARCHAR cuts only
    trailing spaces, and a trimmed name has none. *)
Lemma varchar_trimmed `{Platform} n s x :
  bind_text (JStr (trim s)) ≫= varchar n = Ok (Some x) → x = trim s.
Proof.
  unfold bind_text. destruct (bool_decide _); [done|]. rewrite bind_Ok. unfold varchar.
  destruct (bool_decide (length (trim s) ≤ n)%nat) eqn:Hlen; [congruence|].
  apply bool_decide_eq_false in Hlen.
  destruct (bool_decide (Forall _ _)) eqn:Hsp; [|done].
  apply bool_decide_eq_true in Hsp.
  destruct (snoc_cases (trim s)) as [Hnil|(l & c & Hlc)].
  { rewrite Hnil in Hlen. simpl in Hlen. lia. }
  pose proof (trim_last _ _ _ Hlc) as Hc.
  rewrite Hlc in Hsp, Hlen. rewrite length_app in Hlen. simpl in Hlen.
  rewrite drop_app_le in Hsp by lia.
  rewrite Forall_forall in Hsp.
  assert (c = 32%N) as -> by (apply Hsp; set_solver).
  by vm_compute in Hc.
Qed.

(** ** The names the controllers store *)

Section names.
Context `{Platform}.

Lemma set_null_name gone p : player_name (on_delete_set_null gone p) = player_name p.
Proof.
  unfold on_delete_set_null. destruct (team_id p); [|done]. by destruct (decide _).
Qed.

Lemma trimmed_stored n x s :
  n = JStr (trim s) → trim s ≠ [] → bind_text n ≫= varchar 255 = Ok (Some x) →
  x ≠ [] ∧ trim x = x.
Proof.
  intros -> Hs Hx. apply varchar_trimmed in Hx as ->. split; [done|apply trim_trim].
Qed.

Lemma run_names_trimmed c db :
  names_trimmed db → trimmed_name c → names_trimmed (run c db).
Proof.
  intros [Hteams Hplayers] Hname. destruct c; simpl.
  - rewrite Team_create_eq.
    destruct (team_params _ _ _ _) as [[[[name logo] color] descr]|] eqn:Hpar; [|done].
    destruct (bool_decide _); [|done]. destruct name as [name|]; [|done].
    unfold insert_team. destruct (decide _); [|done].
    split; [|done]. simpl. apply map_Forall_insert_2; [|done]. simpl.
    apply team_params_inv in Hpar as (Hn & _).
    destruct (Hname teamName eq_refl) as (s & Hs & Hne).
    by apply (trimmed_stored teamName _ s).
  - rewrite Team_update_eq.
    destruct (team_params _ _ _ _) as [[[[name logo] color] descr]|] eqn:Hpar; [|done].
    destruct (bind_int4 id) as [k|]; [|done].
    destruct (owned_team db userId k) as [[i t]|]; [|done].
    destruct name as [name|]; [|done].
    split; [|done]. simpl. apply map_Forall_insert_2; [|done]. simpl.
    apply team_params_inv in Hpar as (Hn & _).
    destruct (Hname teamName eq_refl) as (s & Hs & Hne).
    by apply (trimmed_stored teamName _ s).
  - rewrite Team_delete_eq.
    destruct (bind_int4 id) as [k|]; [|done].
    destruct (owned_team db userId k) as [[i t]|]; [|done].
    split; simpl.
    + by apply map_Forall_delete.
    + intros j p. rewrite lookup_fmap.
      destruct (players db !! j) as [q|] eqn:Hq; [|done]. intros [= <-].
      rewrite set_null_name. by apply (Hplayers j).
  - rewrite Player_create_eq.
    destruct (player_params _ _ _ _) as [[[[name pos] number] ref]|] eqn:Hpar; [|done].
    destruct (bool_decide _); [|done]. destruct name as [name|]; [|done].
    unfold insert_player. destruct (decide _); [|done].
    split; [done|]. simpl. apply map_Forall_insert_2; [|done]. simpl.
    apply player_params_inv in Hpar as (Hn & _).
    destruct (Hname playerName eq_refl) as (s & Hs & Hne).
    by apply (trimmed_stored playerName _ s).
  - rewrite Player_update_eq.
    destruct (player_params _ _ _ _) as [[[[name pos] number] ref]|] eqn:Hpar; [|done].
    destruct (bind_int4 id) as [k|]; [|done].
    destruct (owned_player db userId k) as [[i p]|]; [|done].
    destruct name as [name|]; [|done]. destruct (decide _); [|done].
    split; [done|]. simpl. apply map_Forall_insert_2; [|done]. simpl.
    apply player_params_inv in Hpar as (Hn & _).
    destruct (Hname playerName eq_refl) as (s & Hs & Hne).
    by apply (trimmed_stored playerName _ s).
  - rewrite Player_assignToTeam_eq.
    destruct (bind_int4 teamId) as [ref|]; [|done].
    destruct (bind_int4 playerId) as [k|]; [|done].
    destruct (owned_player db userId k) as [[i p]|] eqn:Hown; [|done].
    apply owned_player_Some in Hown as (_ & Hi & _).
    destruct (decide _); [|done].
    split; [done|]. simpl. apply map_Forall_insert_2; [|done]. exact (Hplayers i p Hi).
  - rewrite Player_unassignFromTeam_eq.
    destruct (bind_int4 playerId) as [k|]; [|done].
    destruct (owned_player db userId k) as [[i p]|] eqn:Hown; [|done].
    apply owned_player_Some in Hown as (_ & Hi & _).
    split; [done|]. simpl. apply map_Forall_insert_2; [|done]. exact (Hplayers i p Hi).
  - rewrite Player_delete_eq.
    destruct (bind_int4 id) as [k|]; [|done].
    destruct (owned_player db userId k) as [[i p]|]; [|done].
    split; [done|]. simpl. by apply map_Forall_delete.
Qed.

Lemma createTeam_one_write now body user db :
  one_write user db (teamController.createTeam now body user db).2.
Proof.
  unfold teamController.createTeam. rewrite try_catch_run.
  destruct (truthy (body_team_name body)); simpl; [|by left].
  rewrite bind_lift.
  destruct (body_team_name body) as [| | | |s|]; simpl; try by left.
  rewrite bind_lift.
  destruct (trim_or (body_description body) _) as [d|]; [|by left].
  rewrite bind_lift.
  destruct (trim_or (body_team_logo body) _) as [l|]; [|by left].
  destruct (decide _) as [|Hlen]; [by left|].
  rewrite bind_run. right.
  exists (TeamCreate now (JStr (trim s)) l
            (js_or (body_team_color body) (JStr default_color)) d user).
  split; [done|]. split.
  - intros n [= <-]. exists s. split; [done|]. by destruct (trim s).
  - simpl. by destruct (Team.create _ _ _ _ _ _ _) as [[?|] ?].
Qed.

Lemma updateTeam_one_write now id body user db :
  one_write user db (teamController.updateTeam now id body user db).2.
Proof.
  unfold teamController.updateTeam. rewrite try_catch_run.
  destruct (truthy (body_team_name body)); simpl; [|by left].
  rewrite bind_lift.
  destruct (body_team_name body) as [| | | |s|]; simpl; try by left.
  rewrite bind_lift.
  destruct (trim_or (body_description body) _) as [d|]; [|by left].
  rewrite bind_lift.
  destruct (trim_or (body_team_logo body) _) as [l|]; [|by left].
  destruct (decide _) as [|Hlen]; [by left|].
  rewrite bind_run. right.
  exists (TeamUpdate now (JStr id) (JStr (trim s)) l
            (js_or (body_team_color body) (JStr default_color)) d user).
  split; [done|]. split.
  - intros n [= <-]. exists s. split; [done|]. by destruct (trim s).
  - simpl. destruct (Team.update _ _ _ _ _ _ _ _) as [[[|]|] db1]; simpl; try done.
    rewrite bind_run, Team_findById_eq. by destruct (bind_int4 (JStr id)).
Qed.

Lemma deleteTeam_one_write id user db :
  one_write user db (teamController.deleteTeam id user db).2.
Proof.
  unfold teamController.deleteTeam. rewrite try_catch_run, bind_run. right.
  exists (TeamDelete (JStr id) user). split; [done|]. split; [by intros n [=]|].
  simpl. by destruct (Team.delete _ _ _) as [[[|]|] db1].
Qed.

Lemma createPlayer_one_write now body user db :
  one_write user db (playerController.createPlayer now body user db).2.
Proof.
  unfold playerController.createPlayer. rewrite try_catch_run.
  destruct (truthy (body_player_name body)); simpl; [|by left].
  rewrite bind_lift.
  destruct (body_player_name body) as [| | | |s|]; simpl; try by left.
  rewrite bind_lift.
  destruct (trim_or (body_position body) _) as [ps|]; [|by left].
  destruct (decide _) as [|Hlen]; [by left|].
  rewrite bind_run. right.
  exists (PlayerCreate now (JStr (trim s)) ps (js_or (body_jersey_number body) JNull)
            (js_or (body_team_id body) JNull) user).
  split; [done|]. split.
  - intros n [= <-]. exists s. split; [done|]. by destruct (trim s).
  - simpl. by destruct (Player.create _ _ _ _ _ _ _) as [[?|] ?].
Qed.

Lemma updatePlayer_one_write now id body user db :
  one_write user db (playerController.updatePlayer now id body user db).2.
Proof.
  unfold playerController.updatePlayer. rewrite try_catch_run.
  destruct (truthy (body_player_name body)); simpl; [|by left].
  rewrite bind_lift.
  destruct (body_player_name body) as [| | | |s|]; simpl; try by left.
  rewrite bind_lift.
  destruct (trim_or (body_position body) _) as [ps|]; [|by left].
  destruct (decide _) as [|Hlen]; [by left|].
  rewrite bind_run. right.
  exists (PlayerUpdate now (JStr id) (JStr (trim s)) ps
            (js_or (body_jersey_number body) JNull)
            (js_or (body_team_id body) JNull) user).
  split; [done|]. split.
  - intros n [= <-]. exists s. split; [done|]. by destruct (trim s).
  - simpl. destruct (Player.update _ _ _ _ _ _ _ _) as [[[|]|] db1]; simpl; try done.
    rewrite bind_run, Player_findById_eq. by destruct (bind_int4 (JStr id)).
Qed.

Lemma assignPlayerToTeam_one_write now id tid user db :
  one_write user db (playerController.assignPlayerToTeam now id tid user db).2.
Proof.
  unfold playerController.assignPlayerToTeam. rewrite try_catch_run.
  destruct (truthy tid); simpl; [|by left].
  rewrite bind_run. right.
  exists (PlayerAssignToTeam now (JStr id) tid user).
  split; [done|]. split; [by intros n [=]|].
  simpl. destruct (Player.assignToTeam _ _ _ _ _) as [[[|]|] db1]; simpl; try done.
  rewrite bind_run, Player_findById_eq. by destruct (bind_int4 (JStr id)).
Qed.

Lemma unassignPlayerFromTeam_one_write now id user db :
  one_write user db (playerController.unassignPlayerFromTeam now id user db).2.
Proof.
  unfold playerController.unassignPlayerFromTeam. rewrite try_catch_run, bind_run. right.
  exists (PlayerUnassignFromTeam now (JStr id) user).
  split; [done|]. split; [by intros n [=]|].
  simpl. by destruct (Player.unassignFromTeam _ _ _ _) as [[[|]|] db1].
Qed.

Lemma deletePlayer_one_write id user db :
  one_write user db (playerController.deletePlayer id user db).2.
Proof.
  unfold playerController.deletePlayer. rewrite try_catch_run, bind_run. right.
  exists (PlayerDelete (JStr id) user). split; [done|]. split; [by intros n [=]|].
  simpl. by destruct (Player.delete _ _ _) as [[[|]|] db1].
Qed.

Lemma one_write_names_trimmed user db db' :
  one_write user db db' → names_trimmed db → names_trimmed db'.
Proof.
  intros [->|(c & _ & Hname & ->)] Hdb; [done|]. by apply run_names_trimmed.
Qed.
End names.

Lemma served_one_write `{Platform} r user db : one_write user db (served r user db).
Proof.
  destruct r; simpl.
  - apply createTeam_one_write.
  - apply updateTeam_one_write.
  - apply deleteTeam_one_write.
  - apply createPlayer_one_write.
  - apply updatePlayer_one_write.
  - apply assignPlayerToTeam_one_write.
  - apply unassignPlayerFromTeam_one_write.
  - apply deletePlayer_one_write.
Qed.

(** X14. Whatever a writing controller is asked, what it leaves behind
    keeps three invariants of the database: every stored team and player
    name is trimmed and not empty; every id in use is below its sequence;
    every team id of a player is the id of a team. And it leaves the users
    as they are. *)
Theorem requests_keep_the_invariants `{Platform} (r : request) (user : Z)
    (db : database) :
  (names_trimmed db → names_trimmed (served r user db)) ∧
  (ids_below_sequences db → ids_below_sequences (served r user db)) ∧
  (references_exist db → references_exist (served r user db)) ∧
  users (served r user db) = users db.
Proof.
  destruct (served_one_write r user db) as [->|(c & _ & Hname & ->)]; [done|].
  split; [intros Hdb; by apply run_names_trimmed|].
  split; [apply run_ids_below|].
  split; [apply (effect_references_exist _ _ _ (run_effect c db))|].
  apply run_sequences.
Qed.

Lemma example_db_names_trimmed : names_trimmed example_db.
Proof. apply (bool_decide_unpack _). vm_compute. exact I. Qed.

(** The Tigers are created from a name with spaces around it. *)
Lemma requests_keep_the_invariants_witness :
  names_trimmed (served (PostTeam 5 tigers_body) 1 example_db) ∧
  ids_below_sequences (served (PostTeam 5 tigers_body) 1 example_db) ∧
  references_exist (served (PostTeam 5 tigers_body) 1 example_db).
Proof.
  destruct (requests_keep_the_invariants (PostTeam 5 tigers_body) 1 example_db)
    as (Hnames & Hids & Hrefs & _).
  split; [apply Hnames, example_db_names_trimmed|].
  split; [apply Hids, example_db_ids_below|apply Hrefs, example_db_references_exist].
Defined.

Lemma row_change_isolated u other db db' :
  other ≠ u → row_change u db db' →
  (∀ i t, team_user_id t = other → teams db !! i = Some t ↔ teams db' !! i = Some t) ∧
  (∀ i p, player_user_id p = other → players db !! i = Some p →
     players db' !! i = Some p ∨ players db' !! i = Some (set_team_id None p)) ∧
  (same_owner db → ∀ i p, player_user_id p = other →
     players db !! i = Some p ↔ players db' !! i = Some p).
Proof.
  intros Hother Hchange.
  assert (∀ (A : Type) (owner : A → Z) (tbl : gmap Z A) id a i x,
    owner a = u → owner x = other →
    (tbl !! id = None ∨ ∃ a0, tbl !! id = Some a0 ∧ owner a0 = u) →
    tbl !! i = Some x ↔ <[id:=a]> tbl !! i = Some x) as Hins.
  { intros A owner tbl id a i x Ha Hx Hid. destruct (decide (id = i)) as [->|Hne].
    - rewrite lookup_insert_eq. split.
      + intros Hi. destruct Hid as [Hid|(a0 & Hid & Ha0)]; congruence.
      + intros [= ->]. congruence.
    - by rewrite lookup_insert_ne. }
  assert (∀ (A : Type) (owner : A → Z) (tbl : gmap Z A) id a0 i x,
    tbl !! id = Some a0 → owner a0 = u → owner x = other →
    tbl !! i = Some x ↔ delete id tbl !! i = Some x) as Hdel.
  { intros A owner tbl id a0 i x Hid Ha0 Hx. rewrite lookup_delete_Some. split.
    - intros Hi. split; [|done]. intros ->. congruence.
    - by intros [_ Hi]. }
  destruct Hchange as
    [Ht' Hp'|id t0 Hfree Hu0 _ _ Ht' Hp'|id t0 t1 Hid Hu0 Hu1 _ Ht' Hp'
    |id t0 Hid Hu0 Ht' Hp'|id p0 Hfree Hu0 _ _ Ht' Hp'
    |id p0 p1 Hid Hu0 Hu1 _ Ht' Hp'|id p0 Hid Hu0 Ht' Hp'];
    rewrite Ht', Hp'.
  - split; [done|]. split; [by left|done].
  - split; [|split; [by left|done]].
    intros i t Ht. apply (Hins _ team_user_id); auto.
  - split; [|split; [by left|done]].
    intros i t Ht. apply (Hins _ team_user_id); eauto.
  - split; [|split].
    + intros i t Ht. by apply (Hdel _ team_user_id _ _ t0).
    + intros i p Hp Hi. rewrite lookup_fmap, Hi. simpl.
      unfold on_delete_set_null. destruct (team_id p); [|by left].
      destruct (decide _); [by right|by left].
    + intros Hown i p Hp.
      assert (∀ q, players db !! i = Some q → player_user_id q = other →
                   on_delete_set_null [id] q = q) as Hsame.
      { intros q Hq Hqu. unfold on_delete_set_null.
        destruct (team_id q) as [ref|] eqn:Href; [|done].
        destruct (decide _) as [Hin|]; [|done].
        apply list_elem_of_singleton in Hin as ->.
        specialize (Hown i q Hq). unfold same_owner_ref in Hown.
        rewrite Href, Hid in Hown. congruence. }
      rewrite lookup_fmap. split.
      * intros Hi. rewrite Hi. simpl. f_equal. by apply Hsame.
      * destruct (players db !! i) as [q|] eqn:Hq; [|done]. simpl. intros [= Hq'].
        assert (player_user_id q = other) as Hqu.
        { rewrite <-Hp, <-Hq'. symmetry. apply on_delete_set_null_owner. }
        rewrite Hsame in Hq' by done. congruence.
  - split; [done|]. split.
    + intros i p Hp Hi. left.
      apply (Hins _ player_user_id (players db) id p0 i p); auto.
    + intros _ i p Hp. apply (Hins _ player_user_id); auto.
  - split; [done|]. split.
    + intros i p Hp Hi. left.
      apply (Hins _ player_user_id (players db) id p1 i p); eauto.
    + intros _ i p Hp. apply (Hins _ player_user_id); eauto.
  - split; [done|]. split.
    + intros i p Hp Hi. left.
      by apply (Hdel _ player_user_id (players db) id p0 i p).
    + intros _ i p Hp. by apply (Hdel _ player_user_id _ _ p0).
Qed.

(** X15. What is written for one user leaves the rows of every other user
    as they are, be it a write of the repositories or a whole request to
    a controller: the teams of the others are neither added, changed nor
    removed, and their players at most lose the team id of a team that
    was deleted, which cannot happen while every player is on a team of
    its own user. *)
Theorem writes_touch_only_the_callers_rows `{Platform} (db db' : database)
    (user other : Z) :
  other ≠ user →
  (∃ c, caller c = user ∧ db' = run c db) ∨ (∃ r, db' = served r user db) →
  (∀ i t, team_user_id t = other →
     teams db !! i = Some t ↔ teams db' !! i = Some t) ∧
  (∀ i p, player_user_id p = other → players db !! i = Some p →
     players db' !! i = Some p ∨ players db' !! i = Some (set_team_id None p)) ∧
  (same_owner db → ∀ i p, player_user_id p = other →
     players db !! i = Some p ↔ players db' !! i = Some p).
Proof.
  intros Hother Hwrite. apply (row_change_isolated user); [done|].
  destruct Hwrite as [(c & <- & ->)|(r & ->)]; [apply run_row_change|].
  destruct (served_one_write r user db) as [->|(c & <- & _ & ->)].
  - by apply Unchanged.
  - apply run_row_change.
Qed.

(** User 1 deletes the Lions: nothing of user 2 changes. *)
Lemma writes_touch_only_the_callers_rows_witness :
  2 ≠ 1 ∧
  ∀ i t, team_user_id t = 2 →
    teams example_db !! i = Some t ↔
    teams (served (DeleteTeam (lit "10")) 1 example_db) !! i = Some t.
Proof.
  split; [done|].
  destruct (writes_touch_only_the_callers_rows example_db
              (served (DeleteTeam (lit "10")) 1 example_db) 1 2) as (Hteams & _);
    [done|right; by eexists|].
  exact Hteams.
Defined.

(** ** Answers of the controllers *)

Section answers.
Context `{Platform}.

Lemma bind_int4_truthy v ref : truthy v = true → bind_int4 v = Ok ref → is_Some ref.
Proof.
  destruct v; simpl; try done.
  - destruct (int4_range z); [|done]. intros _ [= <-]. by eexists.
  - destruct (int4_in s); [|done]. intros _ [= <-]. by eexists.
Qed.

Lemma bind_int4_malformed id : int4_in id = None → bind_int4 (JStr id) = Throw.
Proof. intros Hid. simpl. by rewrite Hid. Qed.
End answers.

(** X16. An id in the path that is not an integer is a server error, not
    a missing record: the lookups, the deletes and the unassignment answer
    500, and the updates and the assignment answer 400 or 500 as the body
    decides; nothing is written. *)
Theorem malformed_id_is_a_server_error `{Platform} (id : text) (user : Z)
    (db : database) :
  int4_in id = None →
  teamController.getTeamById id user db =
    (Ok (failure 500 "Server error while fetching team."), db) ∧
  teamController.getTeamHierarchy id user db =
    (Ok (failure 500 "Server error while fetching team hierarchy."), db) ∧
  teamController.deleteTeam id user db =
    (Ok (failure 500 "Server error while deleting team."), db) ∧
  playerController.getPlayerById id user db =
    (Ok (failure 500 "Server error while fetching player."), db) ∧
  playerController.deletePlayer id user db =
    (Ok (failure 500 "Server error while deleting player."), db) ∧
  (∀ now, playerController.unassignPlayerFromTeam now id user db =
     (Ok (failure 500 "Server error while unassigning player."), db)) ∧
  (∀ now body, ∃ code msg,
     teamController.updateTeam now id body user db = (Ok (failure code msg), db) ∧
     (code = 400 ∨ code = 500)) ∧
  (∀ now body, ∃ code msg,
     playerController.updatePlayer now id body user db = (Ok (failure code msg), db) ∧
     (code = 400 ∨ code = 500)) ∧
  (∀ now team_id, ∃ code msg,
     playerController.assignPlayerToTeam now id team_id user db =
       (Ok (failure code msg), db) ∧
     (code = 400 ∨ code = 500)).
Proof.
  intros Hid%bind_int4_malformed.
  unfold teamController.getTeamById, teamController.getTeamHierarchy,
    teamController.deleteTeam, playerController.getPlayerById,
    playerController.deletePlayer, playerController.unassignPlayerFromTeam,
    teamController.updateTeam, playerController.updatePlayer,
    playerController.assignPlayerToTeam.
  split_and!; try intros now; try intros body.
  - by rewrite try_catch_run, bind_run, Team_findByIdWithPlayerCount_eq, Hid.
  - rewrite try_catch_run, bind_run. unfold Team.getTeamHierarchy.
    by rewrite bind_run, Team_findById_eq, Hid.
  - by rewrite try_catch_run, bind_run, Team_delete_eq, Hid.
  - by rewrite try_catch_run, bind_run, Player_findById_eq, Hid.
  - by rewrite try_catch_run, bind_run, Player_delete_eq, Hid.
  - by rewrite try_catch_run, bind_run, Player_unassignFromTeam_eq, Hid.
  - rewrite try_catch_run.
    destruct (truthy (body_team_name body)); simpl; [|eexists _, _; eauto].
    rewrite bind_lift.
    destruct (js_trim (body_team_name body)); [|eexists _, _; eauto].
    rewrite bind_lift. destruct (trim_or (body_description body) _); [|eexists _, _; eauto].
    rewrite bind_lift. destruct (trim_or (body_team_logo body) _); [|eexists _, _; eauto].
    destruct (decide _); [eexists _, _; eauto|].
    rewrite bind_run, Team_update_eq, Hid.
    destruct (team_params _ _ _ _) as [[[[??]?]?]|]; eexists _, _; eauto.
  - rewrite try_catch_run.
    destruct (truthy (body_player_name body)); simpl; [|eexists _, _; eauto].
    rewrite bind_lift.
    destruct (js_trim (body_player_name body)); [|eexists _, _; eauto].
    rewrite bind_lift. destruct (trim_or (body_position body) _); [|eexists _, _; eauto].
    destruct (decide _); [eexists _, _; eauto|].
    rewrite bind_run, Player_update_eq, Hid.
    destruct (player_params _ _ _ _) as [[[[??]?]?]|]; eexists _, _; eauto.
  - rename body into team_id. rewrite try_catch_run.
    destruct (truthy team_id); simpl; [|eexists _, _; eauto].
    rewrite bind_run, Player_assignToTeam_eq, Hid.
    destruct (bind_int4 team_id); eexists _, _; eauto.
Qed.

(** The id "abc". *)
Lemma malformed_id_is_a_server_error_witness :
  teamController.getTeamById (lit "abc") 1 example_db =
    (Ok (failure 500 "Server error while fetching team."), example_db) ∧
  playerController.deletePlayer (lit "abc") 1 example_db =
    (Ok (failure 500 "Server error while deleting player."), example_db).
Proof.
  destruct (malformed_id_is_a_server_error (lit "abc") 1 example_db)
    as (Hteam & _ & _ & _ & Hdelete & _); [reflexivity|].
  split; [exact Hteam|exact Hdelete].
Defined.



(** X18. The player a create answers with is the row it stored for the
    caller under the next id, named by the trimmed name of the body, and
    the message tells whether it has a team: it reads "Global player
    created successfully." exactly when the stored team id is NULL. A
    team it names exists. *)
Theorem createPlayer_message_tells_the_team `{Platform} (now : Z)
    (body : player_body) (user : Z) (db db' : database) (r : response (Z * player))
    (i : Z) (p : player) :
  playerController.createPlayer now body user db = (Ok r, db') →
  data r = Some (i, p) →
  i = players_id_seq db ∧ players db !! i = None ∧
  players db' = <[i:=p]> (players db) ∧ teams db' = teams db ∧
  player_user_id p = user ∧ player_created_at p = now ∧ player_updated_at p = now ∧
  (∃ s, body_player_name body = JStr s ∧ player_name p = trim s) ∧
  (message r = Some "Global player created successfully."%string ↔ team_id p = None) ∧
  (message r = Some "Player created successfully."%string ↔ is_Some (team_id p)) ∧
  team_fk_ok db (team_id p).
Proof.
  unfold playerController.createPlayer. rewrite try_catch_run.
  destruct (truthy (body_player_name body)); simpl; [|by intros [= <- _]].
  rewrite bind_lift.
  destruct (body_player_name body) as [| | | |s|]; simpl; try by intros [= <- _].
  rewrite bind_lift.
  destruct (trim_or (body_position body) _) as [cleanPosition|]; [|by intros [= <- _]].
  destruct (decide _); [by intros [= <- _]|].
  rewrite bind_run.
  destruct (Player.create _ _ _ _ _ _ _) as [[[i' p']|] db1] eqn:Hc; [|by intros [= <- _]].
  intros [= <- <-]. simpl. intros [= -> ->].
  pose proof Hc as Hc'. rewrite Player_create_eq in Hc'.
  apply Player_create_success in Hc
    as (name & pos & number & ref & Hpar & -> & -> & Hfree & Hplayers & Hteams).
  rewrite Hpar in Hc'. destruct (bool_decide _) in Hc'; [|done].
  unfold insert_player in Hc'.
  destruct (decide _) as [(_ & Hfk & _)|] in Hc'; [|done].
  change (team_fk_ok db ref) in Hfk.
  apply player_params_inv in Hpar as (Hname & _ & _ & Href).
  apply varchar_trimmed in Hname as ->.
  do 7 (split; [done|]). split; [exists s; split; reflexivity|]. simpl.
  destruct (truthy (body_team_id body)) eqn:Htid.
  - unfold js_or in Href. rewrite !Htid in Href.
    destruct (bind_int4_truthy _ _ Htid Href) as [k ->].
    split; [done|]. split; [|done]. split; [by eexists|done].
  - rewrite (js_or_falsy _ _ Htid) in Href. injection Href as <-.
    split; [done|]. split; [|done]. split; [done|by intros [??]].
Qed.

(** Kay is created with team id 0. *)
Lemma createPlayer_message_tells_the_team_witness :
  ∃ r db' p,
    playerController.createPlayer 7 zero_body 1 example_db = (Ok r, db') ∧
    data r = Some (4, p) ∧
    message r = Some "Global player created successfully."%string ∧
    team_id p = None.
Proof.
  eexists _, _, _. split; [by vm_compute|]. split; [reflexivity|].
  split; [reflexivity|].
  eapply (createPlayer_message_tells_the_team 7 zero_body 1 example_db);
    [by vm_compute|reflexivity|reflexivity].
Defined.

(** ** More on search *)

(** The pattern of a search is never refused: a backslash that ends the
    query escapes the percent sign that closes the pattern. *)
Lemma like_pattern_closed q :
  is_Some (like_pattern (q ++ [37%N])) ∧ ∀ c, is_Some (like_pattern (c :: q ++ [37%N])).
Proof.
  induction q as [|x q [IH1 IH2]].
  - split; [by eexists|]. intros c. simpl.
    destruct (c =? 37)%N; [by eexists|]. destruct (c =? 95)%N; [by eexists|].
    destruct (c =? 92)%N; by eexists.
  - split; [apply IH2|]. intros c.
    change (like_pattern (c :: (x :: q) ++ [37%N])) with
      (if (c =? 37)%N then (AnyString ::.) <$> like_pattern (x :: q ++ [37%N])
       else if (c =? 95)%N then (AnyChar ::.) <$> like_pattern (x :: q ++ [37%N])
       else if (c =? 92)%N then (Literal x ::.) <$> like_pattern (q ++ [37%N])
       else (Literal c ::.) <$> like_pattern (x :: q ++ [37%N])).
    destruct (c =? 37)%N; [by apply fmap_is_Some|].
    destruct (c =? 95)%N; [by apply fmap_is_Some|].
    destruct (c =? 92)%N; by apply fmap_is_Some.
Qed.

Lemma search_pattern_closed q : is_Some (like_pattern (Player.search_pattern q)).
Proof.
  unfold Player.search_pattern. change (lit "%") with [37%N].
  change ([37%N] ++ q ++ [37%N]) with (37%N :: (q ++ [37%N])).
  apply like_pattern_closed.
Qed.

Lemma like_match_any_strings fold p s :
  p ≠ [] → Forall (λ t, t = AnyString) p → like_match fold p s = true.
Proof.
  intros Hne Hp. induction Hp as [|t p -> Hp IH]; [done|].
  destruct p as [|t' p].
  - apply like_match_any_string.
  - rewrite like_match_skip, IH; done.
Qed.

Lemma like_pattern_percents q :
  Forall (λ c, c = 37%N) q →
  ∃ p, like_pattern q = Some p ∧ Forall (λ t, t = AnyString) p ∧ length p = length q.
Proof.
  induction 1 as [|c q -> Hq (p & Hp & Hall & Hlen)].
  - by exists [].
  - exists (AnyString :: p). simpl. rewrite Hp. simpl.
    split; [done|]. split; [by constructor|by rewrite Hlen].
Qed.

Section search_more.
Context `{Platform}.

Lemma Player_search_eq db u q :
  Player.search q u db =
  if bool_decide (0%N ∈ q) then (Throw, db)
  else
    match like_pattern (Player.search_pattern q) with
    | Some pat =>
        (Ok (listed_columns <$> merge_sort listing_order
               (filter (λ r : joined,
                          player_user_id r.1.2 = u ∧
                          (ilike pat (player_name r.1.2) ∨ team_name_ilike pat r.2))
                       (left_join_teams db))), db)
    | None => (Throw, db)
    end.
Proof.
  unfold Player.search. rewrite bind_lift. unfold bind_text.
  assert (bool_decide (0%N ∈ Player.search_pattern q) = bool_decide (0%N ∈ q)) as ->.
  { apply bool_decide_ext. unfold Player.search_pattern. change (lit "%") with [37%N].
    rewrite !elem_of_app, !list_elem_of_singleton. split; [|tauto].
    intros [?|[?|?]]; done. }
  destruct (bool_decide (0%N ∈ q)); [done|]. rewrite bind_Ok. simpl.
  by destruct (like_pattern _).
Qed.
End search_more.

(** X19. Search fails on nothing but the code point 0 in the query, which
    the store refuses; no query makes a pattern that is refused. Every
    other query is answered with rows of the caller's player listing, each
    at most once, in the listing order; the controller answers them with
    200 and their number once the query is a string that is not blank. *)
Theorem search_fails_on_nul_only `{Platform} (db : database) (ownerId : Z) (q : text) :
  (0%N ∈ q → Player.search q ownerId db = (Throw, db)) ∧
  (0%N ∉ q →
     ∃ rows listing,
       Player.search q ownerId db = (Ok rows, db) ∧
       Player.findAllByUserId ownerId db = (Ok listing, db) ∧
       rows ⊆ listing ∧
       NoDup (pl_id <$> rows) ∧
       StronglySorted listed_order rows) ∧
  (trim q ≠ [] →
     (0%N ∈ trim q →
        playerController.searchPlayers (JStr q) ownerId db =
          (Ok (failure 500 "Server error while searching players."), db)) ∧
     (0%N ∉ trim q →
        ∃ rows, Player.search (trim q) ownerId db = (Ok rows, db) ∧
                playerController.searchPlayers (JStr q) ownerId db =
                  (Ok {| status := 200; success := true; message := None;
                         count := Some (length rows); data := Some rows |}, db))).
Proof.
  assert (∀ q, 0%N ∉ q →
    ∃ rows listing,
       Player.search q ownerId db = (Ok rows, db) ∧
       Player.findAllByUserId ownerId db = (Ok listing, db) ∧
       rows ⊆ listing ∧
       NoDup (pl_id <$> rows) ∧
       StronglySorted listed_order rows) as Hok.
  { intros q' Hq. rewrite Player_search_eq, bool_decide_eq_false_2 by done.
    destruct (search_pattern_closed q') as [pat ->].
    eexists _, _. split; [reflexivity|]. split; [reflexivity|].
    split; [|split; [apply listing_ids|apply sorted_listing]].
    intros row. rewrite !elem_of_sorted_join.
    intros (i & p & -> & Hp & Hu & _). by exists i, p. }
  split; [|split; [apply Hok|]].
  - intros Hq. by rewrite Player_search_eq, bool_decide_eq_true_2.
  - intros Hq. unfold playerController.searchPlayers. rewrite try_catch_run.
    rewrite (trim_nil_inv q Hq). simpl. rewrite bind_lift. simpl.
    rewrite decide_False by (by destruct (trim q)).
    rewrite bind_run. split.
    + intros H0. by rewrite Player_search_eq, bool_decide_eq_true_2.
    + intros H0. destruct (Hok (trim q) H0) as (rows & _ & Hrun & _).
      exists rows. split; [done|]. by rewrite Hrun.
Qed.

(** X20. A query of percent signs lists everything: the search answers
    with the rows of the listing of the caller's players, each as often as
    the listing has it, in the listing order; so does the controller, which
    takes a percent sign for a query, with the same count.  Rows that the
    order does not tell apart come as the store returns them, so the two
    answers are compared up to a permutation. *)
Theorem search_percent_lists_everything `{Platform} (db : database) (ownerId : Z)
    (q : text) :
  Forall (λ c, c = 37%N) q →
  ∃ rows everyone,
    Player.search q ownerId db = (Ok rows, db) ∧
    Player.findAllByUserId ownerId db = (Ok everyone, db) ∧
    rows ≡ₚ everyone ∧
    StronglySorted listed_order rows ∧
    StronglySorted listed_order everyone ∧
    (q ≠ [] →
       playerController.searchPlayers (JStr q) ownerId db = (Ok (listing rows), db) ∧
       playerController.getAllPlayers ownerId db = (Ok (listing everyone), db) ∧
       count (listing rows) = count (listing everyone)).
Proof.
  intros Hq.
  assert (Player.search q ownerId db = Player.findAllByUserId ownerId db) as Hsame.
  { rewrite Player_search_eq, bool_decide_eq_false_2.
    2: { intros Hin. rewrite Forall_forall in Hq. by specialize (Hq _ Hin). }
    destruct (like_pattern_percents (Player.search_pattern q)) as (pat & -> & Hall & Hlen).
    { unfold Player.search_pattern. change (lit "%") with [37%N].
      rewrite !Forall_app. repeat split; [by constructor|done|by constructor]. }
    unfold Player.findAllByUserId. run_query. do 4 f_equal.
    apply filter_ext_in. intros r _. split; [by intros [? _]|].
    intros Hu. split; [done|]. left. unfold ilike.
    apply like_match_any_strings; [|done]. by destruct pat. }
  assert (∃ everyone, Player.findAllByUserId ownerId db = (Ok everyone, db) ∧
                      StronglySorted listed_order everyone) as (everyone & Hall & Hsorted).
  { eexists. split; [unfold Player.findAllByUserId; by run_query|]. apply sorted_listing. }
  exists everyone, everyone. rewrite Hsame. split_and!; [done..|]. intros Hne.
  assert (trim q = q) as Htrim.
  { destruct Hq as [|c q -> Hq]; [done|].
    unfold trim. rewrite trimStart_fixed by done.
    destruct (snoc_cases (37%N :: q)) as [?|(l & x & Hlx)]; [done|].
    rewrite Hlx. apply trimEnd_fixed.
    assert (x ∈ 37%N :: q) as Hx by (rewrite Hlx; set_solver).
    apply elem_of_cons in Hx as [->|Hx]; [done|].
    rewrite Forall_forall in Hq. by rewrite (Hq _ Hx). }
  assert (playerController.getAllPlayers ownerId db = (Ok (listing everyone), db)) as ->.
  { unfold playerController.getAllPlayers. by rewrite try_catch_run, bind_run, Hall. }
  split; [|done].
  unfold playerController.searchPlayers. rewrite try_catch_run.
  assert (truthy (JStr q) = true) as -> by (by destruct q).
  simpl. rewrite bind_lift. simpl. rewrite Htrim.
  rewrite decide_False by (by destruct q).
  by rewrite bind_run, Hsame, Hall.
Qed.

(** The query "%" on the example database. *)
Lemma search_percent_lists_everything_witness :
  ∃ rows everyone,
    Player.search (lit "%") 1 example_db = (Ok rows, example_db) ∧
    Player.findAllByUserId 1 example_db = (Ok everyone, example_db) ∧
    rows ≡ₚ everyone ∧
    StronglySorted listed_order rows ∧
    playerController.searchPlayers (JStr (lit "%")) 1 example_db =
      (Ok (listing rows), example_db) ∧
    playerController.getAllPlayers 1 example_db = (Ok (listing everyone), example_db).
Proof.
  destruct (search_percent_lists_everything example_db 1 (lit "%"))
    as (rows & everyone & Hm & Hl & Hperm & Hsorted & _ & Hc).
  { by repeat constructor. }
  exists rows, everyone. destruct Hc as (Hs & Hg & _); [done|]. done.
Defined.

(** X21. Search does not tell the case of the query: two queries without
    the characters the store reads specially that are the same after case
    folding are answered alike. *)
Theorem search_ignores_the_case_of_the_query `{Platform} (db : database)
    (ownerId : Z) (q q' : text) :
  Forall (λ c, ¬ special c) q →
  Forall (λ c, ¬ special c) q' →
  lower <$> q = lower <$> q' →
  Player.search q ownerId db = Player.search q' ownerId db.
Proof.
  intros Hq Hq' Hfold. rewrite !Player_search_plain by done.
  do 4 f_equal. apply filter_ext_in. intros r _.
  assert (∀ s, ilike (AnyString :: (Literal <$> q) ++ [AnyString]) s ↔
               ilike (AnyString :: (Literal <$> q') ++ [AnyString]) s) as Hlike.
  { intros s. unfold ilike.
    rewrite !like_match_contains, !contains_foldedb_spec. unfold contains_folded.
    by rewrite Hfold. }
  unfold team_name_ilike. destruct r as [[i p] [t|]]; simpl; by rewrite ?Hlike.
Qed.

(** "LIONS" and "lions". *)
Lemma search_ignores_the_case_of_the_query_witness :
  Player.search (lit "LIONS") 1 example_db = Player.search (lit "lions") 1 example_db.
Proof.
  apply search_ignores_the_case_of_the_query.
  - apply (bool_decide_unpack _). by vm_compute.
  - apply (bool_decide_unpack _). by vm_compute.
  - reflexivity.
Defined.

(** ** Authentication *)

Lemma split_no_sep sep s : sep ∉ s → split sep s = [s].
Proof.
  induction s as [|c s IH]; [done|]. intros Hs. simpl.
  destruct (N.eqb_spec c sep) as [->|Hne]; [destruct Hs; left|].
  rewrite IH; [done|]. intros Hin. apply Hs. by right.
Qed.

Lemma split_sep sep a b : sep ∉ a → split sep (a ++ sep :: b) = a :: split sep b.
Proof.
  induction a as [|c a IH]; intros Ha; simpl.
  - by rewrite N.eqb_refl.
  - destruct (N.eqb_spec c sep) as [->|Hne]; [destruct Ha; left|].
    rewrite IH; [done|]. intros Hin. apply Ha. by right.
Qed.

Lemma bearer_token_second_word scheme token rest :
  32%N ∉ scheme → 32%N ∉ token → rest = [] ∨ (∃ r, rest = 32%N :: r) →
  bearer_token (Some (scheme ++ 32%N :: token ++ rest)) = Some token.
Proof.
  intros Hs Ht Hrest. unfold bearer_token.
  destruct (scheme ++ 32%N :: token ++ rest) as [|c h] eqn:Hh.
  { by destruct scheme. }
  rewrite <-Hh, split_sep by done. simpl.
  destruct Hrest as [->|[r ->]].
  - by rewrite app_nil_r, split_no_sep.
  - by rewrite split_sep.
Qed.

(** X22. The middleware reads the second word of the Authorization
    header and nothing else: without a header, with a header of one word,
    or with an empty second word it answers 401 and verifies nothing;
    otherwise the second word alone decides, whatever the first word is
    and whatever follows the second: 403 where the token does not verify,
    and the user of the token where it does. *)
Theorem authenticateToken_reads_the_second_word `{Credentials} (now : Z) :
  authenticateToken now None = Denied 401 "Access denied. No token provided." ∧
  (∀ h, 32%N ∉ h →
     authenticateToken now (Some h) = Denied 401 "Access denied. No token provided.") ∧
  (∀ scheme token rest,
     32%N ∉ scheme → 32%N ∉ token → rest = [] ∨ (∃ r, rest = 32%N :: r) →
     authenticateToken now (Some (scheme ++ 32%N :: token ++ rest)) =
       if decide (token = []) then Denied 401 "Access denied. No token provided."
       else
         match jwt_verify now token with
         | Some decoded => Next decoded
         | None => Denied 403 "Invalid or expired token."
         end).
Proof.
  split; [done|]. split.
  - intros h Hh. unfold authenticateToken, bearer_token.
    destruct h as [|c h]; [done|]. by rewrite split_no_sep.
  - intros scheme token rest Hs Ht Hrest. unfold authenticateToken.
    rewrite bearer_token_second_word by done.
    destruct token as [|c token]; [done|]. rewrite decide_False by done.
    by destruct (jwt_verify now (c :: token)) as [[??]|].
Qed.

(** "Basic 99999.1.admin" is taken as "Bearer 99999.1.admin" is. *)
Lemma authenticateToken_reads_the_second_word_witness :
  authenticateToken 5 (Some (lit "Basic 99999.1.admin")) =
    Next {| claim_id := 1; claim_username := lit "admin" |} ∧
  authenticateToken 5 (Some (lit "Bearer")) =
    Denied 401 "Access denied. No token provided.".
Proof.
  destruct (authenticateToken_reads_the_second_word 5) as (_ & Hone & Htwo).
  split.
  - apply (Htwo (lit "Basic") (lit "99999.1.admin") []); [| |by left].
    + intros Hin. apply (bool_decide_pack _) in Hin. by vm_compute in Hin.
    + intros Hin. apply (bool_decide_pack _) in Hin. by vm_compute in Hin.
  - apply Hone. intros Hin. apply (bool_decide_pack _) in Hin. by vm_compute in Hin.
Defined.

Section login.
Context `{Platform} `{Credentials}.

Lemma User_findByUsername_eq name acc :
  0%N ∉ name →
  User.findByUsername (JStr name) acc =
  Ok (first_row (select_where (user_rows acc) (λ r, Some name = Some (user_username r.2)))).
Proof.
  intros Hname. unfold User.findByUsername, bind_text.
  by rewrite bool_decide_eq_false_2.
Qed.

Lemma User_findByUsername_hit name acc id u :
  unique_usernames acc → 0%N ∉ name →
  user_rows acc !! id = Some u → user_username u = name →
  User.findByUsername (JStr name) acc = Ok (Some (id, u)).
Proof.
  intros Huniq Hname Hu Hn. rewrite User_findByUsername_eq by done.
  unfold select_where.
  rewrite (filter_unique _ _ (id, u)); [done|apply NoDup_map_to_list| | |].
  - by apply elem_of_map_to_list.
  - simpl. by rewrite Hn.
  - intros [j v] Hin [= Hv]. apply elem_of_map_to_list in Hin. simpl in *.
    assert (j = id) as -> by (apply (Huniq j id v u); congruence).
    congruence.
Qed.

Lemma User_findByUsername_miss name acc :
  0%N ∉ name →
  (∀ i u, user_rows acc !! i = Some u → user_username u ≠ name) →
  User.findByUsername (JStr name) acc = Ok None.
Proof.
  intros Hname Hmiss. rewrite User_findByUsername_eq by done.
  unfold select_where. rewrite filter_none; [done|].
  intros [i u] Hin [= Hu]. apply elem_of_map_to_list in Hin.
  by apply (Hmiss i u).
Qed.

Lemma User_findById_hit acc id u :
  int4_range id = true → user_rows acc !! id = Some u →
  User.findById (JNum id) acc = Ok (Some (id, user_username u, user_created_at u)).
Proof.
  intros Hid Hu. unfold User.findById. simpl. rewrite Hid, bind_Ok.
  by rewrite select_where_ref, Hu.
Qed.
End login.

(** X23. Login tells nothing of which half of the credentials was wrong:
    a username that no user has and a wrong password for a user are
    answered with the same 401. A missing username or password is
    answered 400. With the password of the user the answer is 200 with
    that user and a token signed for its id and name. *)
Theorem login_answers `{Platform} `{Credentials} (now : Z) (acc : accounts)
    (name password : text) :
  unique_usernames acc →
  name ≠ [] → password ≠ [] → 0%N ∉ name →
  ((∀ i u, user_rows acc !! i = Some u → user_username u ≠ name) →
     authController.login now (JStr name) (JStr password) acc =
       refusal 401 "Invalid username or password.") ∧
  (∀ id u, user_rows acc !! id = Some u → user_username u = name →
     (bcrypt_compare password (user_password_hash u) = false →
        authController.login now (JStr name) (JStr password) acc =
          refusal 401 "Invalid username or password.") ∧
     (bcrypt_compare password (user_password_hash u) = true →
        authController.login now (JStr name) (JStr password) acc =
          {| auth_status := 200; auth_success := true;
             auth_message := Some "Login successful."%string;
             auth_token := Some (jwt_sign now {| claim_id := id; claim_username := name |});
             auth_user := Some (id, name) |})) ∧
  (∀ username' password',
     truthy username' = false ∨ truthy password' = false →
     authController.login now username' password' acc =
       refusal 400 "Username and password are required.").
Proof.
  intros Huniq Hn Hp Hnul.
  assert (truthy (JStr name) = true) as Htn by (by destruct name).
  assert (truthy (JStr password) = true) as Htp by (by destruct password).
  split; [|split].
  - intros Hmiss. unfold authController.login. rewrite Htn, Htp. simpl.
    by rewrite User_findByUsername_miss.
  - intros id u Hu Hname. unfold authController.login. rewrite Htn, Htp. simpl.
    rewrite (User_findByUsername_hit name acc id u) by done. simpl.
    split; intros ->; simpl; [done|]. by rewrite Hname.
  - intros username' password' [Hf|Hf]; unfold authController.login; rewrite Hf.
    + done.
    + by rewrite orb_true_r.
Qed.

Lemma example_accounts_unique : unique_usernames example_accounts.
Proof.
  intros i j u v Hi Hj _. unfold example_accounts in *. simpl in *.
  apply lookup_singleton_Some in Hi as [<- _].
  apply lookup_singleton_Some in Hj as [<- _]. done.
Qed.

(** admin logs in, and a wrong password and a stranger are refused
    alike. *)
Lemma login_answers_witness :
  auth_user (authController.login 5 (JStr (lit "admin")) (JStr (lit "admin123"))
               example_accounts) = Some (1, lit "admin") ∧
  authController.login 5 (JStr (lit "admin")) (JStr (lit "guess")) example_accounts =
  authController.login 5 (JStr (lit "nobody")) (JStr (lit "guess")) example_accounts.
Proof.
  assert (∀ s : string, 0%N ∉ lit s ↔ bool_decide (0%N ∉ lit s) = true) as Hnul.
  { intros s. by rewrite bool_decide_eq_true. }
  destruct (login_answers 5 example_accounts (lit "admin") (lit "admin123")
              example_accounts_unique) as (_ & Hadmin & _); [done|done|by apply Hnul|].
  destruct (Hadmin 1 {| user_username := lit "admin";
                        user_password_hash := reference_hash (lit "salt") (lit "admin123");
                        user_created_at := 0 |}) as [_ Hok]; [reflexivity..|].
  destruct (login_answers 5 example_accounts (lit "admin") (lit "guess")
              example_accounts_unique) as (_ & Hguess & _); [done|done|by apply Hnul|].
  destruct (Hguess 1 {| user_username := lit "admin";
                        user_password_hash := reference_hash (lit "salt") (lit "admin123");
                        user_created_at := 0 |}) as [Hwrong _]; [reflexivity..|].
  destruct (login_answers 5 example_accounts (lit "nobody") (lit "guess")
              example_accounts_unique) as (Hnobody & _); [done|done|by apply Hnul|].
  split.
  - rewrite Hok; reflexivity.
  - rewrite Hwrong by reflexivity. rewrite Hnobody; [reflexivity|].
    intros i u Hi Hu. unfold example_accounts in Hi. simpl in Hi.
    apply lookup_singleton_Some in Hi as [_ <-]. discriminate Hu.
Defined.

Lemma bearer_passes `{Credentials} now token c :
  jwt_verify now token = Some c → token ≠ [] → 32%N ∉ token →
  authenticateToken now (Some (lit "Bearer " ++ token)) = Next c.
Proof.
  intros Hverify Hne Hsp. unfold authenticateToken.
  assert (lit "Bearer " ++ token = lit "Bearer" ++ 32%N :: token ++ []) as ->
    by (by rewrite app_nil_r).
  rewrite bearer_token_second_word; [| |done|by left].
  2: { intros Hin. apply (bool_decide_pack _) in Hin. by vm_compute in Hin. }
  destruct token as [|x token]; [done|]. rewrite Hverify. by destruct c.
Qed.

Lemma first_row_elem {A} (rows : list A) r : first_row rows = Some r → r ∈ rows.
Proof. destruct rows as [|x rows]; [done|]. intros [= ->]. by left. Qed.

(** X24. The token a successful login answers with is signed for a user
    of the table, the one the answer names; presented as "Bearer" and the
    token while it verifies, it passes the middleware as that user, and
    the verification route answers with the same id and name. *)
Theorem issued_token_authenticates `{Platform} `{Credentials} (now now' : Z)
    (username password : jsval) (acc : accounts) (r : auth_response) :
  authController.login now username password acc = r →
  auth_success r = true →
  ∃ id u token,
    user_rows acc !! id = Some u ∧
    auth_status r = 200 ∧
    auth_user r = Some (id, user_username u) ∧
    auth_token r = Some token ∧
    token = jwt_sign now {| claim_id := id; claim_username := user_username u |} ∧
    (jwt_verify now' token =
       Some {| claim_id := id; claim_username := user_username u |} →
     token ≠ [] → 32%N ∉ token → int4_range id = true →
     behind_authenticateToken now' (Some (lit "Bearer " ++ token))
       (λ user, authController.verifyToken user acc) refusal =
       {| auth_status := 200; auth_success := true; auth_message := None;
          auth_token := None; auth_user := Some (id, user_username u) |}).
Proof.
  unfold authController.login.
  destruct (negb (truthy username) || negb (truthy password)); [by intros <-|].
  destruct (User.findByUsername username acc) as [[[id u]|]|] eqn:Hfind;
    simpl; try by intros <-.
  destruct (User.verifyPassword password (user_password_hash u)) as [[|]|];
    simpl; try by intros <-.
  intros <- _. cbn [auth_status auth_user auth_token auth_success].
  assert (user_rows acc !! id = Some u) as Hu.
  { unfold User.findByUsername in Hfind.
    destruct (bind_text username) as [name|]; [|done]. rewrite bind_Ok in Hfind.
    injection Hfind as Hfind. apply first_row_elem in Hfind.
    by apply select_where_elem in Hfind as [Hfind _]. }
  eexists id, u, _. do 4 (split; [done|]). split; [reflexivity|].
  intros Hverify Hne Hsp Hid.
  set (token := jwt_sign now _) in *.
  change (behind_authenticateToken now' (Some (lit "Bearer " ++ token))
            (λ user, authController.verifyToken user acc) refusal =
          {| auth_status := 200; auth_success := true; auth_message := None;
             auth_token := None; auth_user := Some (id, user_username u) |}).
  unfold behind_authenticateToken. rewrite (bearer_passes now' token _ Hverify) by done.
  unfold authController.verifyToken.
  change (claim_id _) with id. by rewrite (User_findById_hit acc id u).
Qed.

(** admin logs in and asks who it is. *)
Lemma issued_token_authenticates_witness :
  ∃ token,
    auth_token (authController.login 5 (JStr (lit "admin")) (JStr (lit "admin123"))
                  example_accounts) = Some token ∧
    behind_authenticateToken 9 (Some (lit "Bearer " ++ token))
      (λ user, authController.verifyToken user example_accounts) refusal =
      {| auth_status := 200; auth_success := true; auth_message := None;
         auth_token := None; auth_user := Some (1, lit "admin") |}.
Proof.
  destruct (issued_token_authenticates 5 9 (JStr (lit "admin")) (JStr (lit "admin123"))
              example_accounts _ eq_refl)
    as (id & u & token & Hu & _ & Huser & Htoken & Hsigned & Hpass); [reflexivity|].
  exists token. split; [exact Htoken|].
  injection Huser as <- Hname.
  unfold example_accounts in Hu. simpl in Hu.
  apply lookup_singleton_Some in Hu as [_ <-].
  apply Hpass; subst token.
  - reflexivity.
  - by vm_compute.
  - intros Hin. apply (bool_decide_pack _) in Hin. by vm_compute in Hin.
  - reflexivity.
Defined.

Section users.
Context `{Platform} `{Credentials}.


End users.


